(** * fs-grl: episode collation and datamodule bookkeeping

    A shallow embedding of the episode batching code of
    [fs_grl/data/episode.py], of the split, metadata and relabelling
    code of [fs_grl/data/datamodule.py] and of the steps of
    [fs_grl/pl_modules/dml_baseline.py], with the properties of the
    specification that concern them and further properties of the code. *)

From Stdlib Require Import ZArith QArith Qround Qpower List Lia Lqa Permutation.
From stdpp Require Import base functions list gmap strings sorting.

Open Scope Z_scope.
Open Scope nat_scope.

(** * The embedded code *)

(** ** Python exceptions and fallible computations *)

(** The exceptions the embedded code can raise, by their Python class.
    [ShapeMismatchError] and [ConfigurationError] are the two classes the
    specification names for collation and split configuration failures. *)
Inductive exception : Set :=
| IndexError
| KeyError
| RuntimeError
| ZeroDivisionError
| AttributeError
| NotImplementedError
| FileNotFoundError
| TypeError
| OverflowError
| ValueError
| ShapeMismatchError
| ConfigurationError.

#[global] Instance exception_eq_dec : EqDecision exception.
Proof. solve_decision. Defined.

Inductive result (A : Type) : Type :=
| Ok (a : A)
| Raise (e : exception).
Arguments Ok {A} a.
Arguments Raise {A} e.

(** Sequencing stops at the first exception; [x ← c; k] is stdpp's
    notation for it. *)
#[global] Instance result_ret : MRet result := fun A a => Ok a.
#[global] Instance result_bind : MBind result := fun A B k c =>
  match c with
  | Ok a => k a
  | Raise e => Raise e
  end.

Definition succeeds {A} (c : result A) : Prop := exists a, c = Ok a.
Definition raises {A} (c : result A) (e : exception) : Prop := c = Raise e.

(** ** The parts of torch the collation uses *)

Inductive device : Set :=
| cpu
| cuda (index : nat).

(** A tensor is its row-major contents together with the device holding
    them; [A] is [list Z] for a vector of longs and [list (list Z)] for a
    matrix given by rows. *)
Record Tensor (A : Type) : Type := mkTensor {
  values : A;
  tensor_device : device
}.
Arguments mkTensor {A} values tensor_device.
Arguments values {A} t.
Arguments tensor_device {A} t.

(** [torch.tensor(v)] allocates on the default device. *)
Definition torch_tensor {A} (v : A) : Tensor A := mkTensor v cpu.

(** [t.to(device)] *)
Definition Tensor_to {A} (t : Tensor A) (d : device) : Tensor A :=
  mkTensor (values t) d.

(** [torch.cat(ts, dim=-1)] on one-dimensional CPU tensors; an empty list of
    tensors is rejected. *)
Definition torch_cat (ts : list (list Z)) : result (Tensor (list Z)) :=
  match ts with
  | [] => Raise RuntimeError
  | _ :: _ => Ok (torch_tensor (concat ts))
  end.

(** The [m] consecutive rows of width [n] of a flat sequence. *)
Fixpoint rows (n m : nat) (l : list Z) : list (list Z) :=
  match m with
  | O => []
  | S m' => take n l :: rows n m' (drop n l)
  end.

(** [t.reshape(-1, n)] on a one-dimensional tensor: the first dimension is
    inferred; it cannot be when [n] is zero or does not divide the number of
    elements. *)
Definition reshape (l : list Z) (n : nat) : result (list (list Z)) :=
  if decide (n = 0) then Raise RuntimeError
  else if decide (length l mod n = 0) then Ok (rows n (length l / n) l)
  else Raise RuntimeError.

(** Position of the maximum of a row, the first one among equal maxima. *)
Fixpoint argmax_from (best_i : nat) (best : Z) (i : nat) (row : list Z) : nat :=
  match row with
  | [] => best_i
  | x :: row' =>
      if (best <? x)%Z then argmax_from i x (S i) row'
      else argmax_from best_i best (S i) row'
  end.

Definition argmax (row : list Z) : nat :=
  match row with
  | [] => 0
  | x :: row' => argmax_from 0 x 1 row'
  end.

(** ** The parts of torch_geometric the collation uses *)

(** A graph, as far as the bookkeeping reads it: its node count and its
    label [y], a tensor of one element that is read here as that element. *)
Record Data : Set := mkData {
  num_nodes : nat;
  y : Z
}.

(** A collated batch keeps its graphs recoverable one by one. *)
Record Batch : Set := mkBatch {
  data_list : list Data;
  batch_device : device
}.

(** [Batch.from_data_list] reads [data_list[0]], so it needs a graph. *)
Definition Batch_from_data_list (l : list Data) : result Batch :=
  match l with
  | [] => Raise IndexError
  | _ :: _ => Ok (mkBatch l cpu)
  end.

Definition Batch_to (b : Batch) (d : device) : Batch :=
  mkBatch (data_list b) d.

(** ** episode.py *)

Record EpisodeHParams : Set := mkEpisodeHParams {
  num_classes_per_episode : nat;
  num_supports_per_class : nat;
  num_queries_per_class : nat
}.

Module Episode.

Record t : Set := mk {
  supports : list Data;
  queries : list Data;
  labels : list Z;
  episode_hparams : EpisodeHParams
}.

End Episode.

Definition sum_num_nodes (l : list Data) : Z :=
  Z.of_nat (foldr (fun x acc => num_nodes x + acc) 0 l).

(** [(query.y == label) * 2 - 1] *)
Definition cosine_target (query : Data) (label : Z) : Z :=
  (Z.b2z (y query =? label) * 2 - 1)%Z.

Module EpisodeBatch.

Record t : Type := mk {
  supports : Batch;
  queries : Batch;
  labels : Tensor (list Z);
  episode_hparams : EpisodeHParams;
  assignment_vectors : list (string * Tensor (list (list Z)));
  supports_len : Tensor (list Z);
  queries_len : Tensor (list Z);
  num_episodes : nat;
  cosine_targets : Tensor (list Z);
  label_targets : Tensor (list Z);
  batch_size : Z * Z
}.

Section Collate.

(** [len(batch)] of torch_geometric, which the constructor divides. *)
Variable Batch_len : Batch -> nat.

(** [EpisodeBatch.__init__]; [batch_size] is the quotient
    [len(supports) / (K * N)], kept as numerator and denominator. *)
Definition __init__ (supports queries : Batch) (labels : Tensor (list Z))
    (episode_hparams : EpisodeHParams)
    (assignment_vectors : list (string * Tensor (list (list Z))))
    (supports_len queries_len : Tensor (list Z)) (num_episodes : nat)
    (cosine_targets label_targets : Tensor (list Z)) : result t :=
  let d := num_supports_per_class episode_hparams
           * num_classes_per_episode episode_hparams in
  if decide (d = 0) then Raise ZeroDivisionError
  else Ok (mk supports queries labels episode_hparams assignment_vectors
              supports_len queries_len num_episodes cosine_targets
              label_targets (Z.of_nat (Batch_len supports), Z.of_nat d)).

Definition from_episode_list (episode_list : list Episode.t)
    (episode_hparams : EpisodeHParams) : result t :=
  let supports := flat_map Episode.supports episode_list in
  let queries := flat_map Episode.queries episode_list in
  let labels := flat_map Episode.labels episode_list in
  supports_batch ← Batch_from_data_list supports;
  queries_batch ← Batch_from_data_list queries;
  let labels_batch := torch_tensor labels in
  let K := num_supports_per_class episode_hparams in
  let C := num_classes_per_episode episode_hparams in
  let Q := num_queries_per_class episode_hparams in
  let batch_size := length episode_list in
  let supports_len :=
    torch_tensor
      (map (fun episode => sum_num_nodes (Episode.supports episode))
           episode_list) in
  let queries_len :=
    torch_tensor
      (map (fun episode => sum_num_nodes (Episode.queries episode))
           episode_list) in
  let assignment_vectors :=
    [ ("support"%string,
       torch_tensor
         (map (fun i => replicate (K * C) (Z.of_nat i)) (seq 0 batch_size)));
      ("queries"%string,
       torch_tensor
         (map (fun i => replicate (Q * C) (Z.of_nat i)) (seq 0 batch_size))) ] in
  cosine_targets ←
    torch_cat
      (flat_map
         (fun episode =>
            map (fun ql => [cosine_target (fst ql) (snd ql)])
                (list_prod (Episode.queries episode) (Episode.labels episode)))
         episode_list);
  targets ← reshape (values cosine_targets) C;
  let targets := torch_tensor (map (fun row => Z.of_nat (argmax row)) targets) in
  __init__ supports_batch queries_batch labels_batch episode_hparams
    assignment_vectors supports_len queries_len batch_size cosine_targets
    targets.

End Collate.

Definition set_supports (v : Batch) (self : t) : t :=
  mk v (queries self) (labels self) (episode_hparams self)
     (assignment_vectors self) (supports_len self) (queries_len self)
     (num_episodes self) (cosine_targets self) (label_targets self)
     (batch_size self).

Definition set_queries (v : Batch) (self : t) : t :=
  mk (supports self) v (labels self) (episode_hparams self)
     (assignment_vectors self) (supports_len self) (queries_len self)
     (num_episodes self) (cosine_targets self) (label_targets self)
     (batch_size self).

Definition set_cosine_targets (v : Tensor (list Z)) (self : t) : t :=
  mk (supports self) (queries self) (labels self) (episode_hparams self)
     (assignment_vectors self) (supports_len self) (queries_len self)
     (num_episodes self) v (label_targets self) (batch_size self).

Definition set_label_targets (v : Tensor (list Z)) (self : t) : t :=
  mk (supports self) (queries self) (labels self) (episode_hparams self)
     (assignment_vectors self) (supports_len self) (queries_len self)
     (num_episodes self) (cosine_targets self) v (batch_size self).

Definition set_labels (v : Tensor (list Z)) (self : t) : t :=
  mk (supports self) (queries self) v (episode_hparams self)
     (assignment_vectors self) (supports_len self) (queries_len self)
     (num_episodes self) (cosine_targets self) (label_targets self)
     (batch_size self).

(** [EpisodeBatch.to] assigns five attributes of [self] in turn and
    returns nothing; the result here is the object after the call. *)
Definition to (self : t) (d : device) : t :=
  let self := set_supports (Batch_to (supports self) d) self in
  let self := set_queries (Batch_to (queries self) d) self in
  let self := set_cosine_targets (Tensor_to (cosine_targets self) d) self in
  let self := set_label_targets (Tensor_to (label_targets self) d) self in
  set_labels (Tensor_to (labels self) d) self.

End EpisodeBatch.

(** ** Python dictionaries, JSON documents and files *)

(** [d[key]] for a dictionary kept in insertion order. *)
Fixpoint dict_get {K V} `{EqDecision K} (key : K) (d : list (K * V)) : option V :=
  match d with
  | [] => None
  | (k, v) :: d' => if decide (k = key) then Some v else dict_get key d'
  end.

(** Python dictionaries with string keys, in insertion order. *)
Definition getitem {V} (d : list (string * V)) (key : string) : result V :=
  match dict_get key d with
  | Some v => Ok v
  | None => Raise KeyError
  end.

(** Parsed JSON documents. *)
#[warnings="-register-all"]
Inductive json : Set :=
| JNull
| JInt (z : Z)
| JStr (s : string)
| JList (items : list json)
| JObj (fields : list (string * json)).

(** The files of interest hold JSON; a file is modelled by the document
    that [json.dumps] wrote into it and [json.loads] reads back. *)
Abbreviation file_system := (gmap string json).

Definition path_join (dir name : string) : string := dir +:+ "/" +:+ name.

Definition read_json (path : string) (fs : file_system) : result json :=
  match fs !! path with
  | Some doc => Ok doc
  | None => Raise FileNotFoundError
  end.

Definition json_getitem (doc : json) (key : string) : result json :=
  match doc with
  | JObj fields => getitem fields key
  | _ => Raise TypeError
  end.

Definition json_len (doc : json) : result nat :=
  match doc with
  | JObj fields => Ok (length fields)
  | JList items => Ok (length items)
  | JStr s => Ok (String.length s)
  | _ => Raise TypeError
  end.

Definition json_count (doc : json) : result nat :=
  match doc with
  | JInt z => if (0 <=? z)%Z then Ok (Z.to_nat z) else Raise TypeError
  | _ => Raise TypeError
  end.

Definition json_strings (doc : json) : result (list string) :=
  match doc with
  | JList items =>
      mapM (fun item => match item with JStr s => Ok s | _ => Raise TypeError end)
           items
  | _ => Raise TypeError
  end.

(** The methods the [EpisodeHParams] dataclass defines besides the
    generated [__init__], [__repr__] and [__eq__]: none. *)
Definition EpisodeHParams_methods : list (string * (EpisodeHParams -> json)) := [].

(** [obj.name()] on an [EpisodeHParams] instance. *)
Definition EpisodeHParams_call (self : EpisodeHParams) (name : string) : result json :=
  match dict_get name EpisodeHParams_methods with
  | Some method => Ok (method self)
  | None => Raise AttributeError
  end.

(** The constructor called on keyword arguments unpacked from a document:
    exactly the three fields, as counts. *)
Definition EpisodeHParams_of_kwargs (kwargs : json) : result EpisodeHParams :=
  match kwargs with
  | JObj fields =>
      if decide (length fields = 3) then
        match dict_get "num_classes_per_episode" fields,
              dict_get "num_supports_per_class" fields,
              dict_get "num_queries_per_class" fields with
        | Some n, Some k, Some q =>
            n ← json_count n; k ← json_count k; q ← json_count q;
            Ok (mkEpisodeHParams n k q)
        | _, _, _ => Raise TypeError
        end
      else Raise TypeError
  | _ => Raise TypeError
  end.

Module MetaData.

Record t : Set := mk {
  classes_to_label_dict : json;
  feature_dim : json;
  num_classes : nat;
  episode_hparams : EpisodeHParams;
  classes_split : json
}.

Definition __init__ (class_to_label_dict feature_dim : json)
    (episode_hparams : EpisodeHParams) (classes_split : json) : result t :=
  num_classes ← json_len class_to_label_dict;
  Ok (mk class_to_label_dict feature_dim num_classes episode_hparams classes_split).

(** [MetaData.save]: the file system after the call. *)
Definition save (self : t) (dst_path : string) (fs : file_system)
    : result file_system :=
  hparams ← EpisodeHParams_call (episode_hparams self) "as_dict";
  let data :=
    JObj [ ("classes_to_label_dict"%string, classes_to_label_dict self);
           ("feature_dim"%string, feature_dim self);
           ("episode_hparams"%string, hparams);
           ("classes_split"%string, classes_split self) ] in
  Ok (<[path_join dst_path "data.json" := data]> fs).

Definition load (src_path : string) (fs : file_system) : result t :=
  data ← read_json (path_join src_path "data.json") fs;
  class_to_label_dict ← json_getitem data "classes_to_label_dict";
  feature_dim ← json_getitem data "feature_dim";
  kwargs ← json_getitem data "episode_hparams";
  episode_hparams ← EpisodeHParams_of_kwargs kwargs;
  classes_split ← json_getitem data "classes_split";
  __init__ class_to_label_dict feature_dim episode_hparams classes_split.

End MetaData.

(** ** Shared graphs, lists and slices *)

(** Graph objects are shared between the lists that hold them and are
    relabelled in place: a sample is a reference into a store of graphs. *)
Abbreviation loc := nat.
Abbreviation heap := (loc -> Data).

Definition set_y (label : Z) (g : Data) : Data := mkData (num_nodes g) label.

(** [sample.y.apply_(f)] *)
Definition apply_ (f : Z -> result Z) (sample : loc) (h : heap) : result heap :=
  label ← f (y (h sample));
  Ok (<[sample := set_y label (h sample)]> h).

(** [sorted] on labels. *)
Definition sorted (l : list Z) : list Z := merge_sort Z.le l.

Definition enumerate {A} (l : list A) : list (nat * A) := zip (seq 0 (length l)) l.

(** [d[key] = v] *)
Fixpoint dict_set {K V} `{EqDecision K} (key : K) (v : V) (d : list (K * V))
    : list (K * V) :=
  match d with
  | [] => [(key, v)]
  | (k, v') :: d' =>
      if decide (k = key) then (k, v) :: d' else (k, v') :: dict_set key v d'
  end.

(** [{k: v for k, v in items}] *)
Definition dict_of_items {K V} `{EqDecision K} (items : list (K * V)) : list (K * V) :=
  foldl (fun d kv => dict_set (fst kv) (snd kv) d) [] items.

(** [itertools.groupby]: the maximal runs of equal keys. *)
Fixpoint groupby {A} (key : A -> Z) (l : list A) : list (Z * list A) :=
  match l with
  | [] => []
  | x :: l' =>
      match groupby key l' with
      | (k, g) :: gs =>
          if decide (key x = k) then (k, x :: g) :: gs
          else (key x, [x]) :: (k, g) :: gs
      | [] => [(key x, [x])]
      end
  end.

(** [l[:u]] and [l[u:]] *)
Definition slice_to {A} (u : Z) (l : list A) : list A :=
  if (u <? 0)%Z then take (length l - Z.to_nat (- u)) l else take (Z.to_nat u) l.

Definition slice_from {A} (u : Z) (l : list A) : list A :=
  if (u <? 0)%Z then drop (length l - Z.to_nat (- u)) l else drop (Z.to_nat u) l.

(** [l[idx]] for an index taken from [np.arange] *)
Definition index {A} (l : list A) (idx : nat) : result A :=
  match l !! idx with
  | Some x => Ok x
  | None => Raise IndexError
  end.

(** ** Python floats

    A float is a binary64 number: a finite value, taken as the rational it
    is, an infinity or a NaN. The sign of a zero is not kept; nothing below
    observes it. *)
Inductive float : Set :=
| Finite (x : Q)
| Infinity (negative : bool)
| NaN.

Definition pow2 (e : Z) : Q := Qpower 2 e.

(** The integer part of the binary logarithm of a positive rational. *)
Definition Qlog2 (x : Q) : Z :=
  let l := (Z.log2 (Qnum x) - Z.log2 (Zpos (Qden x)))%Z in
  if Qle_bool (pow2 l) x then l else (l - 1)%Z.

(** The nearest integer, a tie going to the even one. *)
Definition round_half_even (t : Q) : Z :=
  let f := Qfloor t in
  match Qcompare (t - inject_Z f) (1 # 2) with
  | Lt => f
  | Gt => (f + 1)%Z
  | Eq => if Z.even f then f else (f + 1)%Z
  end.

(** The nearest multiple, for a positive rational, of the unit in the last
    place of its binade: 53 significant bits, and the fixed unit 2^-1074 of
    the subnormal numbers. *)
Definition round_magnitude (a : Q) : Q :=
  let e := Z.max (Qlog2 a - 52) (-1074) in
  (inject_Z (round_half_even (a / pow2 e)) * pow2 e)%Q.

(** The float nearest to a rational, ties to even; a result of 2^1024 or
    more is an infinity. *)
Definition float_round (x : Q) : float :=
  match Qcompare x 0 with
  | Eq => Finite 0
  | Gt => let r := round_magnitude x in
          if Qle_bool (pow2 1024) r then Infinity false else Finite r
  | Lt => let r := round_magnitude (- x) in
          if Qle_bool (pow2 1024) r then Infinity true else Finite (- r)
  end.

(** [x * y] on floats *)
Definition float_mul (x y : float) : float :=
  match x, y with
  | NaN, _ | _, NaN => NaN
  | Finite a, Finite b => float_round (a * b)
  | Infinity s, Finite b | Finite b, Infinity s =>
      match Qcompare b 0 with
      | Eq => NaN
      | Lt => Infinity (negb s)
      | Gt => Infinity s
      end
  | Infinity s, Infinity s' => Infinity (xorb s s')
  end.

(** The conversion of an [int] operand of a float product. *)
Definition float_of_int (n : Z) : result float :=
  match float_round (inject_Z n) with
  | Finite x => Ok (Finite x)
  | _ => Raise OverflowError
  end.

(** [math.ceil(x)] *)
Definition math_ceil (x : float) : result Z :=
  match x with
  | Finite q => Ok (Qceiling q)
  | Infinity _ => Raise OverflowError
  | NaN => Raise ValueError
  end.

(** [math.ceil(ratio * n)] for a ratio that the configuration gives as a
    decimal number, held as the float nearest to it, and the length [n] of
    a list: the product is a float product. *)
Definition ceil_ratio (ratio : Q) (n : nat) : result Z :=
  n ← float_of_int (Z.of_nat n);
  math_ceil (float_mul (float_round ratio) n).

(** ** datamodule.py *)

(** What [split_query_support] returns: index sets read from a split file,
    under the keys [query_idxs] and [support_idxs], or the samples
    themselves, under the keys [supports] and [queries]. *)
Inductive query_support_split : Set :=
| SplitIdxs (query_idxs support_idxs : list nat)
| SplitSamples (supports queries : list loc).

(** Modelled from the spec: [fs_grl.data.utils.flatten] is not among the
    sources; the base and the novel pool are the graphs of the buckets whose
    label is in the label set, bucket after bucket. *)
Definition flatten {A} (ls : list (list A)) : list A := concat ls.

Module GraphFewShotDataModule.

(** The constructor arguments the data handling reads. *)
Record config : Set := mkConfig {
  cfg_dataset_name : string;
  cfg_data_dir : string;
  cfg_classes_split_path : option string;
  cfg_query_support_split_path : option string;
  cfg_separated_query_support : bool;
  cfg_support_ratio : Q;
  cfg_episode_hparams : EpisodeHParams;
  cfg_num_train_episodes : Z;
  cfg_num_test_episodes : Z;
  cfg_train_val_split_ratio : Q
}.

Record t (dataset : Type) : Type := mk {
  dataset_name : string;
  data_dir : string;
  classes_split_path : option string;
  query_support_split_path : option string;
  episode_hparams : EpisodeHParams;
  num_train_episodes : Z;
  num_test_episodes : Z;
  support_ratio : Q;
  separated_query_support : bool;
  train_dataset : option dataset;
  val_datasets : option (list dataset);
  test_datasets : option (list dataset);
  classes_split : json;
  base_classes : list string;
  novel_classes : list string;
  data_list : list loc;
  class_to_label_dict : list (string * Z);
  labels_split : list (string * list Z);
  base_labels : list Z;
  novel_labels : list Z;
  data_list_by_label : list (Z * list loc);
  train_val_split_ratio : Q
}.
Arguments mk {dataset}.
Arguments dataset_name {dataset}.
Arguments data_dir {dataset}.
Arguments classes_split_path {dataset}.
Arguments query_support_split_path {dataset}.
Arguments episode_hparams {dataset}.
Arguments num_train_episodes {dataset}.
Arguments num_test_episodes {dataset}.
Arguments support_ratio {dataset}.
Arguments separated_query_support {dataset}.
Arguments train_dataset {dataset}.
Arguments val_datasets {dataset}.
Arguments test_datasets {dataset}.
Arguments classes_split {dataset}.
Arguments base_classes {dataset}.
Arguments novel_classes {dataset}.
Arguments data_list {dataset}.
Arguments class_to_label_dict {dataset}.
Arguments labels_split {dataset}.
Arguments base_labels {dataset}.
Arguments novel_labels {dataset}.
Arguments data_list_by_label {dataset}.
Arguments train_val_split_ratio {dataset}.

Definition get_classes_split (classes_split_path : option string)
    (fs : file_system) : result json :=
  match classes_split_path with
  | Some path => read_json path fs
  | None => Raise NotImplementedError
  end.

Definition get_labels_split (class_to_label_dict : list (string * Z))
    (base_classes novel_classes : list string)
    : result (list (string * list Z)) :=
  base_labels ← mapM (getitem class_to_label_dict) base_classes;
  novel_labels ← mapM (getitem class_to_label_dict) novel_classes;
  Ok [ ("base"%string, sorted base_labels); ("novel"%string, sorted novel_labels) ].

Section Construction.

Variable dataset : Type.

(** [fs_grl.data.io_utils.load_data], which reads the graphs into the
    store and returns them with the class to label dictionary. *)
Variable load_data : string -> string -> result (list loc * list (string * Z)).

Definition __init__ (cfg : config) (fs : file_system) (h : heap)
    : result (t dataset) :=
  classes_split ← get_classes_split (cfg_classes_split_path cfg) fs;
  base_classes ← json_getitem classes_split "base" ≫= json_strings;
  novel_classes ← json_getitem classes_split "novel" ≫= json_strings;
  loaded ← load_data (cfg_data_dir cfg) (cfg_dataset_name cfg);
  let data_list := fst loaded in
  let class_to_label_dict := snd loaded in
  labels_split ← get_labels_split class_to_label_dict base_classes novel_classes;
  base_labels ← getitem labels_split "base";
  novel_labels ← getitem labels_split "novel";
  let data_list_by_label :=
    dict_of_items (groupby (fun sample => y (h sample)) data_list) in
  Ok (mk (cfg_dataset_name cfg) (cfg_data_dir cfg)
         (cfg_classes_split_path cfg) (cfg_query_support_split_path cfg)
         (cfg_episode_hparams cfg) (cfg_num_train_episodes cfg)
         (cfg_num_test_episodes cfg) (cfg_support_ratio cfg)
         (cfg_separated_query_support cfg) None None None
         classes_split base_classes novel_classes data_list
         class_to_label_dict labels_split base_labels novel_labels
         data_list_by_label (cfg_train_val_split_ratio cfg)).

End Construction.

Section Splits.

Context {dataset : Type}.

(** [np.random.shuffle] on the index vector: the order it leaves. *)
Variable shuffle : list nat -> list nat.

(** [fs_grl.data.io_utils.load_query_support_idxs] *)
Variable load_query_support_idxs : string -> result (list nat * list nat).

Definition split_query_support (self : t dataset) (data_list : list loc)
    : result query_support_split :=
  match query_support_split_path self with
  | Some path =>
      idxs ← load_query_support_idxs path;
      Ok (SplitIdxs (fst idxs) (snd idxs))
  | None =>
      let idxs := shuffle (seq 0 (length data_list)) in
      support_upperbound ← ceil_ratio (support_ratio self) (length data_list);
      let support_idxs := slice_to support_upperbound idxs in
      let query_idxs := slice_from support_upperbound idxs in
      supports ← mapM (index data_list) support_idxs;
      queries ← mapM (index data_list) query_idxs;
      Ok (SplitSamples supports queries)
  end.

End Splits.

Definition split_base_novel_samples {dataset} (self : t dataset)
    : list (string * list loc) :=
  let base_samples :=
    flatten (map snd (filter (fun kv => fst kv ∈ base_labels self)
                             (data_list_by_label self))) in
  let novel_samples :=
    flatten (map snd (filter (fun kv => fst kv ∈ novel_labels self)
                             (data_list_by_label self))) in
  [ ("base"%string, base_samples); ("novel"%string, novel_samples) ].

End GraphFewShotDataModule.

(** Assignments to the three dataset attributes of a datamodule. *)
Definition set_train_dataset {dataset} (v : option dataset)
    (self : GraphFewShotDataModule.t dataset) : GraphFewShotDataModule.t dataset :=
  let 'GraphFewShotDataModule.mk a1 a2 a3 a4 a5 a6 a7 a8 a9 _ b2 b3
        c1 c2 c3 c4 c5 c6 c7 c8 c9 c10 := self in
  GraphFewShotDataModule.mk a1 a2 a3 a4 a5 a6 a7 a8 a9 v b2 b3
    c1 c2 c3 c4 c5 c6 c7 c8 c9 c10.

Definition set_val_datasets {dataset} (v : option (list dataset))
    (self : GraphFewShotDataModule.t dataset) : GraphFewShotDataModule.t dataset :=
  let 'GraphFewShotDataModule.mk a1 a2 a3 a4 a5 a6 a7 a8 a9 b1 _ b3
        c1 c2 c3 c4 c5 c6 c7 c8 c9 c10 := self in
  GraphFewShotDataModule.mk a1 a2 a3 a4 a5 a6 a7 a8 a9 b1 v b3
    c1 c2 c3 c4 c5 c6 c7 c8 c9 c10.

Definition set_test_datasets {dataset} (v : option (list dataset))
    (self : GraphFewShotDataModule.t dataset) : GraphFewShotDataModule.t dataset :=
  let 'GraphFewShotDataModule.mk a1 a2 a3 a4 a5 a6 a7 a8 a9 b1 b2 _
        c1 c2 c3 c4 c5 c6 c7 c8 c9 c10 := self in
  GraphFewShotDataModule.mk a1 a2 a3 a4 a5 a6 a7 a8 a9 b1 b2 v
    c1 c2 c3 c4 c5 c6 c7 c8 c9 c10.

(** [stage is None or stage == "fit"] *)
Definition fit_stage (stage : option string) : bool :=
  match stage with
  | None => true
  | Some s => bool_decide (s = "fit"%string)
  end.

Module GraphMetaDataModule.

Section Setup.

Context {dataset : Type}.
Variable shuffle : list nat -> list nat.
Variable load_query_support_idxs : string -> result (list nat * list nat).

(** The dataset classes of [fs_grl.data.dataset]; they read the graphs of
    their samples from the store, and they draw from the random generator,
    whose state they are given and return. *)
Context {random_state : Type}.
Variable IterableEpisodicDataset :
  list loc + query_support_split -> Z -> list (string * Z) -> list Z ->
  EpisodeHParams -> bool -> heap -> random_state ->
  result (dataset * random_state).
Variable MapEpisodicDataset :
  list loc -> Z -> list Z -> list (string * Z) -> EpisodeHParams -> bool ->
  heap -> random_state -> result (dataset * random_state).

(** [setup]: the datamodule and the state of the random generator after
    the call. *)
Definition setup (self : GraphFewShotDataModule.t dataset)
    (stage : option string) (h : heap) (g : random_state)
    : result (GraphFewShotDataModule.t dataset * random_state) :=
  if fit_stage stage then
    let split_samples := GraphFewShotDataModule.split_base_novel_samples self in
    base_samples ← getitem split_samples "base";
    base_samples ←
      (if GraphFewShotDataModule.separated_query_support self then
         split ← GraphFewShotDataModule.split_query_support
                   shuffle load_query_support_idxs self base_samples;
         Ok (inr split)
       else Ok (inl base_samples));
    built ←
      IterableEpisodicDataset base_samples
        (GraphFewShotDataModule.num_train_episodes self)
        (GraphFewShotDataModule.class_to_label_dict self)
        (GraphFewShotDataModule.base_labels self)
        (GraphFewShotDataModule.episode_hparams self)
        (GraphFewShotDataModule.separated_query_support self) h g;
    let train_dataset := fst built in
    let g := snd built in
    let self := set_train_dataset (Some train_dataset) self in
    novel_samples ← getitem split_samples "novel";
    built ←
      MapEpisodicDataset novel_samples
        (GraphFewShotDataModule.num_train_episodes self)
        (GraphFewShotDataModule.novel_labels self)
        (GraphFewShotDataModule.class_to_label_dict self)
        (GraphFewShotDataModule.episode_hparams self) false h g;
    let test_dataset := fst built in
    let g := snd built in
    Ok (set_test_datasets (Some [test_dataset]) self, g)
  else Ok (self, g).

End Setup.

End GraphMetaDataModule.

(** [for x in l: body], threading the state. *)
Fixpoint for_each {A S} (body : A -> S -> result S) (l : list A) (s : S)
    : result S :=
  match l with
  | [] => Ok s
  | x :: l' => s' ← body x s; for_each body l' s'
  end.

Module GraphTransferDataModule.

(** [{label: ind for ind, label in enumerate(sorted(stage_labels))}] *)
Definition global_to_local (stage_labels : list Z) : gmap Z nat :=
  foldl (fun d il => <[snd il := fst il]> d) ∅ (enumerate (sorted stage_labels)).

(** [convert_to_local_labels]: the mapping it returns and the store it
    leaves. *)
Definition convert_to_local_labels {dataset}
    (self : GraphFewShotDataModule.t dataset) (samples : list loc)
    (base_or_novel : string) (h : heap) : result (gmap Z nat * heap) :=
  stage_labels ← getitem (GraphFewShotDataModule.labels_split self) base_or_novel;
  let global_to_local_labels := global_to_local stage_labels in
  h ← for_each
        (apply_ (fun x => match global_to_local_labels !! x with
                          | Some ind => Ok (Z.of_nat ind)
                          | None => Raise KeyError
                          end))
        samples h;
  Ok (global_to_local_labels, h).

Section Setup.

Context {dataset : Type}.
Variable shuffle : list nat -> list nat.
Variable TransferSourceDataset : list loc -> heap -> result dataset.
Variable MapEpisodicDataset :
  list loc -> Z -> list Z -> list (string * Z) -> EpisodeHParams -> bool ->
  heap -> result dataset.

Definition split_train_val (self : GraphFewShotDataModule.t dataset)
    (data_list : list loc) : result (list loc * list loc) :=
  let idxs := shuffle (seq 0 (length data_list)) in
  train_upperbound ←
    ceil_ratio (GraphFewShotDataModule.train_val_split_ratio self)
               (length data_list);
  let train_idxs := slice_to train_upperbound idxs in
  let val_idxs := slice_from train_upperbound idxs in
  train_samples ← mapM (index data_list) train_idxs;
  val_samples ← mapM (index data_list) val_idxs;
  Ok (train_samples, val_samples).

(** [setup]: the datamodule and the store after the call. *)
Definition setup (self : GraphFewShotDataModule.t dataset)
    (stage : option string) (h : heap)
    : result (GraphFewShotDataModule.t dataset * heap) :=
  if fit_stage stage then
    let split_samples := GraphFewShotDataModule.split_base_novel_samples self in
    base_samples ← getitem split_samples "base";
    novel_samples ← getitem split_samples "novel";
    converted ← convert_to_local_labels self base_samples "base" h;
    let base_global_to_local_labels := fst converted in
    let h := snd converted in
    train_val ← split_train_val self base_samples;
    let base_train_samples := fst train_val in
    let base_val_samples := snd train_val in
    train_dataset ← TransferSourceDataset base_train_samples h;
    let self := set_train_dataset (Some train_dataset) self in
    val_dataset ← TransferSourceDataset base_val_samples h;
    let self := set_val_datasets (Some [val_dataset]) self in
    converted ← convert_to_local_labels self novel_samples "novel" h;
    let novel_global_to_local_labels := fst converted in
    let h := snd converted in
    let local_novel_labels :=
      map (fun il => Z.of_nat (fst il))
          (enumerate (sorted (GraphFewShotDataModule.novel_labels self))) in
    test_dataset ←
      MapEpisodicDataset novel_samples
        (GraphFewShotDataModule.num_test_episodes self) local_novel_labels
        (GraphFewShotDataModule.class_to_label_dict self)
        (GraphFewShotDataModule.episode_hparams self) false h;
    Ok (set_test_datasets (Some [test_dataset]) self, h)
  else Ok (self, h).

End Setup.

End GraphTransferDataModule.

(** ** dml_baseline.py *)

(** [t.reshape(r, -1)] on a one-dimensional tensor: the second dimension
    is inferred; it cannot be when [r] is zero or does not divide the number
    of elements. *)
Definition reshape_first (l : list Z) (r : nat) : result (list (list Z)) :=
  if decide (r = 0) then Raise RuntimeError
  else if decide (length l mod r = 0) then Ok (rows (length l / r) r l)
  else Raise RuntimeError.

(** [t[i]] for an entry [i] of a tensor of indices: negative indices count
    from the end. *)
Definition tensor_getitem (t : list Z) (i : Z) : result Z :=
  let n := Z.of_nat (length t) in
  if decide (0 <= i < n)%Z then index t (Z.to_nat i)
  else if decide (- n <= i < 0)%Z then index t (Z.to_nat (i + n))
  else Raise IndexError.

(** [t[idx]] for a tensor [idx] of indices. *)
Definition tensor_gather (t idx : list Z) : result (list Z) :=
  mapM (tensor_getitem t) idx.

(** The attributes of an [EpisodeBatch] object that the class gives it:
    those its constructor assigns, [Episode.__init__] included, and its
    methods. *)
Inductive attribute : Type :=
| ABatch (b : Batch)
| ATensor (t : Tensor (list Z))
| AHParams (hp : EpisodeHParams)
| ADict (d : list (string * Tensor (list (list Z))))
| AInt (n : nat)
| ARatio (q : Z * Z)
| AMethod (name : string).

(** [batch.name] *)
Definition EpisodeBatch_getattr (self : EpisodeBatch.t) (name : string)
    : result attribute :=
  match
    dict_get name
      [ ("supports"%string, ABatch (EpisodeBatch.supports self));
        ("queries"%string, ABatch (EpisodeBatch.queries self));
        ("labels"%string, ATensor (EpisodeBatch.labels self));
        ("episode_hparams"%string, AHParams (EpisodeBatch.episode_hparams self));
        ("assignment_vectors"%string, ADict (EpisodeBatch.assignment_vectors self));
        ("supports_len"%string, ATensor (EpisodeBatch.supports_len self));
        ("queries_len"%string, ATensor (EpisodeBatch.queries_len self));
        ("num_episodes"%string, AInt (EpisodeBatch.num_episodes self));
        ("cosine_targets"%string, ATensor (EpisodeBatch.cosine_targets self));
        ("label_targets"%string, ATensor (EpisodeBatch.label_targets self));
        ("batch_size"%string, ARatio (EpisodeBatch.batch_size self));
        ("from_episode_list"%string, AMethod "from_episode_list");
        ("to"%string, AMethod "to");
        ("pin_memory"%string, AMethod "pin_memory");
        ("map_to_global_labels"%string, AMethod "map_to_global_labels") ]
  with
  | Some a => Ok a
  | None => Raise AttributeError
  end.

(** [t.reshape((-1, n))] on a one-dimensional tensor of scores. *)
Fixpoint score_rows {A} (n m : nat) (l : list A) : list (list A) :=
  match m with
  | O => []
  | S m' => take n l :: score_rows n m' (drop n l)
  end.

Definition reshape_scores {A} (l : list A) (n : nat) : result (list (list A)) :=
  if decide (n = 0) then Raise RuntimeError
  else if decide (length l mod n = 0) then Ok (score_rows n (length l / n) l)
  else Raise RuntimeError.

(** The attributes of a [MetaData] object: those its constructor assigns,
    and its methods. [None] has none of them. *)
Inductive metadata_attribute : Set :=
| MJson (doc : json)
| MInt (n : nat)
| MHParams (hp : EpisodeHParams)
| MMethod (name : string).

Definition MetaData_getattr (self : option MetaData.t) (name : string)
    : result metadata_attribute :=
  match self with
  | None => Raise AttributeError
  | Some self =>
      match
        dict_get name
          [ ("classes_to_label_dict"%string,
             MJson (MetaData.classes_to_label_dict self));
            ("feature_dim"%string, MJson (MetaData.feature_dim self));
            ("num_classes"%string, MInt (MetaData.num_classes self));
            ("episode_hparams"%string, MHParams (MetaData.episode_hparams self));
            ("classes_split"%string, MJson (MetaData.classes_split self));
            ("save"%string, MMethod "save");
            ("load"%string, MMethod "load") ]
      with
      | Some a => Ok a
      | None => Raise AttributeError
      end
  end.

(** [list(d.keys())] of an attribute *)
Definition attribute_keys (a : metadata_attribute) : result (list string) :=
  match a with
  | MJson (JObj fields) => Ok (map fst fields)
  | _ => Raise AttributeError
  end.

Module DMLBaseline.

Section Construction.

(** Lightning's [__init__] and [save_hyperparameters], the [model] entry
    of the saved hyperparameters, hydra's [instantiate] of the network on
    its keyword arguments, and the constructors of the metrics, by their
    name, on the number of classes and the reduction. *)
Context {hparams cfg network metric : Type}.
Variable super___init__ : result unit.
Variable save_hyperparameters : result hparams.
Variable hparams_model : hparams -> result cfg.
Variable instantiate :
  cfg -> cfg -> metadata_attribute -> metadata_attribute ->
  metadata_attribute -> result network.
Variable Metric : string -> metadata_attribute -> string -> result metric.

Record t : Type := mk {
  hparams_of : hparams;
  metadata : option MetaData.t;
  classes : list string;
  model_of : network;
  val_metrics : list (string * metric);
  test_metrics : list (string * metric)
}.

Definition reductions : list string := ["micro"; "weighted"; "macro"; "none"]%string.
Definition metric_names : list string := ["F1"; "acc"]%string.

(** One dictionary of metrics: a metric for every reduction and name. *)
Definition metrics_dict (split : string) (metadata : option MetaData.t)
    : result (list (string * metric)) :=
  items ←
    mapM (fun rm =>
            let reduction := fst rm in
            let metric_name := snd rm in
            num_classes ← MetaData_getattr metadata "num_classes";
            m ← Metric metric_name num_classes reduction;
            Ok (split +:+ "/" +:+ metric_name +:+ "/" +:+ reduction, m))
         (list_prod reductions metric_names);
  Ok (dict_of_items items).

Definition __init__ (metadata : option MetaData.t) : result t :=
  _ ← super___init__;
  hparams ← save_hyperparameters;
  classes_to_label_dict ← MetaData_getattr metadata "classes_to_label_dict";
  classes ← attribute_keys classes_to_label_dict;
  target ← hparams_model hparams;
  cfg ← hparams_model hparams;
  feature_dim ← MetaData_getattr metadata "feature_dim";
  num_classes ← MetaData_getattr metadata "num_classes";
  num_classes_per_episode ← MetaData_getattr metadata "num_classes_per_episode";
  model ← instantiate target cfg feature_dim num_classes num_classes_per_episode;
  val_metrics ← metrics_dict "val" metadata;
  test_metrics ← metrics_dict "test" metadata;
  Ok (mk hparams metadata classes model val_metrics test_metrics).

End Construction.

(** [map_pred_labels_to_global], on the entries of the tensors. *)
Definition map_pred_labels_to_global (pred_labels batch_global_labels : list Z)
    (num_episodes : nat) : result (list Z) :=
  global_labels_per_episode ← reshape_first batch_global_labels num_episodes;
  pred_labels ← reshape_first pred_labels num_episodes;
  mapped_labels ←
    mapM (fun episode_num =>
            episode_global_labels ← index global_labels_per_episode episode_num;
            episode_pred_labels ← index pred_labels episode_num;
            tensor_gather episode_global_labels episode_pred_labels)
         (seq 0 num_episodes);
  mapped_labels ← torch_cat mapped_labels;
  Ok (values mapped_labels).

Section Steps.

(** The similarity scores and the loss, the network with its loss
    function, [torch.argmax] on a row of scores, Lightning's [log_dict] on
    one named value, and the metrics and their logging, kept by the name of
    their split. *)
Context {score loss : Type}.
Variable model : EpisodeBatch.t -> result (list score).
Variable loss_func : list score -> Tensor (list Z) -> result loss.
Variable argmax_scores : list score -> Z.
Variable log_dict : string -> loss -> result unit.
Variable update_metrics : string -> list Z -> list Z -> result unit.
Variable log_metrics : string -> result unit.

Definition forward (batch : EpisodeBatch.t) : result (list score) :=
  model batch.

Definition step (batch : EpisodeBatch.t) (split : string)
    : result (list score * loss) :=
  similarities ← forward batch;
  loss ← loss_func similarities (EpisodeBatch.cosine_targets batch);
  _ ← log_dict ("loss/" +:+ split) loss;
  Ok (similarities, loss).

Definition training_step (batch : EpisodeBatch.t) : result (list score * loss) :=
  step batch "train".

Definition validation_step (batch : EpisodeBatch.t) : result (list score * loss) :=
  step_out ← step batch "val";
  let similarities := fst step_out in
  let num_classes_per_episode :=
    num_classes_per_episode (EpisodeBatch.episode_hparams batch) in
  similarities_per_label ← reshape_scores similarities num_classes_per_episode;
  let pred_labels := map argmax_scores similarities_per_label in
  global_labels ← EpisodeBatch_getattr batch "global_labels";
  global_labels ← match global_labels with
                  | ATensor t => Ok (values t)
                  | _ => Raise AttributeError
                  end;
  pred_global_labels ←
    map_pred_labels_to_global pred_labels global_labels
      (EpisodeBatch.num_episodes batch);
  _ ← update_metrics "val" pred_global_labels
        (map y (data_list (EpisodeBatch.queries batch)));
  _ ← log_metrics "val";
  Ok step_out.

Definition test_step (batch : EpisodeBatch.t) : result (list score * loss) :=
  step_out ← step batch "test";
  let similarities := fst step_out in
  let num_classes_per_episode :=
    num_classes_per_episode (EpisodeBatch.episode_hparams batch) in
  reshaped_similarities ← reshape_scores similarities num_classes_per_episode;
  let pred_labels := map argmax_scores reshaped_similarities in
  global_labels ← EpisodeBatch_getattr batch "global_labels";
  global_labels ← match global_labels with
                  | ATensor t => Ok (values t)
                  | _ => Raise AttributeError
                  end;
  pred_global_labels ←
    map_pred_labels_to_global pred_labels global_labels
      (EpisodeBatch.num_episodes batch);
  _ ← update_metrics "test" pred_global_labels
        (map y (data_list (EpisodeBatch.queries batch)));
  _ ← log_metrics "test";
  Ok step_out.

End Steps.

End DMLBaseline.

(** * Vocabulary of the properties *)

(** ** Collation *)

(** The signed targets of one episode: one row per query, one entry per
    chosen label. *)
Definition episode_cosine_rows (episode : Episode.t) : list (list Z) :=
  map (fun query => map (cosine_target query) (Episode.labels episode))
      (Episode.queries episode).

Definition cosine_values (episode_list : list Episode.t) : list Z :=
  concat (map (fun episode => concat (episode_cosine_rows episode)) episode_list).

Definition assignment_rows (block : nat) (batch_size : nat) : list (list Z) :=
  map (fun i => replicate block (Z.of_nat i)) (seq 0 batch_size).

(** Every episode has [N*Q] queries and [N] labels. *)
Definition exact_queries (hp : EpisodeHParams) (episode : Episode.t) : Prop :=
  length (Episode.queries episode)
    = num_classes_per_episode hp * num_queries_per_class hp /\
  length (Episode.labels episode) = num_classes_per_episode hp.

(** Length [B*N*Q*N], episode-major, then query-major, then class-minor,
    with [+1] exactly where the query's label is the candidate label. *)
Definition cosine_targets_layout (el : list Episode.t) (hp : EpisodeHParams)
    (b : EpisodeBatch.t) : Prop :=
  let B := length el in
  let N := num_classes_per_episode hp in
  let Q := num_queries_per_class hp in
  length (values (EpisodeBatch.cosine_targets b)) = B * N * Q * N /\
  forall e q c episode query label,
    el !! e = Some episode ->
    Episode.queries episode !! q = Some query ->
    Episode.labels episode !! c = Some label ->
    values (EpisodeBatch.cosine_targets b) !! (e * (N * Q * N) + q * N + c)
      = Some (if decide (y query = label) then 1%Z else (-1)%Z).

(** All rows of a batch, one per query, in collation order. *)
Definition cosine_rows (el : list Episode.t) : list (list Z) :=
  flat_map episode_cosine_rows el.

Definition distinct_labels (hp : EpisodeHParams) (episode : Episode.t) : Prop :=
  NoDup (Episode.labels episode) /\
  length (Episode.labels episode) = num_classes_per_episode hp.

Definition queries_among_labels (episode : Episode.t) : Prop :=
  Forall (fun query => y query ∈ Episode.labels episode)
         (Episode.queries episode).

Definition one_hot_row (n : nat) (row : list Z) : Prop :=
  count_occ Z.eq_dec row 1%Z = 1 /\ count_occ Z.eq_dec row (-1)%Z = n - 1.

(** Reshaping to rows of width N, taking the argmax of each row and
    counting the entries of each row. *)
Definition targets_roundtrip (el : list Episode.t) (hp : EpisodeHParams)
    (b : EpisodeBatch.t) : Prop :=
  let N := num_classes_per_episode hp in
  let Q := num_queries_per_class hp in
  exists rws,
    reshape (values (EpisodeBatch.cosine_targets b)) N = Ok rws /\
    length rws = length (data_list (EpisodeBatch.queries b)) /\
    (Forall (fun episode => length (Episode.queries episode) = N * Q) el ->
     length rws = length el * N * Q) /\
    map (fun row => Z.of_nat (argmax row)) rws
      = values (EpisodeBatch.label_targets b) /\
    Forall (one_hot_row N) rws.

(** The invariant of an episode in the data model of the specification. *)
Definition well_formed (hp : EpisodeHParams) (episode : Episode.t) : Prop :=
  length (Episode.supports episode)
    = num_classes_per_episode hp * num_supports_per_class hp /\
  length (Episode.queries episode)
    = num_classes_per_episode hp * num_queries_per_class hp /\
  length (Episode.labels episode) = num_classes_per_episode hp /\
  NoDup (Episode.labels episode).

(** The single-episode batches of a list, built one at a time. *)
Definition collate_each (Batch_len : Batch -> nat) (hp : EpisodeHParams)
    (el : list Episode.t) : result (list EpisodeBatch.t) :=
  mapM (fun episode => EpisodeBatch.from_episode_list Batch_len [episode] hp) el.

(** [torch.cat] of one field over a list of batches. *)
Definition cat_field (field : EpisodeBatch.t -> Tensor (list Z))
    (bs : list EpisodeBatch.t) : list Z :=
  concat (map (fun b => values (field b)) bs).

(** The single-episode batches exist and their fields, concatenated in
    episode order, are the fields of the batch of the whole list. *)
Definition collated_alike (Batch_len : Batch -> nat) (el : list Episode.t)
    (hp : EpisodeHParams) (b : EpisodeBatch.t) : Prop :=
  exists bs,
    collate_each Batch_len hp el = Ok bs /\
    length bs = length el /\
    values (EpisodeBatch.supports_len b) = cat_field EpisodeBatch.supports_len bs /\
    values (EpisodeBatch.queries_len b) = cat_field EpisodeBatch.queries_len bs /\
    values (EpisodeBatch.cosine_targets b)
      = cat_field EpisodeBatch.cosine_targets bs /\
    values (EpisodeBatch.label_targets b)
      = cat_field EpisodeBatch.label_targets bs.

Definition exact_lengths (hp : EpisodeHParams) (episode : Episode.t) : Prop :=
  length (Episode.supports episode)
    = num_classes_per_episode hp * num_supports_per_class hp /\
  length (Episode.queries episode)
    = num_classes_per_episode hp * num_queries_per_class hp.

(** [B] rows of [n] entries, the b-th row all [b]; read row after row this
    is a sequence of [B*n] episode indices in [B] constant blocks. *)
Definition constant_blocks (B n : nat) (t : list (list Z)) : Prop :=
  length t = B /\
  (forall b, b < B -> t !! b = Some (replicate n (Z.of_nat b))) /\
  length (concat t) = B * n /\
  (forall b j, b < B -> j < n -> concat t !! (b * n + j) = Some (Z.of_nat b)).

(** The layout of C7 for a batch. *)
Definition assignment_layout (el : list Episode.t) (hp : EpisodeHParams)
    (b : EpisodeBatch.t) : Prop :=
  let B := length el in
  let N := num_classes_per_episode hp in
  let K := num_supports_per_class hp in
  let Q := num_queries_per_class hp in
  exists support queries,
    dict_get "support"%string (EpisodeBatch.assignment_vectors b) = Some support /\
    dict_get "queries"%string (EpisodeBatch.assignment_vectors b) = Some queries /\
    constant_blocks B (N * K) (values support) /\
    length (concat (values support)) = B * N * K /\
    constant_blocks B (N * Q) (values queries) /\
    length (concat (values queries)) = B * N * Q /\
    (Forall (exact_lengths hp) el ->
     forall e episode,
       el !! e = Some episode ->
       (forall j g, Episode.supports episode !! j = Some g ->
          data_list (EpisodeBatch.supports b) !! (e * (N * K) + j) = Some g /\
          concat (values support) !! (e * (N * K) + j) = Some (Z.of_nat e)) /\
       (forall j g, Episode.queries episode !! j = Some g ->
          data_list (EpisodeBatch.queries b) !! (e * (N * Q) + j) = Some g /\
          concat (values queries) !! (e * (N * Q) + j) = Some (Z.of_nat e))).

(** ** Splits and local labels *)

Definition of_label (h : heap) (label : Z) (samples : list loc) : list loc :=
  filter (fun sample => y (h sample) = label) samples.

(** The support and query candidates of every class are disjoint, cover
    the class, and the supports are the ceiling of the ratio of the class. *)
Definition per_class_split (h : heap) (ratio : Q)
    (pool supports queries : list loc) : Prop :=
  forall label,
    of_label h label supports ++ of_label h label queries
      ≡ₚ of_label h label pool /\
    ceil_ratio ratio (length (of_label h label pool))
      = Ok (Z.of_nat (length (of_label h label supports))).

(** Ratios and lengths in the range where the float product is finite and
    the length is exact as a float. *)
Definition float_range (ratio : Q) (n : nat) : Prop :=
  (0 <= ratio)%Q /\ (ratio <= pow2 900)%Q /\ (Z.of_nat n < 2 ^ 53)%Z.

(** The split of the whole list: what is returned, and how supports and
    queries relate to the list and to the classes in it. *)
Definition whole_pool_split {dataset : Type}
    (shuffle : list nat -> list nat)
    (load_idxs : string -> result (list nat * list nat))
    (self : GraphFewShotDataModule.t dataset) (data_list : list loc)
    (h : heap) : Prop :=
  let n := length data_list in
  let ratio := GraphFewShotDataModule.support_ratio self in
  let split :=
    GraphFewShotDataModule.split_query_support shuffle load_idxs self data_list in
  (forall bound,
     ceil_ratio ratio n = Ok bound ->
     exists supports queries,
       split = Ok (SplitSamples supports queries) /\
       supports ++ queries ≡ₚ data_list /\
       ((0 <= bound)%Z -> length supports = Nat.min (Z.to_nat bound) n) /\
       (NoDup data_list -> NoDup (supports ++ queries)) /\
       (forall label,
          of_label h label supports ++ of_label h label queries
            ≡ₚ of_label h label data_list)) /\
  (forall e, ceil_ratio ratio n = Raise e -> split = Raise e) /\
  (float_range ratio n ->
   exists bound, ceil_ratio ratio n = Ok bound /\ (0 <= bound)%Z).

Definition local_label (m : gmap Z nat) (x : Z) : result Z :=
  match m !! x with
  | Some ind => Ok (Z.of_nat ind)
  | None => Raise KeyError
  end.

(** What one call of [convert_to_local_labels] does. *)
Definition relabelled (stage_labels : list Z) (samples : list loc)
    (h : heap) (m : gmap Z nat) (h' : heap) : Prop :=
  (forall i label, sorted stage_labels !! i = Some label <-> m !! label = Some i) /\
  (forall label i, m !! label = Some i -> i < length stage_labels) /\
  (forall s, s ∈ samples ->
     exists ind, m !! y (h s) = Some ind /\ y (h' s) = Z.of_nat ind /\
                 num_nodes (h' s) = num_nodes (h s)) /\
  (forall s, s ∉ samples -> h' s = h s).

(** The graphs of the buckets whose label is in a label set. *)
Definition stage_pool {dataset : Type} (self : GraphFewShotDataModule.t dataset)
    (stage_labels : list Z) : list loc :=
  flatten (map snd (filter (fun kv => fst kv ∈ stage_labels)
                           (GraphFewShotDataModule.data_list_by_label self))).

(** The state the constructor leaves: disjoint duplicate-free base and
    novel labels, and buckets of distinct graphs keyed by their label. *)
Definition pool_invariant {dataset : Type}
    (self : GraphFewShotDataModule.t dataset) (h : heap) : Prop :=
  GraphFewShotDataModule.labels_split self
    = [ ("base"%string, GraphFewShotDataModule.base_labels self);
        ("novel"%string, GraphFewShotDataModule.novel_labels self) ] /\
  NoDup (GraphFewShotDataModule.base_labels self) /\
  NoDup (GraphFewShotDataModule.novel_labels self) /\
  (forall label, label ∈ GraphFewShotDataModule.base_labels self ->
                 label ∉ GraphFewShotDataModule.novel_labels self) /\
  NoDup (concat (map snd (GraphFewShotDataModule.data_list_by_label self))) /\
  (forall k ss s, (k, ss) ∈ GraphFewShotDataModule.data_list_by_label self ->
                  s ∈ ss -> y (h s) = k).

(** What [setup] of the transfer datamodule does to the labels before it
    builds the dataset that samples the novel episodes. *)
Definition relabelled_before_sampling {dataset : Type}
    (MapEpisodicDataset :
       list loc -> Z -> list Z -> list (string * Z) -> EpisodeHParams ->
       bool -> heap -> result dataset)
    (self self' : GraphFewShotDataModule.t dataset) (h h' : heap) : Prop :=
  let base_labels := GraphFewShotDataModule.base_labels self in
  let novel_labels := GraphFewShotDataModule.novel_labels self in
  let base_samples := stage_pool self base_labels in
  let novel_samples := stage_pool self novel_labels in
  exists m_base h1 m_novel test_dataset,
    GraphTransferDataModule.convert_to_local_labels self base_samples "base" h
      = Ok (m_base, h1) /\
    relabelled base_labels base_samples h m_base h1 /\
    (forall s, s ∈ novel_samples -> h1 s = h s) /\
    GraphTransferDataModule.convert_to_local_labels self novel_samples "novel" h1
      = Ok (m_novel, h') /\
    relabelled novel_labels novel_samples h1 m_novel h' /\
    (forall s, s ∈ base_samples -> h' s = h1 s) /\
    MapEpisodicDataset novel_samples
      (GraphFewShotDataModule.num_test_episodes self)
      (map Z.of_nat (seq 0 (length novel_labels)))
      (GraphFewShotDataModule.class_to_label_dict self)
      (GraphFewShotDataModule.episode_hparams self) false h'
      = Ok test_dataset /\
    GraphFewShotDataModule.test_datasets self' = Some [test_dataset].

(** ** Labels, positions and counts *)

(** The labels a dictionary gives to the classes it knows. *)
Definition labels_of (class_to_label_dict : list (string * Z))
    (classes : list string) : list Z :=
  omap (fun c => dict_get c class_to_label_dict) classes.

(** Position of the first occurrence of a label. *)
Fixpoint position (x : Z) (l : list Z) : option nat :=
  match l with
  | [] => None
  | a :: l' => if decide (a = x) then Some 0 else S <$> position x l'
  end.

(** The number of (query, label) pairs of a list of episodes. *)
Definition num_pairs (el : list Episode.t) : nat :=
  foldr (fun episode acc =>
           length (Episode.queries episode) * length (Episode.labels episode)
           + acc) 0 el.

Definition sum_Z (l : list Z) : Z := foldr Z.add 0%Z l.

(** * Example inputs *)

(** One reading of [len(batch)]: the number of graphs. *)
Definition num_graphs (b : Batch) : nat := length (data_list b).

Definition graph (label : Z) : Data := mkData 3 label.

Definition two_way_one_shot : EpisodeHParams := mkEpisodeHParams 2 1 1.

Definition episode_a : Episode.t :=
  Episode.mk [graph 5; graph 7] [graph 7; graph 5] [5; 7]%Z two_way_one_shot.

Definition episode_b : Episode.t :=
  Episode.mk [graph 1; graph 2] [graph 1; graph 2] [1; 2]%Z two_way_one_shot.

(** One query where two are expected. *)
Definition short_episode : Episode.t :=
  Episode.mk [graph 5; graph 7] [graph 7] [5; 7]%Z two_way_one_shot.

(** Three supports where two are expected. *)
Definition long_episode : Episode.t :=
  Episode.mk [graph 5; graph 7; graph 7] [graph 7; graph 5] [5; 7]%Z
             two_way_one_shot.

(** Seven graphs of five classes, three of them base and two novel. *)
Definition example_heap : heap :=
  fun s => mkData 1 (nth s [2; 2; 5; 10; 3; 7; 7]%Z 0%Z).

Definition example_datamodule (dataset : Type) : GraphFewShotDataModule.t dataset :=
  GraphFewShotDataModule.mk "toy" "data" (Some "split.json"%string) None
    two_way_one_shot 4%Z 4%Z (1 # 2)%Q true None None None
    (JObj [ ("base"%string, JList [JStr "a"; JStr "b"; JStr "c"]);
            ("novel"%string, JList [JStr "d"; JStr "e"]) ])
    ["a"; "b"; "c"]%string ["d"; "e"]%string [0; 1; 2; 3; 4; 5; 6]
    [ ("a", 2); ("b", 5); ("c", 10); ("d", 3); ("e", 7) ]%string%Z
    [ ("base"%string, [2; 5; 10]%Z); ("novel"%string, [3; 7]%Z) ]
    [2; 5; 10]%Z [3; 7]%Z
    [ (2%Z, [0; 1]); (5%Z, [2]); (10%Z, [3]); (3%Z, [4]); (7%Z, [5; 6]) ]
    (1 # 2)%Q.


(** Datasets that keep the labels their samples have when they are built. *)
Definition labels_at_construction (samples : list loc) (h : heap)
    : result (list Z) :=
  Ok (map (fun s => y (h s)) samples).

Definition example_MapEpisodicDataset (samples : list loc) (n_episodes : Z)
    (stage_labels : list Z) (class_to_label_dict : list (string * Z))
    (episode_hparams : EpisodeHParams) (separated_query_support : bool)
    (h : heap) : result (list Z) :=
  labels_at_construction samples h.

(** A query of class 9 in an episode on the classes 5 and 7. *)
Definition foreign_episode : Episode.t :=
  Episode.mk [graph 5; graph 7] [graph 9; graph 5] [5; 7]%Z two_way_one_shot.

(** The files, the loader and the arguments that construct the example
    datamodule. *)
Definition example_files : file_system :=
  {[ "split.json"%string :=
       JObj [ ("base"%string, JList [JStr "a"; JStr "b"; JStr "c"]);
              ("novel"%string, JList [JStr "d"; JStr "e"]) ] ]}.

Definition example_load_data (data_dir dataset_name : string)
    : result (list loc * list (string * Z)) :=
  Ok ([0; 1; 2; 3; 4; 5; 6],
      [ ("a", 2); ("b", 5); ("c", 10); ("d", 3); ("e", 7) ]%string%Z).

Definition example_split_config : GraphFewShotDataModule.config :=
  GraphFewShotDataModule.mkConfig "toy" "data" (Some "split.json"%string) None
    true (1 # 2)%Q two_way_one_shot 4%Z 4%Z (1 # 2)%Q.

(** The example datamodule with another support ratio. *)
Definition example_datamodule_with_ratio (dataset : Type) (support_ratio : Q)
    : GraphFewShotDataModule.t dataset :=
  GraphFewShotDataModule.mk "toy" "data" (Some "split.json"%string) None
    two_way_one_shot 4%Z 4%Z support_ratio true None None None
    (JObj [ ("base"%string, JList [JStr "a"; JStr "b"; JStr "c"]);
            ("novel"%string, JList [JStr "d"; JStr "e"]) ])
    ["a"; "b"; "c"]%string ["d"; "e"]%string [0; 1; 2; 3; 4; 5; 6]
    [ ("a", 2); ("b", 5); ("c", 10); ("d", 3); ("e", 7) ]%string%Z
    [ ("base"%string, [2; 5; 10]%Z); ("novel"%string, [3; 7]%Z) ]
    [2; 5; 10]%Z [3; 7]%Z
    [ (2%Z, [0; 1]); (5%Z, [2]); (10%Z, [3]); (3%Z, [4]); (7%Z, [5; 6]) ]
    (1 # 2)%Q.

(** A metadata file. *)
Definition example_metadata_files : file_system :=
  {[ "meta/data.json"%string :=
       JObj [ ("classes_to_label_dict"%string,
               JObj [ ("a"%string, JInt 0); ("b"%string, JInt 1) ]);
              ("feature_dim"%string, JInt 3);
              ("episode_hparams"%string,
               JObj [ ("num_classes_per_episode"%string, JInt 2);
                      ("num_supports_per_class"%string, JInt 1);
                      ("num_queries_per_class"%string, JInt 1) ]);
              ("classes_split"%string,
               JObj [ ("base"%string, JList [JStr "a"]);
                      ("novel"%string, JList [JStr "b"]) ]) ] ]}.

(** The metadata of a datamodule with two classes. *)
Definition example_metadata : MetaData.t :=
  MetaData.mk (JObj [ ("a"%string, JInt 0); ("b"%string, JInt 1) ]) (JInt 3) 2
    two_way_one_shot
    (JObj [ ("base"%string, JList [JStr "a"]);
            ("novel"%string, JList [JStr "b"]) ]).

(** * Properties *)

Section CollateFacts.

Variable Batch_len : Batch -> nat.

Abbreviation from_episode_list := (EpisodeBatch.from_episode_list Batch_len).

Lemma bind_Ok {A B} (c : result A) (k : A -> result B) (b : B) :
  c ≫= k = Ok b -> exists a, c = Ok a /\ k a = Ok b.
Proof. destruct c as [a|e]; simpl; [eauto | discriminate]. Qed.

Lemma Batch_from_data_list_Ok (l : list Data) (b : Batch) :
  Batch_from_data_list l = Ok b -> l <> [] /\ b = mkBatch l cpu.
Proof. destruct l; simpl; [discriminate|]. intros [= <-]. done. Qed.

Lemma torch_cat_Ok (ts : list (list Z)) (t : Tensor (list Z)) :
  torch_cat ts = Ok t -> ts <> [] /\ t = torch_tensor (concat ts).
Proof. destruct ts; simpl; [discriminate|]. intros [= <-]. done. Qed.

Lemma concat_singletons {A B} (f : A -> B) (l : list A) :
  concat (map (fun x => [f x]) l) = map f l.
Proof. induction l as [|x l IH]; simpl; congruence. Qed.

Lemma product_targets_concat (qs : list Data) (ls : list Z) :
  concat (map (fun ql : Data * Z => [cosine_target (fst ql) (snd ql)])
              (list_prod qs ls))
  = concat (map (fun query => map (cosine_target query) ls) qs).
Proof.
  induction qs as [|query qs IH]; simpl; [reflexivity|].
  rewrite map_app, concat_app, IH. f_equal.
  rewrite map_map. simpl. apply concat_singletons.
Qed.

Lemma cat_targets_cosine_values (el : list Episode.t) :
  concat
    (flat_map
       (fun episode =>
          map (fun ql : Data * Z => [cosine_target (fst ql) (snd ql)])
              (list_prod (Episode.queries episode) (Episode.labels episode)))
       el)
  = cosine_values el.
Proof.
  unfold cosine_values, episode_cosine_rows.
  induction el as [|episode el IH]; simpl; [reflexivity|].
  now rewrite concat_app, IH, product_targets_concat.
Qed.

(** Everything a returned batch holds, field by field. *)
Lemma from_episode_list_Ok (el : list Episode.t) (hp : EpisodeHParams)
    (b : EpisodeBatch.t) :
  from_episode_list el hp = Ok b ->
  flat_map Episode.supports el <> [] /\
  flat_map Episode.queries el <> [] /\
  num_supports_per_class hp * num_classes_per_episode hp <> 0 /\
  EpisodeBatch.supports b = mkBatch (flat_map Episode.supports el) cpu /\
  EpisodeBatch.queries b = mkBatch (flat_map Episode.queries el) cpu /\
  EpisodeBatch.labels b = torch_tensor (flat_map Episode.labels el) /\
  EpisodeBatch.episode_hparams b = hp /\
  EpisodeBatch.assignment_vectors b =
    [ ("support"%string,
       torch_tensor
         (assignment_rows
            (num_supports_per_class hp * num_classes_per_episode hp)
            (length el)));
      ("queries"%string,
       torch_tensor
         (assignment_rows
            (num_queries_per_class hp * num_classes_per_episode hp)
            (length el))) ] /\
  EpisodeBatch.supports_len b =
    torch_tensor (map (fun e => sum_num_nodes (Episode.supports e)) el) /\
  EpisodeBatch.queries_len b =
    torch_tensor (map (fun e => sum_num_nodes (Episode.queries e)) el) /\
  EpisodeBatch.num_episodes b = length el /\
  EpisodeBatch.cosine_targets b = torch_tensor (cosine_values el) /\
  exists rws,
    reshape (cosine_values el) (num_classes_per_episode hp) = Ok rws /\
    EpisodeBatch.label_targets b =
      torch_tensor (map (fun row => Z.of_nat (argmax row)) rws).
Proof.
  unfold EpisodeBatch.from_episode_list. intros H.
  apply bind_Ok in H as (sb & Hs & H). apply Batch_from_data_list_Ok in Hs as [Hs ->].
  apply bind_Ok in H as (qb & Hq & H). apply Batch_from_data_list_Ok in Hq as [Hq ->].
  apply bind_Ok in H as (ct & Hc & H). apply torch_cat_Ok in Hc as [_ ->].
  rewrite cat_targets_cosine_values in H.
  apply bind_Ok in H as (rws & Hr & H). simpl in Hr.
  unfold EpisodeBatch.__init__ in H. case_decide; [discriminate|].
  injection H as <-. simpl. repeat split; try done. eauto.
Qed.

End CollateFacts.

Lemma length_concat_uniform {A} (n : nat) (bs : list (list A)) :
  Forall (fun b => length b = n) bs -> length (concat bs) = length bs * n.
Proof.
  induction 1 as [|b bs Hb _ IH]; simpl; [reflexivity|].
  rewrite length_app, IH, Hb. reflexivity.
Qed.

Lemma lookup_concat_uniform {A} (n : nat) (bs : list (list A)) (i j : nat)
    (b : list A) (x : A) :
  Forall (fun b => length b = n) bs ->
  bs !! i = Some b -> b !! j = Some x -> concat bs !! (i * n + j) = Some x.
Proof.
  intros Hn. revert i. induction Hn as [|b0 bs Hb0 _ IH]; intros i Hi Hj.
  - discriminate.
  - destruct i as [|i]; simpl in *.
    + injection Hi as ->. now apply lookup_app_l_Some.
    + rewrite lookup_app_r by lia.
      replace (n + i * n + j - length b0) with (i * n + j) by lia.
      now apply IH.
Qed.

Lemma cosine_target_cases (query : Data) (label : Z) :
  cosine_target query label = if decide (y query = label) then 1%Z else (-1)%Z.
Proof.
  unfold cosine_target. case_decide as H.
  - apply Z.eqb_eq in H. now rewrite H.
  - apply Z.eqb_neq in H. now rewrite H.
Qed.

Lemma episode_cosine_rows_uniform (episode : Episode.t) :
  Forall (fun row => length row = length (Episode.labels episode))
         (episode_cosine_rows episode).
Proof.
  unfold episode_cosine_rows. apply Forall_forall. intros row Hin.
  apply list_elem_of_In in Hin. apply in_map_iff in Hin as (query & <- & _).
  apply length_map.
Qed.

Lemma cosine_blocks_uniform (hp : EpisodeHParams) (el : list Episode.t) :
  Forall (exact_queries hp) el ->
  Forall (fun block => length block
            = num_classes_per_episode hp * num_queries_per_class hp
              * num_classes_per_episode hp)
         (map (fun episode => concat (episode_cosine_rows episode)) el).
Proof.
  intros H. apply Forall_map. eapply Forall_impl; [exact H|].
  intros episode [Hq Hl]. simpl.
  rewrite (length_concat_uniform _ _ (episode_cosine_rows_uniform episode)).
  unfold episode_cosine_rows. now rewrite length_map, Hq, Hl.
Qed.

(** C1, as amended: for a non-empty list of episodes that each have exactly
    N*Q queries and N labels, the [cosine_targets] of the returned batch has
    length B*N*Q*N and is ordered episode-major, then query-major, then
    class-minor; the entry of (episode e, query q, candidate class c) is +1
    if the label of q is the c-th chosen label of e and -1 otherwise. *)
Theorem cosine_targets_order (Batch_len : Batch -> nat)
    (el : list Episode.t) (hp : EpisodeHParams) (b : EpisodeBatch.t) :
  el <> [] ->
  Forall (exact_queries hp) el ->
  EpisodeBatch.from_episode_list Batch_len el hp = Ok b ->
  cosine_targets_layout el hp b.
Proof.
  intros _ Hwf Hb.
  apply from_episode_list_Ok in Hb
    as (_ & _ & _ & _ & _ & _ & _ & _ & _ & _ & _ & Hct & _).
  pose proof (cosine_blocks_uniform hp el Hwf) as Hblocks.
  unfold cosine_targets_layout. rewrite Hct. unfold cosine_values. simpl. split.
  - rewrite (length_concat_uniform _ _ Hblocks), length_map. lia.
  - intros e q c episode query label He Hq Hc.
    rewrite <- Nat.add_assoc.
    eapply lookup_concat_uniform; [exact Hblocks| |].
    + rewrite list_lookup_fmap, He. reflexivity.
    + rewrite Forall_forall in Hwf.
      destruct (Hwf episode) as [_ Hl].
      { apply list_elem_of_lookup. eauto. }
      rewrite <- Hl.
      eapply lookup_concat_uniform; [apply episode_cosine_rows_uniform| |].
      * unfold episode_cosine_rows. rewrite list_lookup_fmap, Hq. reflexivity.
      * rewrite list_lookup_fmap, Hc. simpl. now rewrite cosine_target_cases.
Qed.

Lemma rows_concat (n : nat) (rs : list (list Z)) :
  Forall (fun r => length r = n) rs -> rows n (length rs) (concat rs) = rs.
Proof.
  induction 1 as [|r rs Hr _ IH]; simpl; [reflexivity|].
  rewrite take_app_length' by (symmetry; exact Hr).
  rewrite drop_app_length' by (symmetry; exact Hr).
  now rewrite IH.
Qed.

Lemma reshape_concat (n : nat) (rs : list (list Z)) :
  n <> 0 -> Forall (fun r => length r = n) rs -> reshape (concat rs) n = Ok rs.
Proof.
  intros Hn Hrs. unfold reshape.
  rewrite (length_concat_uniform _ _ Hrs).
  rewrite decide_False by exact Hn.
  rewrite decide_True by (apply Nat.Div0.mod_mul).
  rewrite Nat.div_mul by exact Hn.
  now rewrite rows_concat.
Qed.

Lemma reshape_Ok_width (l : list Z) (n : nat) (rs : list (list Z)) :
  reshape l n = Ok rs -> n <> 0.
Proof. unfold reshape. case_decide; [discriminate | done]. Qed.

Lemma cosine_values_rows (el : list Episode.t) :
  cosine_values el = concat (cosine_rows el).
Proof.
  unfold cosine_values, cosine_rows.
  induction el as [|episode el IH]; simpl; [reflexivity|].
  now rewrite concat_app, IH.
Qed.

Lemma cosine_rows_app (el1 el2 : list Episode.t) :
  cosine_rows (el1 ++ el2) = cosine_rows el1 ++ cosine_rows el2.
Proof. unfold cosine_rows. apply flat_map_app. Qed.

Lemma length_cosine_rows (el : list Episode.t) :
  length (cosine_rows el) = length (flat_map Episode.queries el).
Proof.
  unfold cosine_rows, episode_cosine_rows.
  induction el as [|episode el IH]; simpl; [reflexivity|].
  now rewrite !length_app, length_map, IH.
Qed.

Lemma cosine_rows_uniform (n : nat) (el : list Episode.t) :
  Forall (fun episode => length (Episode.labels episode) = n) el ->
  Forall (fun row => length row = n) (cosine_rows el).
Proof.
  unfold cosine_rows.
  induction 1 as [|episode el He _ IH]; simpl; [constructor|].
  apply Forall_app. split; [|exact IH].
  rewrite <- He. apply episode_cosine_rows_uniform.
Qed.

Lemma length_flat_map_uniform {A B} (f : A -> list B) (n : nat) (l : list A) :
  Forall (fun a => length (f a) = n) l -> length (flat_map f l) = length l * n.
Proof.
  induction 1 as [|a l Ha _ IH]; simpl; [reflexivity|].
  now rewrite length_app, Ha, IH.
Qed.

(** One row against distinct candidate labels. *)
Lemma count_no_hit (x : Z) (ls : list Z) :
  x ∉ ls ->
  count_occ Z.eq_dec (map (fun l => if decide (x = l) then 1%Z else (-1)%Z) ls) 1%Z = 0.
Proof.
  induction ls as [|l ls IH]; simpl; intros Hx; [reflexivity|].
  apply not_elem_of_cons in Hx as [Hne Hx].
  rewrite decide_False by exact Hne.
  destruct (Z.eq_dec _ _) as [?|_]; [lia|]. now apply IH.
Qed.

Lemma count_hit (x : Z) (ls : list Z) :
  NoDup ls -> x ∈ ls ->
  count_occ Z.eq_dec (map (fun l => if decide (x = l) then 1%Z else (-1)%Z) ls) 1%Z = 1.
Proof.
  induction 1 as [|l ls Hl Hnd IH]; intros Hin; [now apply elem_of_nil in Hin|].
  simpl. apply elem_of_cons in Hin as [->|Hin].
  - rewrite decide_True by reflexivity.
    destruct (Z.eq_dec _ _) as [_|?]; [|congruence].
    now rewrite count_no_hit.
  - rewrite decide_False by (intros ->; contradiction).
    destruct (Z.eq_dec _ _) as [?|_]; [lia|]. now apply IH.
Qed.

Lemma count_hit_miss (x : Z) (ls : list Z) :
  let row := map (fun l => if decide (x = l) then 1%Z else (-1)%Z) ls in
  count_occ Z.eq_dec row 1%Z + count_occ Z.eq_dec row (-1)%Z = length ls.
Proof.
  simpl. induction ls as [|l ls IH]; simpl; [reflexivity|].
  case_decide; repeat destruct (Z.eq_dec _ _); try lia.
Qed.

Lemma episode_rows_one_hot (hp : EpisodeHParams) (episode : Episode.t) :
  distinct_labels hp episode -> queries_among_labels episode ->
  Forall (one_hot_row (num_classes_per_episode hp)) (episode_cosine_rows episode).
Proof.
  intros [Hnd Hlen] Hq. unfold episode_cosine_rows.
  apply Forall_map. eapply Forall_impl; [exact Hq|].
  intros query Hin. simpl.
  assert (Heq : map (cosine_target query) (Episode.labels episode)
                = map (fun l => if decide (y query = l) then 1%Z else (-1)%Z)
                      (Episode.labels episode)).
  { apply map_ext. intros l. apply cosine_target_cases. }
  rewrite Heq. unfold one_hot_row.
  pose proof (count_hit (y query) _ Hnd Hin) as H1.
  pose proof (count_hit_miss (y query) (Episode.labels episode)) as H2.
  simpl in H2. split; [exact H1 | lia].
Qed.

Lemma cosine_rows_one_hot (hp : EpisodeHParams) (el : list Episode.t) :
  Forall (distinct_labels hp) el -> Forall queries_among_labels el ->
  Forall (one_hot_row (num_classes_per_episode hp)) (cosine_rows el).
Proof.
  unfold cosine_rows.
  induction 1 as [|episode el He _ IH]; intros Hq; simpl; [constructor|].
  apply Forall_cons in Hq as [Hq1 Hq].
  apply Forall_app. split; [now apply episode_rows_one_hot | now apply IH].
Qed.

(** C2, as amended: when every episode has N distinct labels and the label
    of every query is among them, reshaping [cosine_targets] to rows of
    width N gives one row per collated query, B*N*Q rows when every episode
    has N*Q queries, the argmax of the rows is [label_targets], and every
    row holds exactly one +1 and N-1 entries -1. *)
Theorem label_targets_roundtrip (Batch_len : Batch -> nat)
    (el : list Episode.t) (hp : EpisodeHParams) (b : EpisodeBatch.t) :
  Forall (distinct_labels hp) el ->
  Forall queries_among_labels el ->
  EpisodeBatch.from_episode_list Batch_len el hp = Ok b ->
  targets_roundtrip el hp b.
Proof.
  intros Hd Hq Hb. unfold targets_roundtrip.
  set (N := num_classes_per_episode hp). set (Q := num_queries_per_class hp).
  apply from_episode_list_Ok in Hb
    as (_ & _ & _ & _ & Hqb & _ & _ & _ & _ & _ & _ & Hct & rws & Hr & Hlt).
  fold N in Hr.
  assert (Hn : N <> 0) by (eapply reshape_Ok_width; exact Hr).
  assert (Hu : Forall (fun row => length row = N) (cosine_rows el)).
  { apply cosine_rows_uniform. eapply Forall_impl; [exact Hd|]. now intros e [_ ?]. }
  rewrite cosine_values_rows, (reshape_concat N _ Hn Hu) in Hr.
  injection Hr as <-.
  exists (cosine_rows el). rewrite Hct, Hqb, Hlt. simpl.
  rewrite cosine_values_rows. repeat split.
  - now apply reshape_concat.
  - apply length_cosine_rows.
  - intros Hx. rewrite length_cosine_rows.
    rewrite (length_flat_map_uniform _ _ _ Hx). lia.
  - now apply cosine_rows_one_hot.
Qed.

Lemma torch_cat_nonempty (ts : list (list Z)) :
  concat ts <> [] -> torch_cat ts = Ok (torch_tensor (concat ts)).
Proof. destruct ts; simpl; [congruence | reflexivity]. Qed.

Lemma Batch_from_data_list_nonempty (l : list Data) :
  l <> [] -> Batch_from_data_list l = Ok (mkBatch l cpu).
Proof. destruct l; simpl; [congruence | reflexivity]. Qed.

Lemma from_episode_list_returns (Batch_len : Batch -> nat)
    (el : list Episode.t) (hp : EpisodeHParams) :
  flat_map Episode.supports el <> [] ->
  flat_map Episode.queries el <> [] ->
  Forall (fun episode => length (Episode.labels episode)
                         = num_classes_per_episode hp) el ->
  num_classes_per_episode hp <> 0 ->
  num_supports_per_class hp <> 0 ->
  succeeds (EpisodeBatch.from_episode_list Batch_len el hp).
Proof.
  intros Hs Hq Hl Hn Hk. unfold succeeds, EpisodeBatch.from_episode_list.
  rewrite (Batch_from_data_list_nonempty _ Hs). simpl.
  rewrite (Batch_from_data_list_nonempty _ Hq). simpl.
  pose proof (cosine_rows_uniform _ _ Hl) as Hu.
  rewrite torch_cat_nonempty; rewrite cat_targets_cosine_values, cosine_values_rows.
  - simpl. rewrite (reshape_concat _ _ Hn Hu). simpl.
    unfold EpisodeBatch.__init__. rewrite decide_False by lia. eauto.
  - intros Hnil. apply (f_equal length) in Hnil.
    rewrite (length_concat_uniform _ _ Hu), length_cosine_rows in Hnil.
    simpl in Hnil. destruct (flat_map Episode.queries el); [congruence|].
    simpl in Hnil. lia.
Qed.

Lemma flat_map_nonempty_length {A B} (f : A -> list B) (n : nat) (l : list A) :
  Forall (fun a => length (f a) = n) l -> flat_map f l <> [] -> n <> 0.
Proof.
  intros H Hne Hn. apply Hne. apply length_zero_iff_nil.
  rewrite (length_flat_map_uniform _ _ _ H). lia.
Qed.

Lemma flat_map_single {A B} (f : A -> list B) (a : A) : flat_map f [a] = f a.
Proof. simpl. apply app_nil_r. Qed.

Lemma from_episode_list_single (Batch_len : Batch -> nat)
    (hp : EpisodeHParams) (episode : Episode.t) :
  well_formed hp episode ->
  num_classes_per_episode hp <> 0 ->
  num_supports_per_class hp <> 0 ->
  num_queries_per_class hp <> 0 ->
  exists b,
    EpisodeBatch.from_episode_list Batch_len [episode] hp = Ok b /\
    values (EpisodeBatch.supports_len b)
      = [sum_num_nodes (Episode.supports episode)] /\
    values (EpisodeBatch.queries_len b)
      = [sum_num_nodes (Episode.queries episode)] /\
    values (EpisodeBatch.cosine_targets b)
      = concat (episode_cosine_rows episode) /\
    values (EpisodeBatch.label_targets b)
      = map (fun row => Z.of_nat (argmax row)) (episode_cosine_rows episode).
Proof.
  intros (Hs & Hq & Hl & _) Hn Hk Hqn.
  destruct (from_episode_list_returns Batch_len [episode] hp) as [b Hb];
    try assumption.
  - rewrite flat_map_single. intros H. apply (f_equal length) in H.
    simpl in H. lia.
  - rewrite flat_map_single. intros H. apply (f_equal length) in H.
    simpl in H. lia.
  - now constructor.
  - exists b. split; [exact Hb|].
    apply from_episode_list_Ok in Hb
      as (_ & _ & _ & _ & _ & _ & _ & _ & Hsl & Hql & _ & Hct & rws & Hr & Hlt).
    rewrite Hsl, Hql, Hct, Hlt. simpl.
    assert (Hrows : cosine_rows [episode] = episode_cosine_rows episode).
    { unfold cosine_rows. apply flat_map_single. }
    rewrite cosine_values_rows, Hrows in Hr |- *.
    rewrite reshape_concat in Hr.
    + injection Hr as <-. done.
    + exact Hn.
    + rewrite <- Hl. apply episode_cosine_rows_uniform.
Qed.

Lemma collate_each_fields (Batch_len : Batch -> nat) (hp : EpisodeHParams)
    (el : list Episode.t) :
  Forall (well_formed hp) el ->
  num_classes_per_episode hp <> 0 ->
  num_supports_per_class hp <> 0 ->
  num_queries_per_class hp <> 0 ->
  exists bs,
    collate_each Batch_len hp el = Ok bs /\
    cat_field EpisodeBatch.supports_len bs
      = map (fun e => sum_num_nodes (Episode.supports e)) el /\
    cat_field EpisodeBatch.queries_len bs
      = map (fun e => sum_num_nodes (Episode.queries e)) el /\
    cat_field EpisodeBatch.cosine_targets bs = cosine_values el /\
    cat_field EpisodeBatch.label_targets bs
      = map (fun row => Z.of_nat (argmax row)) (cosine_rows el).
Proof.
  intros Hwf Hn Hk Hq. unfold collate_each, cat_field.
  induction Hwf as [|episode el He _ IH].
  - exists []. simpl. repeat split; reflexivity.
  - destruct IH as (bs & Hbs & H1 & H2 & H3 & H4).
    destruct (from_episode_list_single Batch_len hp episode He Hn Hk Hq)
      as (b & Hb & B1 & B2 & B3 & B4).
    exists (b :: bs). simpl. rewrite Hb. simpl. rewrite Hbs. simpl.
    rewrite B1, B2, B3, B4, H1, H2, H3, H4.
    repeat split; try reflexivity.
    change (cosine_rows (episode :: el))
      with (episode_cosine_rows episode ++ cosine_rows el).
    now rewrite map_app.
Qed.

(** C3: for a list of well-formed episodes, the batch built from all of
    them at once has the same [supports_len], [queries_len],
    [cosine_targets] and [label_targets] as the concatenation, in episode
    order, of these fields of the single-episode batches, each of which
    exists. *)
Theorem collate_all_at_once (Batch_len : Batch -> nat)
    (el : list Episode.t) (hp : EpisodeHParams) (b : EpisodeBatch.t) :
  Forall (well_formed hp) el ->
  EpisodeBatch.from_episode_list Batch_len el hp = Ok b ->
  collated_alike Batch_len el hp b.
Proof.
  intros Hwf Hb. unfold collated_alike.
  apply from_episode_list_Ok in Hb
    as (_ & Hqs & Hkn & _ & _ & _ & _ & _ & Hsl & Hql & _ & Hct & rws & Hr & Hlt).
  assert (Hn : num_classes_per_episode hp <> 0) by (eapply reshape_Ok_width; exact Hr).
  assert (Hk : num_supports_per_class hp <> 0) by lia.
  assert (Hq : num_queries_per_class hp <> 0).
  { assert (Hx : num_classes_per_episode hp * num_queries_per_class hp <> 0); [|lia].
    eapply flat_map_nonempty_length; [|exact Hqs].
    eapply Forall_impl; [exact Hwf|]. now intros e (_ & ? & _). }
  destruct (collate_each_fields Batch_len hp el Hwf Hn Hk Hq)
    as (bs & Hbs & H1 & H2 & H3 & H4).
  exists bs. rewrite Hsl, Hql, Hct, Hlt, H1, H2, H3, H4. simpl.
  repeat split; try done.
  - clear -Hbs. unfold collate_each in Hbs. revert bs Hbs.
    induction el as [|e el IH]; simpl; intros bs Hbs.
    + injection Hbs as <-. reflexivity.
    + apply bind_Ok in Hbs as (b0 & _ & Hbs).
      apply bind_Ok in Hbs as (bs0 & Hbs0 & Hbs).
      injection Hbs as <-. simpl. f_equal. now apply IH.
  - f_equal. rewrite cosine_values_rows in Hr.
    rewrite reshape_concat in Hr; [now injection Hr as <-|exact Hn|].
    apply cosine_rows_uniform. eapply Forall_impl; [exact Hwf|].
    now intros e (_ & _ & ? & _).
Qed.

Lemma length_cosine_values (el : list Episode.t) :
  length (cosine_values el)
  = foldr (fun episode acc =>
             length (Episode.queries episode) * length (Episode.labels episode)
             + acc) 0 el.
Proof.
  unfold cosine_values.
  induction el as [|episode el IH]; simpl; [reflexivity|].
  rewrite length_app, IH. f_equal.
  rewrite (length_concat_uniform _ _ (episode_cosine_rows_uniform episode)).
  unfold episode_cosine_rows. now rewrite length_map.
Qed.

Lemma from_episode_list_succeeds_iff (Batch_len : Batch -> nat)
    (el : list Episode.t) (hp : EpisodeHParams) :
  succeeds (EpisodeBatch.from_episode_list Batch_len el hp) <->
  flat_map Episode.supports el <> [] /\
  cosine_values el <> [] /\
  num_classes_per_episode hp <> 0 /\
  num_supports_per_class hp <> 0 /\
  length (cosine_values el) mod num_classes_per_episode hp = 0.
Proof.
  split.
  - intros [b Hb]. unfold EpisodeBatch.from_episode_list in Hb.
    apply bind_Ok in Hb as (sb & Hs & Hb).
    apply Batch_from_data_list_Ok in Hs as [Hs _].
    apply bind_Ok in Hb as (qb & _ & Hb).
    apply bind_Ok in Hb as (ct & Hc & Hb).
    apply torch_cat_Ok in Hc as [Hc ->].
    rewrite cat_targets_cosine_values in Hb.
    apply bind_Ok in Hb as (rws & Hr & Hb). simpl in Hr.
    unfold EpisodeBatch.__init__ in Hb. case_decide as Hd; [discriminate|].
    unfold reshape in Hr. repeat case_decide; try discriminate.
    repeat split; try assumption; try lia.
    intros Hnil. apply Hc. rewrite <- cat_targets_cosine_values in Hnil.
    destruct (flat_map _ el) as [|t ts] eqn:E in Hnil |- *; [reflexivity|].
    exfalso. revert E Hnil. clear. 
    assert (Hsingle : Forall (fun t : list Z => length t = 1)
      (flat_map (fun episode =>
         map (fun ql : Data * Z => [cosine_target (fst ql) (snd ql)])
           (list_prod (Episode.queries episode) (Episode.labels episode))) el)).
    { apply Forall_forall. intros x Hx.
      apply list_elem_of_In in Hx. apply in_flat_map in Hx as (e & _ & Hx).
      apply in_map_iff in Hx as (ql & <- & _). reflexivity. }
    intros E Hnil. rewrite E in Hsingle.
    apply (f_equal length) in Hnil.
    rewrite (length_concat_uniform _ _ Hsingle) in Hnil. simpl in Hnil. lia.
  - intros (Hs & Hc & Hn & Hk & Hmod).
    unfold succeeds, EpisodeBatch.from_episode_list.
    rewrite (Batch_from_data_list_nonempty _ Hs). simpl.
    rewrite Batch_from_data_list_nonempty.
    + simpl. rewrite torch_cat_nonempty;
        rewrite cat_targets_cosine_values; [|exact Hc].
      simpl. unfold reshape.
      rewrite decide_False by exact Hn. rewrite decide_True by exact Hmod.
      simpl. unfold EpisodeBatch.__init__. rewrite decide_False by lia. eauto.
    + intros Hq. apply Hc. apply length_zero_iff_nil.
      rewrite cosine_values_rows.
      assert (Hrows : cosine_rows el = []).
      { apply length_zero_iff_nil. now rewrite length_cosine_rows, Hq. }
      now rewrite Hrows.
Qed.

Lemma length_cosine_values_exact (m : nat) (el : list Episode.t) :
  Forall (fun episode => length (Episode.queries episode) = m) el ->
  length (cosine_values el) = m * length (flat_map Episode.labels el).
Proof.
  intros H. rewrite length_cosine_values.
  induction H as [|episode el He _ IH]; simpl; [lia|].
  rewrite length_app, IH, He. lia.
Qed.

Lemma from_episode_list_exceptions (Batch_len : Batch -> nat)
    (el : list Episode.t) (hp : EpisodeHParams) (e : exception) :
  raises (EpisodeBatch.from_episode_list Batch_len el hp) e ->
  e = IndexError \/ e = RuntimeError \/ e = ZeroDivisionError.
Proof.
  unfold raises, EpisodeBatch.from_episode_list.
  destruct (Batch_from_data_list (flat_map Episode.supports el)) as [sb|e1] eqn:Hs.
  2:{ destruct (flat_map Episode.supports el); simpl in Hs; [|discriminate].
      injection Hs as <-. simpl. intros [= <-]. auto. }
  simpl.
  destruct (Batch_from_data_list (flat_map Episode.queries el)) as [qb|e2] eqn:Hq.
  2:{ destruct (flat_map Episode.queries el); simpl in Hq; [|discriminate].
      injection Hq as <-. simpl. intros [= <-]. auto. }
  simpl.
  destruct (torch_cat _) as [ct|e3] eqn:Hc.
  2:{ unfold torch_cat in Hc. destruct (flat_map _ el) in Hc; [|discriminate].
      injection Hc as <-. simpl. intros [= <-]. auto. }
  simpl.
  destruct (reshape _ _) as [rws|e4] eqn:Hr.
  2:{ unfold reshape in Hr. repeat case_decide; try discriminate;
      injection Hr as <-; simpl; intros [= <-]; auto. }
  simpl. unfold EpisodeBatch.__init__. case_decide; [|discriminate].
  intros [= <-]. auto.
Qed.

(** C5, as amended: [from_episode_list] makes no length check and never
    fails with ShapeMismatchError, whatever the lengths of the supports and
    queries of the episodes; it returns a batch for every non-empty list of
    episodes with exactly N*K supports and N*Q queries each, N, K and Q
    positive, and some label among the episodes. *)
Theorem collation_has_no_shape_check (Batch_len : Batch -> nat)
    (el : list Episode.t) (hp : EpisodeHParams) :
  ~ raises (EpisodeBatch.from_episode_list Batch_len el hp) ShapeMismatchError /\
  (el <> [] ->
   Forall (exact_lengths hp) el ->
   flat_map Episode.labels el <> [] ->
   num_classes_per_episode hp <> 0 ->
   num_supports_per_class hp <> 0 ->
   num_queries_per_class hp <> 0 ->
   succeeds (EpisodeBatch.from_episode_list Batch_len el hp)).
Proof.
  split.
  - intros H. apply from_episode_list_exceptions in H as [H|[H|H]]; discriminate.
  - intros Hne Hx Hl Hn Hk Hq. apply from_episode_list_succeeds_iff.
    assert (Hlen : length (cosine_values el)
                   = num_classes_per_episode hp * num_queries_per_class hp
                     * length (flat_map Episode.labels el)).
    { apply length_cosine_values_exact.
      eapply Forall_impl; [exact Hx|]. now intros e [_ ?]. }
    repeat split; try assumption.
    + destruct el as [|e el]; [congruence|]. apply Forall_cons in Hx as [[Hs _] _].
      simpl. intros Hnil. apply (f_equal length) in Hnil.
      rewrite length_app, Hs in Hnil. simpl in Hnil. nia.
    + intros Hnil. apply (f_equal length) in Hnil. rewrite Hlen in Hnil.
      simpl in Hnil. destruct (flat_map Episode.labels el); [congruence|].
      simpl in Hnil. nia.
    + rewrite Hlen, <- Nat.mul_assoc, Nat.mul_comm. apply Nat.Div0.mod_mul.
Qed.

Lemma assignment_rows_lookup (n B b : nat) :
  b < B -> assignment_rows n B !! b = Some (replicate n (Z.of_nat b)).
Proof.
  intros Hb. unfold assignment_rows.
  rewrite list_lookup_fmap, lookup_seq_lt by exact Hb. reflexivity.
Qed.

Lemma assignment_rows_blocks (n B : nat) : constant_blocks B n (assignment_rows n B).
Proof.
  assert (Hu : Forall (fun r => length r = n) (assignment_rows n B)).
  { unfold assignment_rows. apply Forall_map, Forall_forall.
    intros i _. simpl. apply length_replicate. }
  assert (Hlen : length (assignment_rows n B) = B).
  { unfold assignment_rows. now rewrite length_map, length_seq. }
  repeat split.
  - exact Hlen.
  - intros b Hb. now apply assignment_rows_lookup.
  - now rewrite (length_concat_uniform _ _ Hu), Hlen.
  - intros b j Hb Hj.
    eapply lookup_concat_uniform; [exact Hu | now apply assignment_rows_lookup |].
    apply lookup_replicate_2. exact Hj.
Qed.

(** C7, as amended: the assignment vectors of a batch of B episodes are,
    for the supports, B rows of N*K entries, the b-th row all b, which read
    row after row are B*N*K episode indices in B consecutive constant
    blocks of size N*K, and for the queries B rows of N*Q entries, the b-th
    row all b; when the episodes have N*K supports and N*Q queries each,
    the entry at the position of a collated graph is the index of the
    episode the graph comes from. *)
Theorem assignment_vectors_blocks (Batch_len : Batch -> nat)
    (el : list Episode.t) (hp : EpisodeHParams) (b : EpisodeBatch.t) :
  EpisodeBatch.from_episode_list Batch_len el hp = Ok b ->
  assignment_layout el hp b.
Proof.
  intros Hb. unfold assignment_layout.
  set (B := length el). set (N := num_classes_per_episode hp).
  set (K := num_supports_per_class hp). set (Q := num_queries_per_class hp).
  apply from_episode_list_Ok in Hb
    as (_ & _ & _ & Hsb & Hqb & _ & _ & Hav & _).
  rewrite Hav, Hsb, Hqb. do 2 eexists. simpl.
  split; [reflexivity|]. split; [reflexivity|]. simpl.
  fold B N K Q. rewrite (Nat.mul_comm K N), (Nat.mul_comm Q N).
  pose proof (assignment_rows_blocks (N * K) B) as HK.
  pose proof (assignment_rows_blocks (N * Q) B) as HQ.
  split; [exact HK|]. split; [destruct HK as (_ & _ & -> & _); lia|].
  split; [exact HQ|]. split; [destruct HQ as (_ & _ & -> & _); lia|].
  intros Hx e episode He.
  assert (HeB : e < B) by (apply lookup_lt_Some in He; exact He).
  split; intros j g Hj.
  - assert (Hjn : j < N * K).
    { apply lookup_lt_Some in Hj. rewrite Forall_forall in Hx.
      destruct (Hx episode) as [Hs _]; [apply list_elem_of_lookup; eauto|].
      unfold N, K. lia. }
    split; [|now apply HK].
    rewrite flat_map_concat_map.
    eapply lookup_concat_uniform; [| |exact Hj].
    + apply Forall_map. eapply Forall_impl; [exact Hx|]. now intros ? [? _].
    + now rewrite list_lookup_fmap, He.
  - assert (Hjn : j < N * Q).
    { apply lookup_lt_Some in Hj. rewrite Forall_forall in Hx.
      destruct (Hx episode) as [_ Hq]; [apply list_elem_of_lookup; eauto|].
      unfold N, Q. lia. }
    split; [|now apply HQ].
    rewrite flat_map_concat_map.
    eapply lookup_concat_uniform; [| |exact Hj].
    + apply Forall_map. eapply Forall_impl; [exact Hx|]. now intros ? [_ ?].
    + now rewrite list_lookup_fmap, He.
Qed.

(** C10: [to] moves [supports], [queries], [cosine_targets],
    [label_targets] and [labels] to the device and leaves
    [assignment_vectors], [supports_len], [queries_len], [num_episodes],
    [batch_size] and [episode_hparams] as they were, device included. *)
Theorem to_moves_five_fields (b : EpisodeBatch.t) (d : device) :
  let b' := EpisodeBatch.to b d in
  EpisodeBatch.supports b' = Batch_to (EpisodeBatch.supports b) d /\
  EpisodeBatch.queries b' = Batch_to (EpisodeBatch.queries b) d /\
  EpisodeBatch.cosine_targets b' = Tensor_to (EpisodeBatch.cosine_targets b) d /\
  EpisodeBatch.label_targets b' = Tensor_to (EpisodeBatch.label_targets b) d /\
  EpisodeBatch.labels b' = Tensor_to (EpisodeBatch.labels b) d /\
  EpisodeBatch.assignment_vectors b' = EpisodeBatch.assignment_vectors b /\
  EpisodeBatch.supports_len b' = EpisodeBatch.supports_len b /\
  EpisodeBatch.queries_len b' = EpisodeBatch.queries_len b /\
  EpisodeBatch.num_episodes b' = EpisodeBatch.num_episodes b /\
  EpisodeBatch.batch_size b' = EpisodeBatch.batch_size b /\
  EpisodeBatch.episode_hparams b' = EpisodeBatch.episode_hparams b /\
  tensor_device (EpisodeBatch.supports_len b')
    = tensor_device (EpisodeBatch.supports_len b) /\
  tensor_device (EpisodeBatch.queries_len b')
    = tensor_device (EpisodeBatch.queries_len b) /\
  map (fun kv => tensor_device (snd kv)) (EpisodeBatch.assignment_vectors b')
    = map (fun kv => tensor_device (snd kv)) (EpisodeBatch.assignment_vectors b).
Proof. destruct b. simpl. repeat split; reflexivity. Qed.

(** C4: [save] looks up [as_dict] on the episode hyperparameters, which the
    dataclass does not define: on every MetaData it raises AttributeError
    before anything is written, so nothing can be loaded back. *)
Theorem save_raises_AttributeError (m : MetaData.t) (path : string)
    (fs : file_system) :
  MetaData.save m path fs = Raise AttributeError.
Proof. reflexivity. Qed.


Lemma mapM_app_Ok {A B} (f : A -> result B) (l1 l2 : list A) (ys : list B) :
  mapM f (l1 ++ l2) = Ok ys ->
  exists ys1 ys2, mapM f l1 = Ok ys1 /\ mapM f l2 = Ok ys2 /\ ys = ys1 ++ ys2.
Proof.
  revert ys. induction l1 as [|x l1 IH]; simpl; intros ys H.
  - exists [], ys. auto.
  - apply bind_Ok in H as (y0 & Hy & H).
    apply bind_Ok in H as (ys0 & Hys & H). injection H as <-.
    destruct (IH _ Hys) as (ys1 & ys2 & H1 & H2 & ->).
    exists (y0 :: ys1), ys2. rewrite Hy. simpl. rewrite H1. auto.
Qed.

Lemma mapM_Permutation {A B} (f : A -> result B) (l l' : list A) (ys : list B) :
  l ≡ₚ l' -> mapM f l = Ok ys -> exists ys', mapM f l' = Ok ys' /\ ys ≡ₚ ys'.
Proof.
  intros Hp. revert ys. induction Hp as [|x l l' _ IH|x1 x2 l|l l' l'' _ IH1 _ IH2];
    simpl; intros ys H.
  - exists ys. auto.
  - apply bind_Ok in H as (y0 & Hy & H).
    apply bind_Ok in H as (ys0 & Hys & H). injection H as <-.
    destruct (IH _ Hys) as (ys' & H' & Hperm).
    exists (y0 :: ys'). rewrite Hy. simpl. rewrite H'. simpl.
    split; [reflexivity | now constructor].
  - apply bind_Ok in H as (y2 & Hy2 & H).
    apply bind_Ok in H as (ys0 & H & H0). injection H0 as <-.
    apply bind_Ok in H as (y1 & Hy1 & H).
    apply bind_Ok in H as (ys1 & Hys & H0). injection H0 as <-.
    exists (y1 :: y2 :: ys1). rewrite Hy1. simpl. rewrite Hy2. simpl.
    rewrite Hys. simpl. split; [reflexivity | constructor].
  - destruct (IH1 _ H) as (ys1 & H1 & Hp1).
    destruct (IH2 _ H1) as (ys2 & H2 & Hp2).
    exists ys2. split; [exact H2 | now transitivity ys1].
Qed.

Lemma mapM_index_seq {A} (pre l : list A) :
  mapM (index (pre ++ l)) (seq (length pre) (length l)) = Ok l.
Proof.
  revert pre. induction l as [|x l IH]; intros pre; [reflexivity|].
  change (mapM (index (pre ++ x :: l)) (seq (length pre) (length (x :: l))))
    with (index (pre ++ x :: l) (length pre) ≫= fun y0 =>
          mapM (index (pre ++ x :: l)) (seq (S (length pre)) (length l)) ≫=
          fun k => mret (y0 :: k)).
  assert (Hx : index (pre ++ x :: l) (length pre) = Ok x).
  { unfold index. now rewrite list_lookup_middle. }
  rewrite Hx. simpl.
  replace (pre ++ x :: l) with ((pre ++ [x]) ++ l) by now rewrite <- app_assoc.
  replace (S (length pre)) with (length (pre ++ [x]))
    by (rewrite length_app; simpl; lia).
  now rewrite IH.
Qed.

Lemma take_drop_slices {A} (u : Z) (l : list A) :
  slice_to u l ++ slice_from u l = l.
Proof. unfold slice_to, slice_from. destruct (u <? 0)%Z; apply take_drop. Qed.

(** ** Floats *)

Lemma pow2_pos (e : Z) : (0 < pow2 e)%Q.
Proof. unfold pow2. apply Qpower_0_lt. reflexivity. Qed.

Lemma pow2_plus (a b : Z) : (pow2 (a + b) == pow2 a * pow2 b)%Q.
Proof. unfold pow2. apply Qpower_plus. discriminate. Qed.

Lemma pow2_Z (e : Z) : (0 <= e)%Z -> (pow2 e == inject_Z (2 ^ e))%Q.
Proof.
  intros He. unfold pow2. rewrite Zpower_Qpower by exact He. reflexivity.
Qed.

Lemma pow2_le (a b : Z) : (a <= b)%Z -> (pow2 a <= pow2 b)%Q.
Proof.
  intros H. replace b with (a + (b - a))%Z by lia. rewrite pow2_plus.
  assert (H1 : (1 <= pow2 (b - a))%Q).
  { rewrite pow2_Z by lia. change 1%Q with (inject_Z 1). rewrite <- Zle_Qle.
    pose proof (Z.pow_pos_nonneg 2 (b - a)). lia. }
  pose proof (pow2_pos a). nra.
Qed.

Lemma pow2_inv (e : Z) : (pow2 e * pow2 (- e) == 1)%Q.
Proof. rewrite <- pow2_plus. replace (e + - e)%Z with 0%Z by lia. reflexivity. Qed.

Lemma round_half_even_ge (t : Q) (k : Z) :
  (inject_Z k <= t)%Q -> (k <= round_half_even t)%Z.
Proof.
  intros H. unfold round_half_even.
  assert (Hf : (k <= Qfloor t)%Z).
  { rewrite <- (Qfloor_Z k). apply Qfloor_resp_le. exact H. }
  destruct (Qcompare _ _); [destruct (Z.even _)|..]; lia.
Qed.

Lemma round_half_even_le (t : Q) :
  (0 <= t)%Q -> (inject_Z (round_half_even t) <= 2 * t)%Q.
Proof.
  intros H. unfold round_half_even.
  pose proof (Qfloor_le t) as Hle.
  assert (H0 : (0 <= Qfloor t)%Z).
  { rewrite <- (Qfloor_Z 0). apply Qfloor_resp_le. exact H. }
  assert (H0' : (0 <= inject_Z (Qfloor t))%Q).
  { change 0%Q with (inject_Z 0). rewrite <- Zle_Qle. exact H0. }
  destruct (Qcompare (t - inject_Z (Qfloor t)) (1 # 2)) eqn:E.
  - apply Qeq_alt in E. destruct (Z.even _).
    + set (f := inject_Z (Qfloor t)) in *. lra.
    + rewrite inject_Z_plus. change (inject_Z 1) with 1%Q.
      set (f := inject_Z (Qfloor t)) in *. lra.
  - set (f := inject_Z (Qfloor t)) in *. lra.
  - apply Qgt_alt in E. rewrite inject_Z_plus. change (inject_Z 1) with 1%Q.
    set (f := inject_Z (Qfloor t)) in *. lra.
Qed.

Lemma round_half_even_Z (t : Q) (k : Z) :
  (t == inject_Z k)%Q -> round_half_even t = k.
Proof.
  intros H. unfold round_half_even.
  assert (Hf : Qfloor t = k) by (rewrite H; apply Qfloor_Z).
  rewrite Hf.
  assert (E : Qcompare (t - inject_Z k) (1 # 2) = Lt).
  { rewrite <- Qlt_alt. set (q := inject_Z k) in *. lra. }
  now rewrite E.
Qed.

Lemma Qlog2_lower (x : Q) : (0 < x)%Q -> (pow2 (Qlog2 x) <= x)%Q.
Proof.
  intros Hx. unfold Qlog2.
  set (l := (Z.log2 (Qnum x) - Z.log2 (Z.pos (Qden x)))%Z).
  destruct (Qle_bool (pow2 l) x) eqn:E; [now apply Qle_bool_iff|].
  destruct x as [a b]. cbn [Qnum Qden] in l.
  assert (Ha : (0 < a)%Z).
  { unfold Qlt in Hx. simpl in Hx. lia. }
  pose proof (Z.log2_spec a Ha) as [Ha1 _].
  pose proof (Z.log2_spec (Z.pos b) (Pos2Z.is_pos b)) as [_ Hb2].
  pose proof (Z.log2_nonneg a) as La. pose proof (Z.log2_nonneg (Z.pos b)) as Lb.
  (* 2^(l-1) * b <= a *)
  assert (H : (pow2 (l - 1) * inject_Z (Z.pos b) <= inject_Z a)%Q).
  { assert (Hb' : (inject_Z (Z.pos b) <= pow2 (Z.log2 (Z.pos b) + 1))%Q).
    { rewrite pow2_Z by lia. rewrite <- Zle_Qle. rewrite Z.add_1_r. lia. }
    assert (Ha' : (pow2 (Z.log2 a) <= inject_Z a)%Q).
    { rewrite pow2_Z by lia. rewrite <- Zle_Qle. exact Ha1. }
    assert (Hs : (pow2 (l - 1) * pow2 (Z.log2 (Z.pos b) + 1) == pow2 (Z.log2 a))%Q).
    { assert (Hl : (l - 1 + (Z.log2 (Z.pos b) + 1) = Z.log2 a)%Z) by (unfold l; lia).
      rewrite <- pow2_plus, Hl. reflexivity. }
    pose proof (pow2_pos (l - 1)). nra. }
  rewrite (Qmake_Qdiv a b).
  apply Qle_shift_div_l.
  - change 0%Q with (inject_Z 0). rewrite <- Zlt_Qlt. lia.
  - exact H.
Qed.

Lemma Qlog2_lt (x : Q) (k : Z) :
  (0 < x)%Q -> (x < pow2 k)%Q -> (Qlog2 x < k)%Z.
Proof.
  intros Hx Hk. pose proof (Qlog2_lower x Hx) as Hl.
  destruct (Z_lt_le_dec (Qlog2 x) k) as [|Hge]; [assumption|].
  pose proof (pow2_le _ _ Hge). lra.
Qed.

(** The magnitude of the nearest double is at least any integer below
    2^53 that the number is at least. *)
Lemma round_magnitude_ge (x : Q) (n : Z) :
  (0 <= n < 2 ^ 53)%Z -> (0 < x)%Q -> (inject_Z n <= x)%Q ->
  (inject_Z n <= round_magnitude x)%Q.
Proof.
  intros Hn Hx Hnx. unfold round_magnitude.
  set (e := Z.max (Qlog2 x - 52) (-1074)).
  pose proof (pow2_pos e) as He.
  destruct (Z_le_gt_dec e 0) as [Hle|Hgt].
  - (* the grid is finer than the integers *)
    assert (Hk : (inject_Z (n * 2 ^ (- e)) <= x / pow2 e)%Q).
    { apply Qle_shift_div_l; [exact He|].
      rewrite inject_Z_mult, <- pow2_Z by lia.
      pose proof (pow2_inv (- e)) as Hi. rewrite Z.opp_involutive in Hi.
      set (p := pow2 (- e)) in *. set (q := pow2 e) in *.
      assert (inject_Z n * p * q == inject_Z n)%Q by (rewrite <- Qmult_assoc, Hi; ring).
      lra. }
    apply round_half_even_ge in Hk.
    rewrite Zle_Qle in Hk. rewrite inject_Z_mult, <- pow2_Z in Hk by lia.
    pose proof (pow2_inv (- e)) as Hi. rewrite Z.opp_involutive in Hi.
    set (p := pow2 (- e)) in *. set (q := pow2 e) in *.
    set (m := inject_Z (round_half_even (x / q))) in *.
    assert (inject_Z n * p * q == inject_Z n)%Q by (rewrite <- Qmult_assoc, Hi; ring).
    assert (inject_Z n * p * q <= m * q)%Q by (apply Qmult_le_compat_r; lra).
    lra.
  - (* the number is at least 2^53 *)
    assert (Hl : e = (Qlog2 x - 52)%Z) by lia.
    pose proof (Qlog2_lower x Hx) as Hlow.
    assert (Hk : (inject_Z (2 ^ 52) <= x / pow2 e)%Q).
    { apply Qle_shift_div_l; [exact He|].
      rewrite <- pow2_Z, <- pow2_plus by lia.
      replace (52 + e)%Z with (Qlog2 x) by lia. exact Hlow. }
    apply round_half_even_ge in Hk. rewrite Zle_Qle in Hk.
    assert (H2 : (2 <= pow2 e)%Q).
    { change 2%Q with (pow2 1). apply pow2_le. lia. }
    assert (Hn' : (inject_Z n <= inject_Z (2 ^ 53))%Q) by (rewrite <- Zle_Qle; lia).
    change (inject_Z (2 ^ 53)) with (inject_Z (2 ^ 52) * 2)%Q in Hn'.
    set (m := inject_Z (round_half_even (x / pow2 e))) in *.
    set (q := pow2 e) in *.
    assert (0 <= inject_Z (2 ^ 52))%Q by (change 0%Q with (inject_Z 0); rewrite <- Zle_Qle; lia).
    nra.
Qed.

Lemma round_magnitude_le (x : Q) :
  (0 < x)%Q -> (0 <= round_magnitude x /\ round_magnitude x <= 2 * x)%Q.
Proof.
  intros Hx. unfold round_magnitude.
  set (e := Z.max (Qlog2 x - 52) (-1074)).
  pose proof (pow2_pos e) as He.
  assert (Ht : (0 <= x / pow2 e)%Q).
  { apply Qle_shift_div_l; [exact He|]. lra. }
  pose proof (round_half_even_le _ Ht) as Hle.
  assert (H0 : (inject_Z 0 <= x / pow2 e)%Q) by exact Ht.
  apply round_half_even_ge in H0. rewrite Zle_Qle in H0.
  change (inject_Z 0) with 0%Q in H0.
  assert (Hxe : (x / pow2 e * pow2 e == x)%Q).
  { field. intros Hz. rewrite Hz in He. lra. }
  set (m := inject_Z (round_half_even (x / pow2 e))) in *.
  set (t := (x / pow2 e)%Q) in *. set (q := pow2 e) in *.
  split; [nra|].
  assert (m * q <= 2 * t * q)%Q by (apply Qmult_le_compat_r; lra).
  lra.
Qed.

Lemma round_magnitude_Z (n : Z) :
  (0 < n < 2 ^ 53)%Z -> (round_magnitude (inject_Z n) == inject_Z n)%Q.
Proof.
  intros Hn. unfold round_magnitude.
  assert (Hx : (0 < inject_Z n)%Q).
  { change 0%Q with (inject_Z 0). rewrite <- Zlt_Qlt. lia. }
  assert (Hl : (Qlog2 (inject_Z n) < 53)%Z).
  { apply Qlog2_lt; [exact Hx|]. rewrite pow2_Z by lia. rewrite <- Zlt_Qlt. lia. }
  set (e := Z.max (Qlog2 (inject_Z n) - 52) (-1074)).
  assert (He0 : (e <= 0)%Z) by lia.
  pose proof (pow2_pos e) as He.
  pose proof (pow2_inv (- e)) as Hi. rewrite Z.opp_involutive in Hi.
  assert (Hk : (inject_Z n / pow2 e == inject_Z (n * 2 ^ (- e)))%Q).
  { rewrite inject_Z_mult, <- pow2_Z by lia.
    apply Qmult_inj_r with (z := pow2 e); [lra|].
    transitivity (inject_Z n); [field; lra|].
    rewrite <- Qmult_assoc, Hi. ring. }
  rewrite (round_half_even_Z _ _ Hk).
  rewrite inject_Z_mult, <- pow2_Z by lia.
  rewrite <- Qmult_assoc, Hi. ring.
Qed.

Lemma pow2_lt (a b : Z) : (a < b)%Z -> (pow2 a < pow2 b)%Q.
Proof.
  intros H. replace b with (a + (b - a))%Z by lia. rewrite pow2_plus.
  assert (H1 : (2 <= pow2 (b - a))%Q).
  { change 2%Q with (pow2 1). apply pow2_le. lia. }
  pose proof (pow2_pos a). nra.
Qed.

(** A number below 2^1023 and not negative has a finite nearest float,
    which is not negative, at most twice the number, and at least every
    integer below 2^53 that the number is at least. *)
Lemma float_round_finite (x : Q) :
  (0 <= x)%Q -> (x < pow2 1023)%Q ->
  exists y,
    float_round x = Finite y /\ (0 <= y)%Q /\ (y <= 2 * x)%Q /\
    (forall n, (0 <= n < 2 ^ 53)%Z -> (inject_Z n <= x)%Q -> (inject_Z n <= y)%Q).
Proof.
  intros H0 Hx. unfold float_round.
  destruct (Qcompare x 0) eqn:E.
  - rewrite <- Qeq_alt in E. exists 0%Q. split; [reflexivity|].
    split; [lra|]. split; [lra|]. intros n _ Hn. lra.
  - rewrite <- Qlt_alt in E. lra.
  - rewrite <- Qgt_alt in E.
    destruct (round_magnitude_le x E) as [Hr0 Hr2].
    assert (Hfin : Qle_bool (pow2 1024) (round_magnitude x) = false).
    { destruct (Qle_bool _ _) eqn:B; [|reflexivity].
      apply Qle_bool_iff in B.
      assert (H2 : (pow2 1024 == 2 * pow2 1023)%Q).
      { change 1024%Z with (1 + 1023)%Z. rewrite pow2_plus. reflexivity. }
      set (p := pow2 1023) in *. set (q := pow2 1024) in *.
      set (r := round_magnitude x) in *. lra. }
    rewrite Hfin. exists (round_magnitude x).
    split; [reflexivity|]. split; [exact Hr0|]. split; [exact Hr2|].
    intros n Hn Hnx. now apply round_magnitude_ge.
Qed.

Lemma float_of_int_exact (n : Z) :
  (0 <= n < 2 ^ 53)%Z ->
  exists y, float_of_int n = Ok (Finite y) /\ (y == inject_Z n)%Q.
Proof.
  intros Hn. unfold float_of_int, float_round.
  destruct (Z.eq_dec n 0%Z) as [->|Hn0].
  - exists 0%Q. split; reflexivity.
  - assert (Hpos : (0 < inject_Z n)%Q).
    { change 0%Q with (inject_Z 0). rewrite <- Zlt_Qlt. lia. }
    assert (E : Qcompare (inject_Z n) 0 = Gt) by now rewrite <- Qgt_alt.
    rewrite E.
    pose proof (round_magnitude_Z n ltac:(lia)) as Hr.
    assert (Hfin : Qle_bool (pow2 1024) (round_magnitude (inject_Z n)) = false).
    { destruct (Qle_bool _ _) eqn:B; [|reflexivity].
      apply Qle_bool_iff in B. rewrite Hr in B.
      assert (Hlt : (inject_Z n < pow2 53)%Q).
      { rewrite pow2_Z by lia. rewrite <- Zlt_Qlt. lia. }
      pose proof (pow2_lt 53 1024 ltac:(lia)).
      set (p := pow2 53) in *. set (q := pow2 1024) in *.
      set (z := inject_Z n) in *. lra. }
    rewrite Hfin. eexists. split; [reflexivity | exact Hr].
Qed.

(** The ceiling of the float product of a ratio and a length, in the
    range where the product is finite. *)
Lemma ceil_ratio_returns (ratio : Q) (n : nat) :
  float_range ratio n ->
  exists bound,
    ceil_ratio ratio n = Ok bound /\ (0 <= bound)%Z /\
    ((1 <= ratio)%Q -> (Z.of_nat n <= bound)%Z) /\
    ((ratio == 0)%Q -> bound = 0%Z).
Proof.
  intros (Hr0 & Hr900 & Hn). unfold ceil_ratio.
  destruct (float_of_int_exact (Z.of_nat n) ltac:(lia)) as (n' & -> & Hn').
  simpl.
  assert (Hr1023 : (ratio < pow2 1023)%Q).
  { pose proof (pow2_lt 900 1023 ltac:(lia)).
    set (p := pow2 900) in *. set (q := pow2 1023) in *. lra. }
  destruct (float_round_finite ratio Hr0 Hr1023) as (r' & -> & Hr'0 & Hr'2 & Hr'n).
  simpl.
  assert (Hn0 : (0 <= inject_Z (Z.of_nat n))%Q).
  { change 0%Q with (inject_Z 0). rewrite <- Zle_Qle. lia. }
  assert (Hn53 : (inject_Z (Z.of_nat n) <= pow2 53)%Q).
  { rewrite pow2_Z by lia. rewrite <- Zle_Qle. lia. }
  assert (Hprod : (r' * n' <= pow2 954)%Q).
  { assert (H954 : (pow2 954 == 2 * pow2 900 * pow2 53)%Q).
    { change 954%Z with (1 + 900 + 53)%Z. rewrite !pow2_plus. reflexivity. }
    rewrite H954, Hn'.
    pose proof (pow2_pos 900). 
    apply Qmult_le_compat_nonneg; split; try assumption.
    set (p := pow2 900) in *. lra. }
  assert (Hprod0 : (0 <= r' * n')%Q).
  { rewrite Hn'. apply Qmult_le_0_compat; assumption. }
  assert (Hprod1023 : (r' * n' < pow2 1023)%Q).
  { pose proof (pow2_lt 954 1023 ltac:(lia)).
    set (p := pow2 954) in *. set (q := pow2 1023) in *.
    set (z := (r' * n')%Q) in *. lra. }
  destruct (float_round_finite (r' * n') Hprod0 Hprod1023)
    as (y & -> & Hy0 & Hy2 & Hyn).
  simpl. exists (Qceiling y). split; [reflexivity|].
  pose proof (Qle_ceiling y) as Hc.
  split; [|split].
  - rewrite Zle_Qle. change (inject_Z 0) with 0%Q.
    set (c := inject_Z (Qceiling y)) in *. lra.
  - intros H1. rewrite Zle_Qle.
    assert (H1' : (1 <= r')%Q).
    { apply (Hr'n 1%Z); [lia|]. exact H1. }
    assert (Hge : (inject_Z (Z.of_nat n) <= r' * n')%Q).
    { rewrite Hn'. set (z := inject_Z (Z.of_nat n)) in *. nra. }
    pose proof (Hyn (Z.of_nat n) ltac:(lia) Hge).
    set (c := inject_Z (Qceiling y)) in *.
    set (z := inject_Z (Z.of_nat n)) in *. lra.
  - intros Hz.
    assert (Hy : (y == inject_Z 0)%Q).
    { change (inject_Z 0) with 0%Q.
      assert (r' == 0)%Q by lra.
      assert (r' * n' == 0)%Q by (rewrite H; ring).
      lra. }
    rewrite (Qceiling_comp _ _ Hy). apply Qceiling_Z.
Qed.

(** A list cut along a shuffled index vector. *)
Lemma cut_along_shuffle (shuffle : list nat -> list nat) (data_list : list loc)
    (u : Z) :
  (forall l, shuffle l ≡ₚ l) ->
  let idxs := shuffle (seq 0 (length data_list)) in
  exists xs ys,
    mapM (index data_list) (slice_to u idxs) = Ok xs /\
    mapM (index data_list) (slice_from u idxs) = Ok ys /\
    xs ++ ys ≡ₚ data_list /\
    length xs = length (slice_to u idxs) /\
    length ys = length (slice_from u idxs).
Proof.
  intros Hshuffle idxs.
  destruct (mapM_Permutation (index data_list) (seq 0 (length data_list)) idxs
              data_list) as (zs & Hzs & Hperm).
  { symmetry. apply Hshuffle. }
  { apply (mapM_index_seq [] data_list). }
  rewrite <- (take_drop_slices u idxs) in Hzs.
  apply mapM_app_Ok in Hzs as (xs & ys & Hx & Hy & ->).
  assert (Hlen : forall l zs, mapM (index data_list) l = Ok zs ->
                              length zs = length l).
  { clear. induction l as [|i l IH]; simpl; intros zs H.
    - now injection H as <-.
    - apply bind_Ok in H as (x & _ & H).
      apply bind_Ok in H as (xs & Hxs & H). injection H as <-.
      simpl. f_equal. now apply IH. }
  exists xs, ys. repeat split; auto. now symmetry.
Qed.

Lemma of_label_app (h : heap) (label : Z) (xs ys : list loc) :
  of_label h label (xs ++ ys) = of_label h label xs ++ of_label h label ys.
Proof. unfold of_label. apply filter_app. Qed.

(** C9, as amended: with no split file, the split made on the fly cuts
    the whole list of samples it is given, all classes together, along a
    shuffled index vector at [math.ceil(support_ratio * len(data_list))],
    the product being a float product, into supports and queries; the two
    are disjoint and together are the list, so within every class the
    support and query candidates are disjoint and cover the class. When
    [math.ceil] raises, the split raises the same; it does not for a ratio
    from 0 to 2^900 and fewer than 2^53 samples. *)
Theorem split_query_support_whole_pool {dataset : Type}
    (shuffle : list nat -> list nat)
    (load_idxs : string -> result (list nat * list nat))
    (self : GraphFewShotDataModule.t dataset) (data_list : list loc) (h : heap) :
  (forall l, shuffle l ≡ₚ l) ->
  GraphFewShotDataModule.query_support_split_path self = None ->
  whole_pool_split shuffle load_idxs self data_list h.
Proof.
  intros Hshuffle Hpath. unfold whole_pool_split. split; [|split].
  - intros bound Hbound.
    unfold GraphFewShotDataModule.split_query_support. rewrite Hpath, Hbound.
    destruct (cut_along_shuffle shuffle data_list bound Hshuffle)
      as (supports & queries & Hs & Hq & Hperm & Hls & _).
    exists supports, queries. simpl. rewrite Hs. simpl. rewrite Hq. simpl.
    split; [reflexivity|]. split; [exact Hperm|]. split; [|split].
    + intros Hb. rewrite Hls. unfold slice_to.
      destruct (Z.ltb_spec bound 0) as [E|E]; [lia|].
      now rewrite length_take, (Permutation_length (Hshuffle _)), length_seq.
    + intros Hnd. now rewrite Hperm.
    + intros label. rewrite <- of_label_app. unfold of_label.
      now rewrite Hperm.
  - intros e He.
    unfold GraphFewShotDataModule.split_query_support. now rewrite Hpath, He.
  - intros Hrange.
    destruct (ceil_ratio_returns _ _ Hrange) as (bound & Hb & H0 & _).
    now exists bound.
Qed.

Lemma fold_enumerate_notin (L : list Z) (k : nat) (d : gmap Z nat) (x : Z) :
  x ∉ L ->
  foldl (fun d il => <[snd il := fst il]> d) d (zip (seq k (length L)) L) !! x
  = d !! x.
Proof.
  revert k d. induction L as [|l L IH]; intros k d Hx; simpl; [reflexivity|].
  apply not_elem_of_cons in Hx as [Hne Hx].
  rewrite IH by exact Hx. now apply lookup_insert_ne.
Qed.

Lemma fold_enumerate_lookup (L : list Z) (k : nat) (d : gmap Z nat)
    (j : nat) (x : Z) :
  NoDup L -> L !! j = Some x ->
  foldl (fun d il => <[snd il := fst il]> d) d (zip (seq k (length L)) L) !! x
  = Some (k + j).
Proof.
  intros Hnd. revert k d j.
  induction Hnd as [|l L Hl _ IH]; intros k d j Hj; [discriminate|].
  destruct j as [|j]; simpl in *.
  - injection Hj as ->. rewrite fold_enumerate_notin by exact Hl.
    rewrite lookup_insert_eq. f_equal. lia.
  - rewrite (IH (S k) _ j Hj). f_equal. lia.
Qed.

Lemma sorted_Permutation (l : list Z) : sorted l ≡ₚ l.
Proof. apply merge_sort_Permutation. Qed.

Lemma global_to_local_sorted (stage_labels : list Z) (i : nat) (label : Z) :
  NoDup stage_labels ->
  sorted stage_labels !! i = Some label <->
  GraphTransferDataModule.global_to_local stage_labels !! label = Some i.
Proof.
  intros Hnd.
  assert (Hnd' : NoDup (sorted stage_labels)) by now rewrite sorted_Permutation.
  unfold GraphTransferDataModule.global_to_local, enumerate. split.
  - intros Hi. now rewrite (fold_enumerate_lookup _ 0 ∅ i label Hnd' Hi).
  - intros Hm. destruct (decide (label ∈ sorted stage_labels)) as [Hin|Hout].
    + apply list_elem_of_lookup in Hin as [j Hj].
      rewrite (fold_enumerate_lookup _ 0 ∅ j label Hnd' Hj) in Hm.
      injection Hm as <-. exact Hj.
    + rewrite fold_enumerate_notin in Hm by exact Hout.
      rewrite lookup_empty in Hm. discriminate.
Qed.

(** [sorted] puts the labels in increasing order. *)
Lemma sorted_increasing (l : list Z) : Sorted Z.le (sorted l).
Proof. apply Sorted_merge_sort. intros x y0. lia. Qed.

Lemma apply_local_label (m : gmap Z nat) (x : loc) (h : heap) (ind : nat) :
  m !! y (h x) = Some ind ->
  apply_ (local_label m) x h = Ok (<[x := set_y (Z.of_nat ind) (h x)]> h).
Proof. intros Hm. unfold apply_, local_label. now rewrite Hm. Qed.

Lemma relabel_each (m : gmap Z nat) (samples : list loc) (h : heap) :
  NoDup samples ->
  (forall s, s ∈ samples -> is_Some (m !! y (h s))) ->
  exists h',
    for_each (apply_ (local_label m)) samples h = Ok h' /\
    (forall s, s ∈ samples ->
       exists ind, m !! y (h s) = Some ind /\
                   h' s = set_y (Z.of_nat ind) (h s)) /\
    (forall s, s ∉ samples -> h' s = h s).
Proof.
  intros Hnd. revert h.
  induction Hnd as [|x samples Hx _ IH]; intros h Hin.
  - exists h. simpl. split; [reflexivity|]. split; [|done].
    intros s Hs. now apply elem_of_nil in Hs.
  - destruct (Hin x) as [ind Hind]; [left|].
    change (for_each (apply_ (local_label m)) (x :: samples) h)
      with (apply_ (local_label m) x h ≫= for_each (apply_ (local_label m)) samples).
    rewrite (apply_local_label m x h ind Hind). simpl.
    set (h1 := <[x := set_y (Z.of_nat ind) (h x)]> h).
    assert (Hsame : forall s, s ∈ samples -> h1 s = h s).
    { intros s Hs. unfold h1. apply fn_lookup_insert_ne. intros ->. contradiction. }
    destruct (IH h1) as (h' & Hrun & Hmap & Hframe).
    { intros s Hs. rewrite (Hsame s Hs). apply Hin. now right. }
    exists h'. split; [exact Hrun|]. split.
    + intros s Hs. apply elem_of_cons in Hs as [->|Hs].
      * exists ind. split; [exact Hind|].
        rewrite (Hframe x Hx). unfold h1. apply fn_lookup_insert.
      * destruct (Hmap s Hs) as (i & Hi & Hs'). rewrite (Hsame s Hs) in Hi, Hs'.
        eauto.
    + intros s Hs. apply not_elem_of_cons in Hs as [Hne Hs].
      rewrite (Hframe s Hs). unfold h1. now apply fn_lookup_insert_ne.
Qed.

Lemma convert_to_local_labels_relabels {dataset : Type}
    (self : GraphFewShotDataModule.t dataset) (samples : list loc)
    (stage : string) (stage_labels : list Z) (h : heap) :
  getitem (GraphFewShotDataModule.labels_split self) stage = Ok stage_labels ->
  NoDup stage_labels ->
  NoDup samples ->
  (forall s, s ∈ samples -> y (h s) ∈ stage_labels) ->
  exists m h',
    GraphTransferDataModule.convert_to_local_labels self samples stage h
      = Ok (m, h') /\
    m = GraphTransferDataModule.global_to_local stage_labels /\
    relabelled stage_labels samples h m h'.
Proof.
  intros Hstage Hnd Hsamples Hscope.
  unfold GraphTransferDataModule.convert_to_local_labels. rewrite Hstage. simpl.
  set (m := GraphTransferDataModule.global_to_local stage_labels).
  destruct (relabel_each m samples h Hsamples) as (h' & Hrun & Hmap & Hframe).
  { intros s Hs. specialize (Hscope s Hs).
    rewrite <- sorted_Permutation in Hscope.
    apply list_elem_of_lookup in Hscope as [i Hi].
    exists i. now apply global_to_local_sorted. }
  exists m, h'. fold (local_label m). rewrite Hrun. simpl.
  split; [reflexivity|]. split; [reflexivity|].
  split; [|split; [|split]].
  - intros i label. now apply global_to_local_sorted.
  - intros label i Hm. apply global_to_local_sorted in Hm; [|exact Hnd].
    apply lookup_lt_Some in Hm.
    now rewrite (Permutation_length (sorted_Permutation stage_labels)) in Hm.
  - intros s Hs. destruct (Hmap s Hs) as (ind & Hind & ->). eauto.
  - exact Hframe.
Qed.

Lemma NoDup_concat_filter {A B} (P : A * list B -> Prop)
    `{forall kv, Decision (P kv)} (buckets : list (A * list B)) :
  NoDup (concat (map snd buckets)) ->
  NoDup (concat (map snd (filter P buckets))).
Proof.
  induction buckets as [|[k ss] buckets IH]; simpl; [done|].
  intros Hnd. apply NoDup_app in Hnd as (Hss & Hdisj & Hrest).
  rewrite filter_cons. destruct (decide (P (k, ss))); [|now apply IH].
  simpl. apply NoDup_app. split; [exact Hss|]. split; [|now apply IH].
  intros x Hx Hin. apply (Hdisj x Hx).
  clear -Hin. induction buckets as [|[k' ss'] buckets IH]; simpl in *; [done|].
  rewrite filter_cons in Hin. destruct (decide (P (k', ss'))); simpl in Hin.
  - apply elem_of_app in Hin as [Hin|Hin]; apply elem_of_app; auto.
  - apply elem_of_app; auto.
Qed.

Lemma stage_pool_NoDup {dataset : Type}
    (self : GraphFewShotDataModule.t dataset) (stage_labels : list Z) :
  NoDup (concat (map snd (GraphFewShotDataModule.data_list_by_label self))) ->
  NoDup (stage_pool self stage_labels).
Proof. apply NoDup_concat_filter. Qed.

Lemma stage_pool_labels {dataset : Type}
    (self : GraphFewShotDataModule.t dataset) (stage_labels : list Z)
    (h : heap) (s : loc) :
  (forall k ss s, (k, ss) ∈ GraphFewShotDataModule.data_list_by_label self ->
                  s ∈ ss -> y (h s) = k) ->
  s ∈ stage_pool self stage_labels -> y (h s) ∈ stage_labels.
Proof.
  intros Hkey Hs. unfold stage_pool, flatten in Hs.
  apply list_elem_of_In, in_concat in Hs as (ss & Hss & Hs).
  apply in_map_iff in Hss as ([k ss'] & <- & Hin).
  apply list_elem_of_In, list_elem_of_filter in Hin as [Hk Hin]. simpl in *.
  rewrite (Hkey k ss' s Hin); [exact Hk|]. now apply list_elem_of_In.
Qed.

Lemma zip_seq_indices (l : list Z) (k : nat) :
  map (fun il : nat * Z => Z.of_nat (fst il)) (zip (seq k (length l)) l)
  = map Z.of_nat (seq k (length l)).
Proof.
  revert k. induction l as [|x l IH]; intros k; simpl; [reflexivity|].
  now rewrite IH.
Qed.

Lemma enumerate_indices (l : list Z) :
  map (fun il : nat * Z => Z.of_nat (fst il)) (enumerate (sorted l))
  = map Z.of_nat (seq 0 (length l)).
Proof.
  unfold enumerate. rewrite zip_seq_indices.
  now rewrite (Permutation_length (sorted_Permutation l)).
Qed.

Lemma convert_reads_labels_split {dataset : Type}
    (self self' : GraphFewShotDataModule.t dataset) (samples : list loc)
    (stage : string) (h : heap) :
  GraphFewShotDataModule.labels_split self'
    = GraphFewShotDataModule.labels_split self ->
  GraphTransferDataModule.convert_to_local_labels self' samples stage h
  = GraphTransferDataModule.convert_to_local_labels self samples stage h.
Proof.
  intros H. unfold GraphTransferDataModule.convert_to_local_labels. now rewrite H.
Qed.

Lemma setters_keep_fields {dataset : Type}
    (self : GraphFewShotDataModule.t dataset) (d1 : option dataset)
    (d2 : option (list dataset)) :
  let self' := set_val_datasets d2 (set_train_dataset d1 self) in
  GraphFewShotDataModule.labels_split self'
    = GraphFewShotDataModule.labels_split self /\
  GraphFewShotDataModule.novel_labels self'
    = GraphFewShotDataModule.novel_labels self /\
  GraphFewShotDataModule.num_test_episodes self'
    = GraphFewShotDataModule.num_test_episodes self /\
  GraphFewShotDataModule.class_to_label_dict self'
    = GraphFewShotDataModule.class_to_label_dict self /\
  GraphFewShotDataModule.episode_hparams self'
    = GraphFewShotDataModule.episode_hparams self.
Proof. destruct self. simpl. repeat split; reflexivity. Qed.

Lemma set_test_datasets_read {dataset : Type}
    (self : GraphFewShotDataModule.t dataset) (v : option (list dataset)) :
  GraphFewShotDataModule.test_datasets (set_test_datasets v self) = v.
Proof. destruct self. reflexivity. Qed.

Lemma setup_relabels_before_sampling {dataset : Type}
    (shuffle : list nat -> list nat)
    (TransferSourceDataset : list loc -> heap -> result dataset)
    (MapEpisodicDataset :
       list loc -> Z -> list Z -> list (string * Z) -> EpisodeHParams ->
       bool -> heap -> result dataset)
    (self self' : GraphFewShotDataModule.t dataset) (stage : option string)
    (h h' : heap) :
  fit_stage stage = true ->
  pool_invariant self h ->
  GraphTransferDataModule.setup shuffle TransferSourceDataset MapEpisodicDataset
    self stage h = Ok (self', h') ->
  relabelled_before_sampling MapEpisodicDataset self self' h h'.
Proof.
  intros Hfit (Hsplit & Hnb & Hnn & Hdisj & Hnd & Hkey) Hrun.
  unfold GraphTransferDataModule.setup in Hrun. rewrite Hfit in Hrun.
  change (GraphFewShotDataModule.split_base_novel_samples self)
    with [ ("base"%string, stage_pool self (GraphFewShotDataModule.base_labels self));
           ("novel"%string, stage_pool self (GraphFewShotDataModule.novel_labels self)) ]
    in Hrun.
  set (base_samples := stage_pool self (GraphFewShotDataModule.base_labels self)) in *.
  set (novel_samples := stage_pool self (GraphFewShotDataModule.novel_labels self)) in *.
  simpl in Hrun.
  apply bind_Ok in Hrun as ([m_base h1] & Hbase & Hrun). simpl in Hrun.
  apply bind_Ok in Hrun as ([train val] & _ & Hrun). simpl in Hrun.
  apply bind_Ok in Hrun as (train_dataset & _ & Hrun).
  apply bind_Ok in Hrun as (val_dataset & _ & Hrun).
  apply bind_Ok in Hrun as ([m_novel h2] & Hnovel & Hrun). simpl in Hrun.
  apply bind_Ok in Hrun as (test_dataset & Htest & Hrun).
  injection Hrun as <- <-.
  destruct (setters_keep_fields self (Some train_dataset) (Some [val_dataset]))
    as (Els & Enl & Ent & Ecd & Ehp).
  rewrite (convert_reads_labels_split self _ _ _ _ Els) in Hnovel.
  rewrite Enl, Ent, Ecd, Ehp, enumerate_indices in Htest.
  (* the base pass *)
  assert (Hgb : getitem (GraphFewShotDataModule.labels_split self) "base"
                = Ok (GraphFewShotDataModule.base_labels self))
    by now rewrite Hsplit.
  assert (Hgn : getitem (GraphFewShotDataModule.labels_split self) "novel"
                = Ok (GraphFewShotDataModule.novel_labels self))
    by now rewrite Hsplit.
  destruct (convert_to_local_labels_relabels self base_samples "base" _ h Hgb Hnb)
    as (mb & hb & Hb & _ & Rb).
  { now apply stage_pool_NoDup. }
  { intros s Hs. now apply (stage_pool_labels self _ h s Hkey). }
  rewrite Hbase in Hb. injection Hb as <- <-.
  assert (Hapart : forall s, s ∈ novel_samples -> s ∉ base_samples).
  { intros s Hn Hb. apply (Hdisj (y (h s))).
    - now apply (stage_pool_labels self _ h s Hkey).
    - now apply (stage_pool_labels self _ h s Hkey). }
  assert (Hkeep : forall s, s ∈ novel_samples -> h1 s = h s).
  { intros s Hs. destruct Rb as (_ & _ & _ & Hframe). apply Hframe. now apply Hapart. }
  (* the novel pass *)
  destruct (convert_to_local_labels_relabels self novel_samples "novel" _ h1 Hgn Hnn)
    as (mn & hn & Hn & _ & Rn).
  { now apply stage_pool_NoDup. }
  { intros s Hs. rewrite (Hkeep s Hs).
    now apply (stage_pool_labels self _ h s Hkey). }
  rewrite Hnovel in Hn. injection Hn as <- <-.
  exists m_base, h1, m_novel, test_dataset.
  repeat split; try assumption; try apply Rb; try apply Rn.
  - intros s Hs. destruct Rn as (_ & _ & _ & Hframe). apply Hframe.
    intros Hn. now apply (Hapart s Hn).
  - apply set_test_datasets_read.
Qed.

(** C8: for a stage (base or novel) with distinct labels and a list of
    distinct in-scope samples, [convert_to_local_labels] returns the mapping
    that sends the i-th smallest stage label to i, a dense range below the
    number of labels, and leaves every sample of the list with the mapping
    of its previous label, the other graphs untouched; [setup] runs it once
    on the base pool and once on the novel pool, before it builds the
    dataset that samples the novel episodes, which gets the local labels. *)
Theorem local_labels_once_per_stage {dataset : Type}
    (self : GraphFewShotDataModule.t dataset) (h : heap) :
  (forall samples stage stage_labels,
     getitem (GraphFewShotDataModule.labels_split self) stage = Ok stage_labels ->
     NoDup stage_labels ->
     NoDup samples ->
     (forall s, s ∈ samples -> y (h s) ∈ stage_labels) ->
     exists m h',
       GraphTransferDataModule.convert_to_local_labels self samples stage h
         = Ok (m, h') /\
       relabelled stage_labels samples h m h' /\
       Sorted Z.le (sorted stage_labels)) /\
  (forall shuffle TransferSourceDataset MapEpisodicDataset stage self' h',
     fit_stage stage = true ->
     pool_invariant self h ->
     GraphTransferDataModule.setup shuffle TransferSourceDataset
       MapEpisodicDataset self stage h = Ok (self', h') ->
     relabelled_before_sampling MapEpisodicDataset self self' h h').
Proof.
  split.
  - intros samples stage stage_labels Hstage Hnd Hsamples Hscope.
    destruct (convert_to_local_labels_relabels self samples stage stage_labels h
                Hstage Hnd Hsamples Hscope) as (m & h' & Hrun & _ & Hrel).
    exists m, h'. repeat split; try apply Hrel; try exact Hrun.
    apply sorted_increasing.
  - intros shuffle TSD MED stage self' h' Hfit Hinv Hrun.
    now apply (setup_relabels_before_sampling shuffle TSD MED self self' stage h h').
Qed.

(** Membership and non-membership in a list given by its elements. *)
Ltac list_member :=
  simpl;
  first [ apply list_elem_of_In; simpl; lia
        | let Hx := fresh in
          intros Hx; apply list_elem_of_In in Hx; simpl in Hx; lia ].

Lemma cosine_targets_order_witness :
  exists b,
    EpisodeBatch.from_episode_list num_graphs [episode_a; episode_b]
      two_way_one_shot = Ok b /\
    cosine_targets_layout [episode_a; episode_b] two_way_one_shot b.
Proof.
  eexists. split; [reflexivity|].
  apply (cosine_targets_order num_graphs).
  - discriminate.
  - repeat constructor.
  - reflexivity.
Defined.

(** C1 as stated fails: an episode with one query where N*Q = 2 are
    expected is collated, and its targets have length 2, not B*N*Q*N = 4. *)
Lemma short_episode_breaks_layout :
  exists b,
    [short_episode] <> [] /\
    EpisodeBatch.from_episode_list num_graphs [short_episode] two_way_one_shot
      = Ok b /\
    values (EpisodeBatch.cosine_targets b) = [-1; 1]%Z /\
    ~ cosine_targets_layout [short_episode] two_way_one_shot b.
Proof.
  eexists. split; [discriminate|]. split; [reflexivity|]. split; [reflexivity|].
  intros [Hlen _]. simpl in Hlen. discriminate.
Qed.

Lemma label_targets_roundtrip_witness :
  exists b,
    EpisodeBatch.from_episode_list num_graphs [episode_a; episode_b]
      two_way_one_shot = Ok b /\
    targets_roundtrip [episode_a; episode_b] two_way_one_shot b.
Proof.
  eexists. split; [reflexivity|].
  apply (label_targets_roundtrip num_graphs).
  - repeat constructor; list_member.
  - repeat constructor; list_member.
  - reflexivity.
Defined.

(** C2 as stated fails: the short episode has two distinct labels and its
    query carries one of them, and its targets reshape to one row where
    B*N*Q = 2 rows are expected; with two entries they cannot be reshaped
    to (B*N*Q, N). *)
Lemma short_episode_has_one_row :
  exists b rws,
    Forall (distinct_labels two_way_one_shot) [short_episode] /\
    Forall queries_among_labels [short_episode] /\
    EpisodeBatch.from_episode_list num_graphs [short_episode] two_way_one_shot
      = Ok b /\
    reshape (values (EpisodeBatch.cosine_targets b)) 2 = Ok rws /\
    length rws = 1 /\
    length rws <> length [short_episode] * 2 * 1 /\
    length (values (EpisodeBatch.cosine_targets b))
      <> length [short_episode] * 2 * 1 * 2.
Proof.
  eexists _, _. split.
  { repeat constructor; list_member. }
  split.
  { repeat constructor; list_member. }
  split; [reflexivity|]. split; [reflexivity|]. split; [reflexivity|].
  split; simpl; lia.
Qed.

Lemma collate_all_at_once_witness :
  exists b,
    EpisodeBatch.from_episode_list num_graphs [episode_a; episode_b]
      two_way_one_shot = Ok b /\
    collated_alike num_graphs [episode_a; episode_b] two_way_one_shot b.
Proof.
  eexists. split; [reflexivity|].
  apply (collate_all_at_once num_graphs).
  - repeat constructor; list_member.
  - reflexivity.
Defined.

(** C5 as stated fails: an episode with three supports where N*K = 2 are
    expected is collated without any error. *)
Lemma long_episode_is_collated :
  ~ exact_lengths two_way_one_shot long_episode /\
  succeeds (EpisodeBatch.from_episode_list num_graphs [long_episode]
              two_way_one_shot) /\
  ~ raises (EpisodeBatch.from_episode_list num_graphs [long_episode]
              two_way_one_shot) ShapeMismatchError.
Proof.
  split; [intros [H _]; simpl in H; discriminate|].
  split; [eexists; reflexivity | discriminate].
Qed.

Lemma collation_has_no_shape_check_witness :
  succeeds (EpisodeBatch.from_episode_list num_graphs [episode_a; episode_b]
              two_way_one_shot).
Proof.
  apply (proj2 (collation_has_no_shape_check num_graphs [episode_a; episode_b]
                  two_way_one_shot)).
  - discriminate.
  - repeat constructor.
  - discriminate.
  - simpl; lia.
  - simpl; lia.
  - simpl; lia.
Defined.

Lemma assignment_vectors_blocks_witness :
  exists b,
    EpisodeBatch.from_episode_list num_graphs [episode_a; episode_b]
      two_way_one_shot = Ok b /\
    assignment_layout [episode_a; episode_b] two_way_one_shot b.
Proof.
  eexists. split; [reflexivity|].
  apply (assignment_vectors_blocks num_graphs). reflexivity.
Defined.

(** C7 as stated fails: the long episode, first of two, has three
    supports where N*K = 2 are expected; the two are collated, the third of
    the five collated supports comes from episode 0 and the entry at its
    position is 1, and there are four entries for five graphs. *)
Lemma long_episode_supports_mistagged :
  exists b support,
    EpisodeBatch.from_episode_list num_graphs [long_episode; episode_b]
      two_way_one_shot = Ok b /\
    dict_get "support"%string (EpisodeBatch.assignment_vectors b) = Some support /\
    data_list (EpisodeBatch.supports b)
      = Episode.supports long_episode ++ Episode.supports episode_b /\
    2 < length (Episode.supports long_episode) /\
    concat (values support) !! 2 = Some 1%Z /\
    length (data_list (EpisodeBatch.supports b)) = 5 /\
    length (concat (values support)) = 4.
Proof.
  eexists _, _. split; [reflexivity|]. split; [reflexivity|].
  split; [reflexivity|]. split; [simpl; lia|].
  split; [reflexivity|]. split; reflexivity.
Qed.



(** C9 as stated fails: of the base pool of the example, whose class 2 has
    two graphs, both go to the supports, not the ceiling of half of them. *)
Lemma base_pool_split_not_per_class :
  let self := example_datamodule unit in
  let pool := stage_pool self (GraphFewShotDataModule.base_labels self) in
  pool = [0; 1; 2; 3] /\
  GraphFewShotDataModule.split_query_support
    (fun idxs => idxs) (fun _ => Raise FileNotFoundError) self pool
    = Ok (SplitSamples [0; 1] [2; 3]) /\
  ~ per_class_split example_heap (GraphFewShotDataModule.support_ratio self)
      pool [0; 1] [2; 3].
Proof.
  split; [reflexivity|]. split; [reflexivity|].
  intros H. destruct (H 2%Z) as [_ Hc]. vm_compute in Hc. discriminate.
Qed.

Lemma split_query_support_whole_pool_witness :
  whole_pool_split (fun idxs => idxs) (fun _ => Raise FileNotFoundError)
    (example_datamodule unit) [0; 1; 2; 3] example_heap.
Proof.
  apply (split_query_support_whole_pool (fun idxs => idxs)).
  - reflexivity.
  - reflexivity.
Defined.

Lemma example_pool_invariant :
  pool_invariant (example_datamodule (list Z)) example_heap.
Proof.
  repeat split.
  - repeat constructor; list_member.
  - repeat constructor; list_member.
  - intros label Hb Hn. apply list_elem_of_In in Hb, Hn. simpl in *. lia.
  - simpl. repeat constructor; list_member.
  - intros k ss s Hin Hs. apply list_elem_of_In in Hin, Hs. simpl in Hin.
    repeat (destruct Hin as [Hin|Hin];
            [injection Hin as <- <-; simpl in Hs;
             intuition (subst; reflexivity)|]).
    destruct Hin.
Qed.

Lemma local_labels_once_per_stage_witness :
  (exists m h',
     GraphTransferDataModule.convert_to_local_labels
       (example_datamodule (list Z)) [0; 1; 2; 3] "base" example_heap
       = Ok (m, h') /\
     relabelled [2; 5; 10]%Z [0; 1; 2; 3] example_heap m h' /\
     Sorted Z.le (sorted [2; 5; 10]%Z)) /\
  (exists self' h',
     GraphTransferDataModule.setup (fun idxs => idxs) labels_at_construction
       example_MapEpisodicDataset (example_datamodule (list Z)) (Some "fit"%string)
       example_heap = Ok (self', h') /\
     relabelled_before_sampling example_MapEpisodicDataset
       (example_datamodule (list Z)) self' example_heap h').
Proof.
  destruct (local_labels_once_per_stage (example_datamodule (list Z)) example_heap)
    as [Hconvert Hsetup].
  split.
  - apply Hconvert.
    + reflexivity.
    + repeat constructor; list_member.
    + repeat constructor; list_member.
    + intros s Hs. apply list_elem_of_In in Hs. simpl in Hs.
      intuition (subst; list_member).
  - eexists _, _. split; [vm_compute; reflexivity|].
    apply (Hsetup (fun idxs => idxs) labels_at_construction
             example_MapEpisodicDataset (Some "fit"%string)).
    + reflexivity.
    + exact example_pool_invariant.
    + vm_compute; reflexivity.
Defined.

(** * Further properties of the code *)

(** ** More on collation *)

Lemma argmax_from_top (row : list Z) (best_i i : nat) :
  Forall (fun v => (v <= 1)%Z) row -> argmax_from best_i 1 i row = best_i.
Proof.
  intros H. revert i. induction H as [|v row Hv _ IH]; intros i; simpl; [reflexivity|].
  destruct (1 <? v)%Z eqn:E; [apply Z.ltb_lt in E; lia|]. apply IH.
Qed.

Lemma cosine_row_le_1 (query : Data) (ls : list Z) :
  Forall (fun v => (v <= 1)%Z) (map (cosine_target query) ls).
Proof.
  apply Forall_map, Forall_forall. intros l _. simpl.
  rewrite cosine_target_cases. case_decide; lia.
Qed.

Lemma argmax_from_bottom (query : Data) (ls : list Z) (best_i i : nat) :
  argmax_from best_i (-1) i (map (cosine_target query) ls)
  = match position (y query) ls with
    | Some c => i + c
    | None => best_i
    end.
Proof.
  revert i. induction ls as [|l ls IH]; intros i; simpl; [reflexivity|].
  rewrite cosine_target_cases.
  destruct (decide (y query = l)) as [->|Hne].
  - rewrite decide_True by reflexivity. simpl.
    rewrite argmax_from_top by apply cosine_row_le_1. lia.
  - rewrite decide_False by congruence. simpl. rewrite IH.
    destruct (position (y query) ls); simpl; [lia | reflexivity].
Qed.

Lemma argmax_cosine_row (query : Data) (ls : list Z) :
  argmax (map (cosine_target query) ls) = default 0 (position (y query) ls).
Proof.
  destruct ls as [|l ls]; simpl; [reflexivity|].
  rewrite cosine_target_cases.
  destruct (decide (y query = l)) as [->|Hne].
  - rewrite decide_True by reflexivity.
    now rewrite argmax_from_top by apply cosine_row_le_1.
  - rewrite decide_False by congruence. rewrite argmax_from_bottom.
    now destruct (position (y query) ls).
Qed.

Lemma position_lookup (x : Z) (ls : list Z) (c : nat) :
  NoDup ls -> ls !! c = Some x -> position x ls = Some c.
Proof.
  intros Hnd. revert c. induction Hnd as [|l ls Hl _ IH]; intros c Hc; [discriminate|].
  destruct c as [|c]; simpl in *.
  - injection Hc as ->. now rewrite decide_True.
  - rewrite decide_False.
    + now rewrite (IH c Hc).
    + intros ->. apply Hl. apply list_elem_of_lookup. eauto.
Qed.

Lemma position_None (x : Z) (ls : list Z) : x ∉ ls -> position x ls = None.
Proof.
  induction ls as [|l ls IH]; simpl; intros Hx; [reflexivity|].
  apply not_elem_of_cons in Hx as [Hne Hx].
  rewrite decide_False by congruence. now rewrite IH.
Qed.

(** The label target of every query, whatever the labels of the episode. *)
Lemma label_target_lookup (Batch_len : Batch -> nat)
    (el : list Episode.t) (hp : EpisodeHParams) (b : EpisodeBatch.t)
    (e q : nat) (episode : Episode.t) (query : Data) :
  Forall (exact_queries hp) el ->
  EpisodeBatch.from_episode_list Batch_len el hp = Ok b ->
  el !! e = Some episode ->
  Episode.queries episode !! q = Some query ->
  values (EpisodeBatch.label_targets b)
    !! (e * (num_classes_per_episode hp * num_queries_per_class hp) + q)
  = Some (Z.of_nat (default 0 (position (y query) (Episode.labels episode)))).
Proof.
  intros Hx Hb He Hq.
  apply from_episode_list_Ok in Hb
    as (_ & _ & _ & _ & _ & _ & _ & _ & _ & _ & _ & _ & rws & Hr & ->).
  assert (Hn : num_classes_per_episode hp <> 0) by (eapply reshape_Ok_width; exact Hr).
  rewrite cosine_values_rows, reshape_concat in Hr; [|exact Hn|].
  2:{ apply cosine_rows_uniform. eapply Forall_impl; [exact Hx|]. now intros ? [_ ?]. }
  injection Hr as <-. simpl. rewrite list_lookup_fmap.
  assert (Hrow : cosine_rows el
                   !! (e * (num_classes_per_episode hp * num_queries_per_class hp) + q)
                 = Some (map (cosine_target query) (Episode.labels episode))).
  { unfold cosine_rows. rewrite flat_map_concat_map.
    eapply lookup_concat_uniform.
    - apply Forall_map. eapply Forall_impl; [exact Hx|]. intros ep [Hl _]. simpl.
      unfold episode_cosine_rows. now rewrite length_map.
    - rewrite list_lookup_fmap, He. reflexivity.
    - unfold episode_cosine_rows. rewrite list_lookup_fmap, Hq. reflexivity. }
  rewrite Hrow. simpl. now rewrite argmax_cosine_row.
Qed.

(** The signed target of every (query, label) pair. *)
Lemma cosine_target_lookup (Batch_len : Batch -> nat)
    (el : list Episode.t) (hp : EpisodeHParams) (b : EpisodeBatch.t)
    (e q c : nat) (episode : Episode.t) (query : Data) (label : Z) :
  Forall (exact_queries hp) el ->
  EpisodeBatch.from_episode_list Batch_len el hp = Ok b ->
  el !! e = Some episode ->
  Episode.queries episode !! q = Some query ->
  Episode.labels episode !! c = Some label ->
  values (EpisodeBatch.cosine_targets b)
    !! (e * (num_classes_per_episode hp * num_queries_per_class hp
             * num_classes_per_episode hp)
        + q * num_classes_per_episode hp + c)
  = Some (if decide (y query = label) then 1%Z else (-1)%Z).
Proof.
  intros Hx Hb He Hq Hc.
  apply from_episode_list_Ok in Hb
    as (_ & _ & _ & _ & _ & _ & _ & _ & _ & _ & _ & -> & _).
  pose proof (cosine_blocks_uniform hp el Hx) as Hblocks.
  unfold cosine_values. simpl. rewrite <- Nat.add_assoc.
  eapply lookup_concat_uniform; [exact Hblocks| |].
  - rewrite list_lookup_fmap, He. reflexivity.
  - rewrite Forall_forall in Hx. destruct (Hx episode) as [_ Hl].
    { apply list_elem_of_lookup. eauto. }
    rewrite <- Hl.
    eapply lookup_concat_uniform; [apply episode_cosine_rows_uniform| |].
    + unfold episode_cosine_rows. rewrite list_lookup_fmap, Hq. reflexivity.
    + rewrite list_lookup_fmap, Hc. simpl. now rewrite cosine_target_cases.
Qed.

(** X1: when every episode has N*Q queries and N labels, [label_targets]
    has one entry per query, B*N*Q in all, and the entry of query q of
    episode e is the position, among the labels of e, of the first label
    equal to the label of q; with distinct labels it is the position of the
    label of q. *)
Theorem label_targets_are_positions (Batch_len : Batch -> nat)
    (el : list Episode.t) (hp : EpisodeHParams) (b : EpisodeBatch.t) :
  Forall (exact_queries hp) el ->
  EpisodeBatch.from_episode_list Batch_len el hp = Ok b ->
  let N := num_classes_per_episode hp in
  let Q := num_queries_per_class hp in
  length (values (EpisodeBatch.label_targets b)) = length el * N * Q /\
  (forall e q c episode query,
     el !! e = Some episode ->
     Episode.queries episode !! q = Some query ->
     position (y query) (Episode.labels episode) = Some c ->
     values (EpisodeBatch.label_targets b) !! (e * (N * Q) + q)
       = Some (Z.of_nat c) /\ c < N) /\
  (forall e q c episode query,
     el !! e = Some episode ->
     Episode.queries episode !! q = Some query ->
     NoDup (Episode.labels episode) ->
     Episode.labels episode !! c = Some (y query) ->
     values (EpisodeBatch.label_targets b) !! (e * (N * Q) + q)
       = Some (Z.of_nat c)).
Proof.
  intros Hx Hb N Q. split; [|split].
  - pose proof Hb as Hb'.
    apply from_episode_list_Ok in Hb'
      as (_ & _ & _ & _ & _ & _ & _ & _ & _ & _ & _ & _ & rws & Hr & ->).
    assert (Hn : N <> 0) by (eapply reshape_Ok_width; exact Hr).
    rewrite cosine_values_rows, reshape_concat in Hr; [|exact Hn|].
    2:{ apply cosine_rows_uniform. eapply Forall_impl; [exact Hx|]. now intros ? [_ ?]. }
    injection Hr as <-. simpl. rewrite length_map, length_cosine_rows.
    rewrite (length_flat_map_uniform _ (N * Q)); [lia|].
    eapply Forall_impl; [exact Hx|]. now intros ? [? _].
  - intros e q c episode query He Hq Hc. unfold N, Q.
    rewrite (label_target_lookup Batch_len el hp b e q episode query Hx Hb He Hq), Hc.
    split; [reflexivity|].
    rewrite Forall_forall in Hx. destruct (Hx episode) as [_ Hl].
    { apply list_elem_of_lookup. eauto. }
    unfold N. rewrite <- Hl. clear -Hc.
    revert c Hc. induction (Episode.labels episode) as [|l ls IH]; intros c Hc;
      simpl in *; [discriminate|].
    case_decide; [injection Hc as <-; lia|].
    destruct (position (y query) ls) as [c'|]; simpl in Hc; [|discriminate].
    injection Hc as <-. specialize (IH c' eq_refl). lia.
  - intros e q c episode query He Hq Hnd Hc. unfold N, Q.
    rewrite (label_target_lookup Batch_len el hp b e q episode query Hx Hb He Hq).
    now rewrite (position_lookup _ _ _ Hnd Hc).
Qed.

(** X2: a query whose label is not among the labels of its episode gets
    the row of all -1 and the label target 0, the target of a query of the
    first class; nothing is raised. *)
Theorem foreign_query_gets_target_zero (Batch_len : Batch -> nat)
    (el : list Episode.t) (hp : EpisodeHParams) (b : EpisodeBatch.t)
    (e q : nat) (episode : Episode.t) (query : Data) :
  Forall (exact_queries hp) el ->
  EpisodeBatch.from_episode_list Batch_len el hp = Ok b ->
  el !! e = Some episode ->
  Episode.queries episode !! q = Some query ->
  y query ∉ Episode.labels episode ->
  let N := num_classes_per_episode hp in
  let Q := num_queries_per_class hp in
  values (EpisodeBatch.label_targets b) !! (e * (N * Q) + q) = Some 0%Z /\
  (forall c, c < N ->
     values (EpisodeBatch.cosine_targets b) !! (e * (N * Q * N) + q * N + c)
       = Some (-1)%Z).
Proof.
  intros Hx Hb He Hq Hout N Q. split.
  - unfold N, Q.
    rewrite (label_target_lookup Batch_len el hp b e q episode query Hx Hb He Hq).
    now rewrite position_None.
  - intros c Hc.
    assert (Hl : length (Episode.labels episode) = N).
    { rewrite Forall_forall in Hx. destruct (Hx episode) as [_ Hl]; [|exact Hl].
      apply list_elem_of_lookup. eauto. }
    destruct (lookup_lt_is_Some_2 (Episode.labels episode) c) as [label Hlabel]; [lia|].
    unfold N, Q.
    rewrite (cosine_target_lookup Batch_len el hp b e q c episode query label
               Hx Hb He Hq Hlabel).
    rewrite decide_False; [reflexivity|].
    intros Heq. apply Hout. rewrite Heq. apply list_elem_of_lookup. eauto.
Qed.

(** X3: the [labels] of a batch are the labels of the episodes one episode
    after the other; when every episode has N labels there are B*N of them
    and the c-th label of episode e is at e*N + c. The batch records the
    number of episodes and the hyperparameters it was built with. *)
Theorem batch_labels_layout (Batch_len : Batch -> nat)
    (el : list Episode.t) (hp : EpisodeHParams) (b : EpisodeBatch.t) :
  Forall (fun episode => length (Episode.labels episode)
                         = num_classes_per_episode hp) el ->
  EpisodeBatch.from_episode_list Batch_len el hp = Ok b ->
  let N := num_classes_per_episode hp in
  length (values (EpisodeBatch.labels b)) = length el * N /\
  (forall e c episode label,
     el !! e = Some episode ->
     Episode.labels episode !! c = Some label ->
     values (EpisodeBatch.labels b) !! (e * N + c) = Some label) /\
  EpisodeBatch.num_episodes b = length el /\
  EpisodeBatch.episode_hparams b = hp.
Proof.
  intros Hl Hb N.
  apply from_episode_list_Ok in Hb
    as (_ & _ & _ & _ & _ & -> & -> & _ & _ & _ & -> & _).
  simpl. repeat split.
  - now apply length_flat_map_uniform.
  - intros e c episode label He Hc. rewrite flat_map_concat_map.
    eapply lookup_concat_uniform; [| |exact Hc].
    + apply Forall_map. exact Hl.
    + now rewrite list_lookup_fmap, He.
Qed.

Lemma sum_num_nodes_app (l1 l2 : list Data) :
  sum_num_nodes (l1 ++ l2) = (sum_num_nodes l1 + sum_num_nodes l2)%Z.
Proof.
  unfold sum_num_nodes. rewrite foldr_app.
  induction l1 as [|x l1 IH]; simpl; lia.
Qed.

Lemma sum_Z_per_episode (f : Episode.t -> list Data) (el : list Episode.t) :
  sum_Z (map (fun episode => sum_num_nodes (f episode)) el)
  = sum_num_nodes (flat_map f el).
Proof.
  induction el as [|episode el IH]; simpl; [reflexivity|].
  now rewrite sum_num_nodes_app, <- IH.
Qed.

(** X4: [supports_len] and [queries_len] have one entry per episode, the
    number of nodes of the supports (queries) of that episode, and their
    sums are the numbers of nodes of the two collated batches. *)
Theorem lens_count_the_nodes (Batch_len : Batch -> nat)
    (el : list Episode.t) (hp : EpisodeHParams) (b : EpisodeBatch.t) :
  EpisodeBatch.from_episode_list Batch_len el hp = Ok b ->
  length (values (EpisodeBatch.supports_len b)) = length el /\
  length (values (EpisodeBatch.queries_len b)) = length el /\
  (forall e episode,
     el !! e = Some episode ->
     values (EpisodeBatch.supports_len b) !! e
       = Some (sum_num_nodes (Episode.supports episode)) /\
     values (EpisodeBatch.queries_len b) !! e
       = Some (sum_num_nodes (Episode.queries episode))) /\
  sum_Z (values (EpisodeBatch.supports_len b))
    = sum_num_nodes (data_list (EpisodeBatch.supports b)) /\
  sum_Z (values (EpisodeBatch.queries_len b))
    = sum_num_nodes (data_list (EpisodeBatch.queries b)).
Proof.
  intros Hb.
  apply from_episode_list_Ok in Hb
    as (_ & _ & _ & -> & -> & _ & _ & _ & -> & -> & _).
  simpl. rewrite !length_map. repeat split.
  - rewrite list_lookup_fmap, H. reflexivity.
  - rewrite list_lookup_fmap, H. reflexivity.
  - apply sum_Z_per_episode.
  - apply sum_Z_per_episode.
Qed.

Lemma num_pairs_length (el : list Episode.t) :
  length (cosine_values el) = num_pairs el.
Proof. apply length_cosine_values. Qed.

Lemma num_pairs_zero (el : list Episode.t) :
  num_pairs el = 0 <->
  Forall (fun episode => Episode.queries episode = []
                         \/ Episode.labels episode = []) el.
Proof.
  induction el as [|episode el IH]; simpl.
  - split; [constructor | reflexivity].
  - rewrite Forall_cons, <- IH, Nat.eq_add_0, Nat.eq_mul_0.
    now rewrite !length_zero_iff_nil.
Qed.

(** X5: collation returns a batch exactly when the episodes hold a support
    graph and a (query, label) pair, N and K are not zero, and N divides
    the number of (query, label) pairs. *)
Theorem collation_returns_iff (Batch_len : Batch -> nat)
    (el : list Episode.t) (hp : EpisodeHParams) :
  succeeds (EpisodeBatch.from_episode_list Batch_len el hp) <->
  flat_map Episode.supports el <> [] /\
  num_pairs el <> 0 /\
  num_classes_per_episode hp <> 0 /\
  num_supports_per_class hp <> 0 /\
  num_pairs el mod num_classes_per_episode hp = 0.
Proof.
  rewrite from_episode_list_succeeds_iff, num_pairs_length.
  assert (Hnil : cosine_values el <> [] <-> num_pairs el <> 0).
  { rewrite <- num_pairs_length. split; intros H H'; apply H.
    - now apply length_zero_iff_nil.
    - now rewrite H'. }
  now rewrite Hnil.
Qed.

(** X6: how collation fails. Without a support graph, or without a query
    graph, it raises IndexError, in particular on the empty list; with both
    but no (query, label) pair, or with N zero or not dividing the number of
    pairs, it raises RuntimeError; with K zero, once all that is passed, it
    raises ZeroDivisionError. *)
Theorem collation_failures (Batch_len : Batch -> nat)
    (el : list Episode.t) (hp : EpisodeHParams) :
  let run := EpisodeBatch.from_episode_list Batch_len el hp in
  let N := num_classes_per_episode hp in
  (flat_map Episode.supports el = [] \/ flat_map Episode.queries el = [] ->
   run = Raise IndexError) /\
  (flat_map Episode.supports el <> [] -> flat_map Episode.queries el <> [] ->
   num_pairs el = 0 \/ N = 0 \/ num_pairs el mod N <> 0 ->
   run = Raise RuntimeError) /\
  (flat_map Episode.supports el <> [] -> num_pairs el <> 0 -> N <> 0 ->
   num_pairs el mod N = 0 -> num_supports_per_class hp = 0 ->
   run = Raise ZeroDivisionError).
Proof.
  intros run N. unfold run, EpisodeBatch.from_episode_list.
  split; [|split].
  - intros [Hs|Hq].
    + now rewrite Hs.
    + rewrite Hq. now destruct (flat_map Episode.supports el).
  - intros Hs Hq Hbad.
    rewrite (Batch_from_data_list_nonempty _ Hs). simpl.
    rewrite (Batch_from_data_list_nonempty _ Hq). simpl.
    destruct (decide (num_pairs el = 0)) as [Hz|Hnz].
    + assert (Hnil : flat_map
         (fun episode =>
            map (fun ql : Data * Z => [cosine_target (fst ql) (snd ql)])
              (list_prod (Episode.queries episode) (Episode.labels episode))) el = []).
      { clear -Hz. apply num_pairs_zero in Hz.
        induction Hz as [|episode el He _ IH]; simpl; [reflexivity|].
        rewrite IH, app_nil_r.
        destruct He as [-> | ->]; simpl; [reflexivity|].
        induction (Episode.queries episode); simpl; auto. }
      now rewrite Hnil.
    + rewrite torch_cat_nonempty; rewrite cat_targets_cosine_values.
      2:{ intros Hnil. apply Hnz. now rewrite <- num_pairs_length, Hnil. }
      simpl. unfold reshape. rewrite num_pairs_length. fold N.
      destruct Hbad as [?|[Hn|Hmod]]; [contradiction| |].
      * now rewrite decide_True.
      * case_decide; [reflexivity|]. now rewrite decide_False.
  - intros Hs Hnz Hn Hmod Hk.
    assert (Hsucc : ~ succeeds (EpisodeBatch.from_episode_list Batch_len el hp)).
    { rewrite from_episode_list_succeeds_iff. intros (_ & _ & _ & ? & _). contradiction. }
    rewrite (Batch_from_data_list_nonempty _ Hs). simpl.
    rewrite Batch_from_data_list_nonempty.
    2:{ intros Hq. apply Hnz. apply num_pairs_zero.
        clear -Hq. induction el as [|episode el IH]; [constructor|].
        simpl in Hq. apply app_eq_nil in Hq as [H1 H2].
        constructor; [now left | now apply IH]. }
    simpl. rewrite torch_cat_nonempty; rewrite cat_targets_cosine_values.
    2:{ intros Hnil. apply Hnz. now rewrite <- num_pairs_length, Hnil. }
    simpl. unfold reshape. rewrite num_pairs_length. fold N.
    rewrite decide_False by exact Hn. rewrite decide_True by exact Hmod.
    simpl. unfold EpisodeBatch.__init__. rewrite Hk. reflexivity.
Qed.

(** ** Predicted labels *)

Lemma rows_length (n m : nat) (l : list Z) : length (rows n m l) = m.
Proof. revert l. induction m as [|m IH]; intros l; simpl; [reflexivity|]. now rewrite IH. Qed.

Lemma rows_uniform (n m : nat) (l : list Z) :
  length l = m * n -> Forall (fun r => length r = n) (rows n m l).
Proof.
  revert l. induction m as [|m IH]; intros l Hl; simpl; constructor.
  - rewrite length_take. simpl in Hl. lia.
  - apply IH. rewrite length_drop. simpl in Hl. lia.
Qed.

Lemma concat_rows (n m : nat) (l : list Z) :
  length l = m * n -> concat (rows n m l) = l.
Proof.
  revert l. induction m as [|m IH]; intros l Hl; simpl.
  - symmetry. now apply length_zero_iff_nil.
  - rewrite IH; [apply take_drop|]. rewrite length_drop. simpl in Hl. lia.
Qed.

Lemma reshape_first_exact (l : list Z) (r w : nat) :
  r <> 0 -> length l = r * w -> reshape_first l r = Ok (rows w r l).
Proof.
  intros Hr Hl. unfold reshape_first. rewrite Hl.
  rewrite decide_False by exact Hr.
  rewrite (Nat.mul_comm r w), Nat.Div0.mod_mul, decide_True by reflexivity.
  now rewrite Nat.div_mul.
Qed.

(** An entry of a flat sequence and the same entry in its rows. *)
Lemma rows_lookup (n m : nat) (l : list Z) (e j : nat) (row : list Z) :
  length l = m * n -> rows n m l !! e = Some row -> j < n ->
  row !! j = l !! (e * n + j).
Proof.
  intros Hl He Hj.
  pose proof (rows_uniform n m l Hl) as Hu.
  assert (Hrow : length row = n).
  { rewrite Forall_forall in Hu. apply Hu. apply list_elem_of_lookup. eauto. }
  destruct (lookup_lt_is_Some_2 row j) as [x Hx]; [lia|].
  rewrite Hx. symmetry. rewrite <- (concat_rows n m l Hl) at 1.
  now apply (lookup_concat_uniform n _ e j row).
Qed.

Lemma mapM_Forall2 {A B} (f : A -> result B) (l : list A) :
  Forall (fun x => succeeds (f x)) l ->
  exists ys, mapM f l = Ok ys /\ Forall2 (fun x y0 => f x = Ok y0) l ys.
Proof.
  induction 1 as [|x l [y0 Hy] _ (ys & Hys & IH)].
  - exists []. split; [reflexivity | constructor].
  - exists (y0 :: ys). simpl. rewrite Hy. simpl. rewrite Hys. simpl.
    split; [reflexivity | now constructor].
Qed.

Lemma tensor_getitem_in_range (t : list Z) (p : Z) :
  (0 <= p < Z.of_nat (length t))%Z ->
  exists x, tensor_getitem t p = Ok x /\ t !! Z.to_nat p = Some x.
Proof.
  intros Hp. unfold tensor_getitem. rewrite decide_True by exact Hp.
  destruct (lookup_lt_is_Some_2 t (Z.to_nat p)) as [x Hx]; [lia|].
  exists x. unfold index. now rewrite Hx.
Qed.

(** What [map_pred_labels_to_global] computes on predictions in range. *)
Lemma map_pred_labels_lookup (preds globals : list Z) (B N M : nat) :
  B <> 0 ->
  length globals = B * N ->
  length preds = B * M ->
  Forall (fun p => (0 <= p < Z.of_nat N)%Z) preds ->
  exists out,
    DMLBaseline.map_pred_labels_to_global preds globals B = Ok out /\
    length out = B * M /\
    (forall e q p, e < B -> q < M ->
       preds !! (e * M + q) = Some p ->
       out !! (e * M + q) = globals !! (e * N + Z.to_nat p)).
Proof.
  intros HB Hg Hp Hrange.
  unfold DMLBaseline.map_pred_labels_to_global.
  rewrite (reshape_first_exact globals B N HB Hg). simpl.
  rewrite (reshape_first_exact preds B M HB Hp). simpl.
  set (grows := rows N B globals). set (prows := rows M B preds).
  set (body := fun episode_num : nat =>
      index grows episode_num ≫= fun episode_global_labels =>
      index prows episode_num ≫= fun episode_pred_labels =>
      tensor_gather episode_global_labels episode_pred_labels).
  assert (Hgu : Forall (fun r => length r = N) grows) by now apply rows_uniform.
  assert (Hpu : Forall (fun r => length r = M) prows) by now apply rows_uniform.
  assert (Hbody : forall e, e < B ->
            exists grow prow out_e,
              grows !! e = Some grow /\ prows !! e = Some prow /\
              body e = Ok out_e /\
              Forall2 (fun p x => tensor_getitem grow p = Ok x) prow out_e).
  { intros e He.
    destruct (lookup_lt_is_Some_2 grows e) as [grow Hgrow];
      [unfold grows; now rewrite rows_length|].
    destruct (lookup_lt_is_Some_2 prows e) as [prow Hprow];
      [unfold prows; now rewrite rows_length|].
    assert (Hlg : length grow = N).
    { rewrite Forall_forall in Hgu. apply Hgu, list_elem_of_lookup. eauto. }
    destruct (mapM_Forall2 (tensor_getitem grow) prow) as (out_e & Hout & Hf2).
    { apply Forall_forall. intros p Hin.
      apply list_elem_of_lookup in Hin as [q Hq].
      assert (Hqm : q < M).
      { apply lookup_lt_Some in Hq. rewrite Forall_forall in Hpu.
        rewrite (Hpu prow) in Hq; [exact Hq|]. apply list_elem_of_lookup. eauto. }
      rewrite (rows_lookup M B preds e q prow Hp Hprow Hqm) in Hq.
      rewrite Forall_forall in Hrange.
      destruct (tensor_getitem_in_range grow p) as (x & Hx & _).
      - rewrite Hlg. apply Hrange, list_elem_of_lookup. eauto.
      - now exists x. }
    exists grow, prow, out_e. repeat split; try assumption.
    unfold body, index. rewrite Hgrow, Hprow. exact Hout. }
  destruct (mapM_Forall2 body (seq 0 B)) as (outs & Houts & Hf2).
  { apply Forall_forall. intros e He. apply elem_of_seq in He.
    destruct (Hbody e) as (? & ? & out_e & _ & _ & ? & _); [lia|]. now exists out_e. }
  fold body. rewrite Houts. simpl.
  assert (Hlen : length outs = B).
  { apply Forall2_length in Hf2. now rewrite length_seq in Hf2. }
  assert (Hou : Forall (fun r => length r = M) outs).
  { apply Forall_forall. intros out_e Hin.
    apply list_elem_of_lookup in Hin as [e He].
    assert (HeB : e < B) by (apply lookup_lt_Some in He; lia).
    destruct (Hbody e HeB) as (grow & prow & out_e' & _ & Hprow & Hb & Hg2).
    assert (Hseq : seq 0 B !! e = Some e) by now apply lookup_seq_lt.
    pose proof (Forall2_lookup_lr _ _ _ _ _ _ Hf2 Hseq He) as Hbe.
    simpl in Hbe. rewrite Hb in Hbe. injection Hbe as <-.
    apply Forall2_length in Hg2. rewrite <- Hg2.
    rewrite Forall_forall in Hpu. apply Hpu, list_elem_of_lookup. eauto. }
  destruct outs as [|o outs]; [simpl in Hlen; lia|].
  simpl. eexists. split; [reflexivity|]. split.
  - change (o ++ concat outs) with (concat (o :: outs)).
    now rewrite (length_concat_uniform _ _ Hou), Hlen.
  - intros e q p He Hq Hpq.
    destruct (Hbody e He) as (grow & prow & out_e & Hgrow & Hprow & Hb & Hg2).
    assert (Hseq : seq 0 B !! e = Some e) by now apply lookup_seq_lt.
    destruct (lookup_lt_is_Some_2 (o :: outs) e) as [out_e' He']; [lia|].
    pose proof (Forall2_lookup_lr _ _ _ _ _ _ Hf2 Hseq He') as Hbe.
    simpl in Hbe. rewrite Hb in Hbe. injection Hbe as <-.
    rewrite <- (rows_lookup M B preds e q prow Hp Hprow Hq) in Hpq.
    destruct (Forall2_lookup_l _ _ _ _ _ Hg2 Hpq) as (x & Hx & Hget).
    change (o ++ concat outs) with (concat (o :: outs)).
    rewrite (lookup_concat_uniform M (o :: outs) e q out_e x Hou He' Hx).
    assert (Hlg : length grow = N).
    { rewrite Forall_forall in Hgu. apply Hgu, list_elem_of_lookup. eauto. }
    assert (Hpr : (0 <= p < Z.of_nat N)%Z).
    { rewrite Forall_forall in Hrange. apply Hrange.
      rewrite (rows_lookup M B preds e q prow Hp Hprow Hq) in Hpq.
      apply list_elem_of_lookup. eauto. }
    destruct (tensor_getitem_in_range grow p) as (x' & Hx' & Hlook);
      [now rewrite Hlg|].
    rewrite Hget in Hx'. injection Hx' as <-.
    rewrite <- Hlook. apply (rows_lookup N B globals e (Z.to_nat p) grow Hg Hgrow). lia.
Qed.

(** X8: for B episodes, B*N global labels and B*M predictions that are
    positions 0..N-1, [map_pred_labels_to_global] returns B*M labels, the
    one of prediction q of episode e being the global label of episode e at
    the predicted position. *)
Theorem predictions_read_episode_labels (preds globals : list Z) (B N M : nat) :
  B <> 0 ->
  length globals = B * N ->
  length preds = B * M ->
  Forall (fun p => (0 <= p < Z.of_nat N)%Z) preds ->
  exists out,
    DMLBaseline.map_pred_labels_to_global preds globals B = Ok out /\
    length out = B * M /\
    (forall e q p, e < B -> q < M ->
       preds !! (e * M + q) = Some p ->
       out !! (e * M + q) = globals !! (e * N + Z.to_nat p) /\
       is_Some (out !! (e * M + q))).
Proof.
  intros HB Hg Hp Hrange.
  destruct (map_pred_labels_lookup preds globals B N M HB Hg Hp Hrange)
    as (out & Hout & Hlen & Hlook).
  exists out. repeat split; try assumption.
  - now apply Hlook.
  - apply lookup_lt_is_Some_2. rewrite Hlen. nia.
Qed.

Lemma position_Some_lookup (x : Z) (ls : list Z) (c : nat) :
  position x ls = Some c -> ls !! c = Some x /\ c < length ls.
Proof.
  revert c. induction ls as [|l ls IH]; intros c Hc; simpl in *; [discriminate|].
  case_decide as Hl.
  - injection Hc as <-. subst. split; [reflexivity | lia].
  - destruct (position x ls) as [c'|]; simpl in Hc; [|discriminate].
    injection Hc as <-. destruct (IH c' eq_refl). split; [assumption | lia].
Qed.

Lemma position_elem (x : Z) (ls : list Z) :
  x ∈ ls -> is_Some (position x ls).
Proof.
  induction ls as [|l ls IH]; intros Hx; [now apply elem_of_nil in Hx|].
  simpl. case_decide; [eauto|].
  apply elem_of_cons in Hx as [->|Hx]; [congruence|].
  destruct (IH Hx) as [c ->]. simpl. eauto.
Qed.

(** X9: for episodes with N*Q queries and N labels each, the label of every
    query among the labels of its episode, mapping the [label_targets] of
    the batch back through its [labels] gives the labels of the collated
    queries, in order. *)
Theorem label_targets_map_back (Batch_len : Batch -> nat)
    (el : list Episode.t) (hp : EpisodeHParams) (b : EpisodeBatch.t) :
  Forall (exact_queries hp) el ->
  Forall queries_among_labels el ->
  EpisodeBatch.from_episode_list Batch_len el hp = Ok b ->
  DMLBaseline.map_pred_labels_to_global
    (values (EpisodeBatch.label_targets b)) (values (EpisodeBatch.labels b))
    (EpisodeBatch.num_episodes b)
  = Ok (map y (data_list (EpisodeBatch.queries b))).
Proof.
  intros Hx Hq Hb.
  set (N := num_classes_per_episode hp). set (Q := num_queries_per_class hp).
  pose proof Hb as Hb'.
  apply from_episode_list_Ok in Hb'
    as (_ & Hqne & _ & _ & Hqb & Hlb & _ & _ & _ & _ & Hne & _ & rws & Hr & Hlt).
  assert (HB : length el <> 0).
  { destruct el; [simpl in Hqne; congruence | simpl; lia]. }
  assert (Hqlen : Forall (fun e => length (Episode.queries e) = N * Q) el)
    by (eapply Forall_impl; [exact Hx|]; now intros ? [? _]).
  assert (Hllen : Forall (fun e => length (Episode.labels e) = N) el)
    by (eapply Forall_impl; [exact Hx|]; now intros ? [_ ?]).
  assert (HM : N * Q <> 0) by (eapply flat_map_nonempty_length; eassumption).
  assert (Hlen_lt : length (values (EpisodeBatch.label_targets b))
                    = length el * (N * Q)).
  { rewrite Hlt. simpl. rewrite length_map.
    assert (Hn : N <> 0) by lia.
    rewrite cosine_values_rows, reshape_concat in Hr; [|exact Hn|].
    2:{ now apply cosine_rows_uniform. }
    injection Hr as <-. rewrite length_cosine_rows.
    now apply length_flat_map_uniform. }
  (* every entry of label_targets, and what it points to *)
  assert (Hentry : forall e q, e < length el -> q < N * Q ->
            exists episode query c,
              el !! e = Some episode /\
              Episode.queries episode !! q = Some query /\
              position (y query) (Episode.labels episode) = Some c /\
              values (EpisodeBatch.label_targets b) !! (e * (N * Q) + q)
                = Some (Z.of_nat c)).
  { intros e q He Hq'.
    destruct (lookup_lt_is_Some_2 el e He) as [episode Hep].
    assert (Hin : episode ∈ el) by (apply list_elem_of_lookup; eauto).
    rewrite Forall_forall in Hqlen, Hq.
    destruct (lookup_lt_is_Some_2 (Episode.queries episode) q) as [query Hqu];
      [rewrite (Hqlen _ Hin); exact Hq'|].
    assert (Hamong : y query ∈ Episode.labels episode).
    { specialize (Hq _ Hin). unfold queries_among_labels in Hq.
      rewrite Forall_forall in Hq. apply Hq, list_elem_of_lookup. eauto. }
    destruct (position_elem _ _ Hamong) as [c Hc].
    exists episode, query, c. repeat split; try assumption.
    pose proof (label_target_lookup Batch_len el hp b e q episode query
                  Hx Hb Hep Hqu) as Htarget.
    fold N Q in Htarget. now rewrite Htarget, Hc. }
  destruct (map_pred_labels_lookup (values (EpisodeBatch.label_targets b))
              (values (EpisodeBatch.labels b)) (length el) N (N * Q))
    as (out & Hout & Hlen & Hlook); try assumption.
  { rewrite Hlb. simpl. now apply length_flat_map_uniform. }
  { apply Forall_forall. intros p Hp. apply list_elem_of_lookup in Hp as [i Hi].
    assert (Hi' : i < length el * (N * Q)) by (rewrite <- Hlen_lt; now apply lookup_lt_Some in Hi).
    assert (Hdiv : i = (i / (N * Q)) * (N * Q) + i mod (N * Q)).
    { rewrite Nat.mul_comm. now apply Nat.div_mod. }
    destruct (Hentry (i / (N * Q)) (i mod (N * Q)))
      as (episode & query & c & Hep & _ & Hc & Hval).
    { apply Nat.Div0.div_lt_upper_bound. lia. }
    { now apply Nat.mod_upper_bound. }
    rewrite <- Hdiv, Hi in Hval. injection Hval as ->.
    apply position_Some_lookup in Hc as [_ Hc].
    rewrite Forall_forall in Hllen.
    rewrite (Hllen episode) in Hc; [lia|]. apply list_elem_of_lookup. eauto. }
  rewrite Hne, Hout. f_equal. apply list_eq. intros i.
  destruct (decide (i < length el * (N * Q))) as [Hi|Hi].
  - assert (Hdiv : i = (i / (N * Q)) * (N * Q) + i mod (N * Q)).
    { rewrite Nat.mul_comm. now apply Nat.div_mod. }
    set (e := i / (N * Q)) in *. set (q := i mod (N * Q)) in *.
    assert (He : e < length el) by (apply Nat.Div0.div_lt_upper_bound; lia).
    assert (Hq' : q < N * Q) by now apply Nat.mod_upper_bound.
    destruct (Hentry e q He Hq') as (episode & query & c & Hep & Hqu & Hc & Hval).
    rewrite Hdiv.
    rewrite (Hlook e q (Z.of_nat c) He Hq' Hval).
    rewrite Nat2Z.id. apply position_Some_lookup in Hc as [Hc _].
    rewrite Hlb, Hqb. simpl. rewrite list_lookup_fmap.
    rewrite !flat_map_concat_map.
    rewrite (lookup_concat_uniform N _ e c (Episode.labels episode) (y query)).
    + rewrite (lookup_concat_uniform (N * Q) _ e q (Episode.queries episode) query);
        [reflexivity| | |exact Hqu].
      * now apply Forall_map.
      * now rewrite list_lookup_fmap, Hep.
    + now apply Forall_map.
    + now rewrite list_lookup_fmap, Hep.
    + exact Hc.
  - rewrite !lookup_ge_None_2; [reflexivity| |lia].
    rewrite length_map, Hqb. simpl.
    rewrite (length_flat_map_uniform _ (N * Q)); [lia | assumption].
Qed.

Lemma mapM_raises {A B} (f : A -> result B) (l : list A) (e : exception) :
  Forall (fun x => succeeds (f x) \/ f x = Raise e) l ->
  Exists (fun x => f x = Raise e) l ->
  mapM f l = Raise e.
Proof.
  induction 1 as [|x l Hx _ IH]; intros Hex; [inversion Hex|].
  simpl. destruct Hx as [[y0 Hy]|Hy]; rewrite Hy; simpl; [|reflexivity].
  apply Exists_cons in Hex as [Hex|Hex]; [congruence|].
  now rewrite (IH Hex).
Qed.

Lemma mapM_outcome {A B} (f : A -> result B) (l : list A) (e : exception) :
  Forall (fun x => succeeds (f x) \/ f x = Raise e) l ->
  succeeds (mapM f l) \/ mapM f l = Raise e.
Proof.
  induction 1 as [|x l Hx _ IH]; [left; now exists []|].
  simpl. destruct Hx as [[y0 Hy]|Hy]; rewrite Hy; simpl; [|now right].
  destruct IH as [[ys Hys]|Hys]; rewrite Hys; simpl; [left; now eexists | now right].
Qed.

Lemma tensor_getitem_outcome (t : list Z) (p : Z) :
  let n := Z.of_nat (length t) in
  ((- n <= p < n)%Z -> succeeds (tensor_getitem t p)) /\
  (~ (- n <= p < n)%Z -> tensor_getitem t p = Raise IndexError).
Proof.
  intros n. unfold tensor_getitem. fold n. split.
  - intros Hp. case_decide as H0.
    + destruct (lookup_lt_is_Some_2 t (Z.to_nat p)) as [x Hx]; [lia|].
      exists x. unfold index. now rewrite Hx.
    + rewrite decide_True by lia.
      destruct (lookup_lt_is_Some_2 t (Z.to_nat (p + n))) as [x Hx]; [lia|].
      exists x. unfold index. now rewrite Hx.
  - intros Hp. rewrite !decide_False by lia. reflexivity.
Qed.

Lemma tensor_gather_outcome (t idx : list Z) :
  let n := Z.of_nat (length t) in
  (succeeds (tensor_gather t idx) \/ tensor_gather t idx = Raise IndexError) /\
  (Exists (fun p => ~ (- n <= p < n)%Z) idx ->
   tensor_gather t idx = Raise IndexError).
Proof.
  intros n.
  assert (Hall : Forall (fun p => succeeds (tensor_getitem t p)
                                  \/ tensor_getitem t p = Raise IndexError) idx).
  { apply Forall_forall. intros p _.
    destruct (decide (- n <= p < n)%Z) as [Hp|Hp].
    - left. now apply tensor_getitem_outcome.
    - right. now apply tensor_getitem_outcome. }
  assert (Hbad : Exists (fun p => ~ (- n <= p < n)%Z) idx ->
                 tensor_gather t idx = Raise IndexError).
  { intros Hex. apply mapM_raises; [exact Hall|].
    eapply Exists_impl; [exact Hex|]. intros p Hp. now apply tensor_getitem_outcome. }
  split; [|exact Hbad].
  now apply mapM_outcome.
Qed.

(** X10: [map_pred_labels_to_global] raises RuntimeError for zero episodes
    and when the number of episodes does not divide the number of global
    labels or of predictions, and IndexError when a prediction is not a
    position of an episode label, that is outside -N..N-1. *)
Theorem predictions_out_of_range (preds globals : list Z) (B N M : nat) :
  DMLBaseline.map_pred_labels_to_global preds globals 0 = Raise RuntimeError /\
  (B <> 0 -> length globals mod B <> 0 \/ length preds mod B <> 0 ->
   DMLBaseline.map_pred_labels_to_global preds globals B = Raise RuntimeError) /\
  (B <> 0 -> length globals = B * N -> length preds = B * M ->
   Exists (fun p => ~ (- Z.of_nat N <= p < Z.of_nat N)%Z) preds ->
   DMLBaseline.map_pred_labels_to_global preds globals B = Raise IndexError).
Proof.
  split; [reflexivity|]. split.
  - intros HB Hbad. unfold DMLBaseline.map_pred_labels_to_global, reshape_first.
    destruct (decide (B = 0)) as [?|_]; [contradiction|].
    destruct (decide (length globals mod B = 0)) as [Hg|Hg]; [|reflexivity]. simpl.
    destruct Hbad as [?|Hp]; [contradiction|].
    destruct (decide (length preds mod B = 0)); [contradiction | reflexivity].
  - intros HB Hg Hp Hex. unfold DMLBaseline.map_pred_labels_to_global.
    rewrite (reshape_first_exact globals B N HB Hg). simpl.
    rewrite (reshape_first_exact preds B M HB Hp). simpl.
    set (grows := rows N B globals). set (prows := rows M B preds).
    assert (Hgu : Forall (fun r => length r = N) grows) by now apply rows_uniform.
    rewrite mapM_raises with (e := IndexError); [reflexivity| |].
    + apply Forall_forall. intros e He. apply elem_of_seq in He.
      destruct (lookup_lt_is_Some_2 grows e) as [grow Hgrow];
        [unfold grows; rewrite rows_length; lia|].
      destruct (lookup_lt_is_Some_2 prows e) as [prow Hprow];
        [unfold prows; rewrite rows_length; lia|].
      unfold index. rewrite Hgrow, Hprow. simpl.
      apply tensor_gather_outcome.
    + apply Exists_exists in Hex as (p & Hin & Hout).
      rewrite <- (concat_rows M B preds Hp) in Hin. fold prows in Hin.
      apply list_elem_of_In, in_concat in Hin as (prow & Hprow & Hin).
      apply list_elem_of_In, list_elem_of_lookup in Hprow as [e Hprow].
      assert (He : e < B).
      { apply lookup_lt_Some in Hprow. unfold prows in Hprow.
        now rewrite rows_length in Hprow. }
      destruct (lookup_lt_is_Some_2 grows e) as [grow Hgrow];
        [unfold grows; rewrite rows_length; lia|].
      apply Exists_exists. exists e. split; [apply elem_of_seq; lia|].
      unfold index. rewrite Hgrow, Hprow. simpl.
      apply tensor_gather_outcome. apply Exists_exists. exists p.
      split; [now apply list_elem_of_In|].
      rewrite Forall_forall in Hgu. rewrite (Hgu grow); [exact Hout|].
      apply list_elem_of_lookup. eauto.
Qed.

(** ** Labels of the split and buckets of the constructor *)

Lemma getitem_outcome {V} (d : list (string * V)) (key : string) :
  (forall v, dict_get key d = Some v -> getitem d key = Ok v) /\
  (dict_get key d = None -> getitem d key = Raise KeyError).
Proof. unfold getitem. split; [intros v ->|intros ->]; reflexivity. Qed.

Lemma mapM_getitem (d : list (string * Z)) (classes : list string) (ls : list Z) :
  mapM (getitem d) classes = Ok ls ->
  ls = labels_of d classes /\ length ls = length classes.
Proof.
  revert ls. induction classes as [|c classes IH]; simpl; intros ls H.
  - injection H as <-. split; reflexivity.
  - apply bind_Ok in H as (l & Hl & H). apply bind_Ok in H as (ls' & Hls & H).
    injection H as <-. destruct (IH _ Hls) as [-> Hlen].
    unfold getitem in Hl. unfold labels_of. simpl.
    destruct (dict_get c d); [|discriminate]. injection Hl as ->.
    split; [reflexivity | simpl; now f_equal].
Qed.

(** X11: when [get_labels_split] returns, the base and the novel labels
    are in increasing order and are the labels the dictionary gives to the
    base and to the novel classes, one per class of the split. *)
Theorem labels_split_is_sorted (class_to_label_dict : list (string * Z))
    (base_classes novel_classes : list string)
    (labels_split : list (string * list Z)) :
  GraphFewShotDataModule.get_labels_split class_to_label_dict base_classes
    novel_classes = Ok labels_split ->
  exists base_labels novel_labels,
    labels_split = [ ("base"%string, base_labels); ("novel"%string, novel_labels) ] /\
    Sorted Z.le base_labels /\ Sorted Z.le novel_labels /\
    base_labels ≡ₚ labels_of class_to_label_dict base_classes /\
    novel_labels ≡ₚ labels_of class_to_label_dict novel_classes /\
    length base_labels = length base_classes /\
    length novel_labels = length novel_classes.
Proof.
  unfold GraphFewShotDataModule.get_labels_split. intros H.
  apply bind_Ok in H as (bl & Hb & H). apply bind_Ok in H as (nl & Hn & H).
  injection H as <-.
  apply mapM_getitem in Hb as [-> Hbl]. apply mapM_getitem in Hn as [-> Hnl].
  exists (sorted (labels_of class_to_label_dict base_classes)),
         (sorted (labels_of class_to_label_dict novel_classes)).
  repeat split; try apply sorted_increasing; try apply sorted_Permutation.
  - now rewrite (Permutation_length (sorted_Permutation _)).
  - now rewrite (Permutation_length (sorted_Permutation _)).
Qed.

(** X12: a class of the split that the dictionary does not know makes
    [get_labels_split] raise KeyError. *)
Theorem labels_split_unknown_class (class_to_label_dict : list (string * Z))
    (base_classes novel_classes : list string) (c : string) :
  c ∈ base_classes ++ novel_classes ->
  dict_get c class_to_label_dict = None ->
  GraphFewShotDataModule.get_labels_split class_to_label_dict base_classes
    novel_classes = Raise KeyError.
Proof.
  intros Hin Hout. unfold GraphFewShotDataModule.get_labels_split.
  assert (Hall : forall classes,
            Forall (fun c => succeeds (getitem class_to_label_dict c)
                             \/ getitem class_to_label_dict c = Raise KeyError)
                   classes).
  { intros classes. apply Forall_forall. intros c' _. unfold getitem.
    destruct (dict_get c' class_to_label_dict); [left; now eexists | now right]. }
  assert (Hbad : forall classes, c ∈ classes ->
            mapM (getitem class_to_label_dict) classes = Raise KeyError).
  { intros classes Hc. apply mapM_raises; [apply Hall|].
    apply Exists_exists. exists c. split; [exact Hc|]. now apply getitem_outcome. }
  apply elem_of_app in Hin as [Hin|Hin].
  - now rewrite (Hbad _ Hin).
  - destruct (mapM_outcome _ base_classes KeyError (Hall base_classes))
      as [[bl ->]| ->]; [|reflexivity].
    simpl. now rewrite (Hbad _ Hin).
Qed.

Lemma groupby_concat {A} (key : A -> Z) (l : list A) :
  concat (map snd (groupby key l)) = l.
Proof.
  induction l as [|x l IH]; simpl; [reflexivity|].
  destruct (groupby key l) as [|[k g] gs]; simpl in *.
  - now subst.
  - case_decide; simpl; now rewrite <- IH.
Qed.

Lemma groupby_keys {A} (key : A -> Z) (l : list A) :
  Forall (fun kg => Forall (fun x => key x = fst kg) (snd kg)) (groupby key l).
Proof.
  induction l as [|x l IH]; simpl; [constructor|].
  destruct (groupby key l) as [|[k g] gs]; simpl in *.
  - repeat constructor.
  - apply Forall_cons in IH as [Hg Hgs]. case_decide.
    + constructor; [|exact Hgs]. simpl in *. now constructor.
    + repeat constructor; assumption.
Qed.

Lemma dict_set_key_elem {K V} `{EqDecision K} (key : K) (v : V)
    (d : list (K * V)) (x : K) :
  x ∈ map fst (dict_set key v d) -> x = key \/ x ∈ map fst d.
Proof.
  induction d as [|[k v'] d IH]; simpl; intros Hin.
  - apply list_elem_of_singleton in Hin. now left.
  - destruct (decide (k = key)) as [->|Hne]; simpl in Hin.
    + right. exact Hin.
    + apply elem_of_cons in Hin as [->|Hin]; [right; left|].
      destruct (IH Hin); [now left | right; now right].
Qed.

Lemma dict_set_keys {K V} `{EqDecision K} (key : K) (v : V) (d : list (K * V)) :
  NoDup (map fst d) -> NoDup (map fst (dict_set key v d)).
Proof.
  induction d as [|[k v'] d IH]; simpl; intros Hnd.
  - repeat constructor. intros Hin. now apply elem_of_nil in Hin.
  - apply NoDup_cons in Hnd as [Hk Hnd].
    destruct (decide (k = key)) as [->|Hne]; simpl.
    + now constructor.
    + constructor; [|now apply IH].
      intros Hin. apply dict_set_key_elem in Hin as [?|?]; [congruence | contradiction].
Qed.

Lemma dict_set_entries {K V} `{EqDecision K} (key : K) (v : V) (d : list (K * V))
    (kv : K * V) :
  kv ∈ dict_set key v d -> kv = (key, v) \/ kv ∈ d.
Proof.
  induction d as [|[k v'] d IH]; simpl; intros Hin.
  - apply list_elem_of_singleton in Hin. now left.
  - destruct (decide (k = key)) as [->|Hne].
    + apply elem_of_cons in Hin as [->|Hin]; [now left | right; now right].
    + apply elem_of_cons in Hin as [->|Hin]; [right; left|].
      destruct (IH Hin); [now left | right; now right].
Qed.

Lemma dict_of_items_spec {K V} `{EqDecision K} (items : list (K * V)) :
  NoDup (map fst (dict_of_items items)) /\
  (forall kv, kv ∈ dict_of_items items -> kv ∈ items).
Proof.
  unfold dict_of_items.
  assert (Hgen : forall acc,
            NoDup (map fst acc) ->
            NoDup (map fst (foldl (fun d kv => dict_set (fst kv) (snd kv) d) acc items)) /\
            (forall kv, kv ∈ foldl (fun d kv => dict_set (fst kv) (snd kv) d) acc items ->
                        kv ∈ acc \/ kv ∈ items)).
  { induction items as [|[k v] items IH]; intros acc Hacc; simpl.
    - split; [exact Hacc | now left].
    - destruct (IH (dict_set k v acc)) as [Hnd Hin]; [now apply dict_set_keys|].
      split; [exact Hnd|]. intros kv Hkv.
      destruct (Hin kv Hkv) as [H1|H1]; [|right; now right].
      apply dict_set_entries in H1 as [->|H1]; [right; left | now left]. }
  destruct (Hgen []) as [Hnd Hin]; [constructor|].
  split; [exact Hnd|]. intros kv Hkv.
  destruct (Hin kv Hkv) as [H1|H1]; [now apply elem_of_nil in H1 | exact H1].
Qed.

Lemma dict_set_fresh {K V} `{EqDecision K} (key : K) (v : V) (d : list (K * V)) :
  key ∉ map fst d -> dict_set key v d = d ++ [(key, v)].
Proof.
  induction d as [|[k v'] d IH]; simpl; intros Hk; [reflexivity|].
  apply not_elem_of_cons in Hk as [Hne Hk].
  rewrite decide_False by congruence. now rewrite IH.
Qed.

Lemma dict_of_items_distinct {K V} `{EqDecision K} (items : list (K * V)) :
  NoDup (map fst items) -> dict_of_items items = items.
Proof.
  unfold dict_of_items.
  assert (Hgen : forall acc,
            NoDup (map fst (acc ++ items)) ->
            foldl (fun d kv => dict_set (fst kv) (snd kv) d) acc items = acc ++ items).
  { induction items as [|[k v] items IH]; intros acc Hnd; simpl.
    - now rewrite app_nil_r.
    - rewrite dict_set_fresh.
      + rewrite IH; rewrite <- app_assoc; [reflexivity | exact Hnd].
      + rewrite map_app in Hnd. apply NoDup_app in Hnd as (_ & Hd & _).
        intros Hin. apply (Hd k Hin). left. }
  intros Hnd. now apply (Hgen []).
Qed.

Lemma concat_Permutation {A} (l l' : list (list A)) :
  l ≡ₚ l' -> concat l ≡ₚ concat l'.
Proof.
  induction 1 as [|x l l' _ IH|x1 x2 l|l l' l'' _ IH1 _ IH2]; simpl.
  - reflexivity.
  - now rewrite IH.
  - rewrite !app_assoc. f_equiv. apply Permutation_app_comm.
  - now transitivity (concat l').
Qed.

Lemma NoDup_concat_subdict {K A} (d items : list (K * list A)) :
  NoDup d -> (forall kv, kv ∈ d -> kv ∈ items) ->
  NoDup (concat (map snd items)) -> NoDup (concat (map snd d)).
Proof.
  intros Hd Hsub Hnd.
  destruct (submseteq_Permutation d items) as [k Hk]; [now apply NoDup_submseteq|].
  assert (Hp : concat (map snd items) ≡ₚ concat (map snd d) ++ concat (map snd k)).
  { rewrite <- concat_app, <- map_app. apply concat_Permutation.
    apply Permutation_map. exact Hk. }
  rewrite Hp in Hnd. now apply NoDup_app in Hnd as (? & _ & _).
Qed.

(** What a constructed datamodule holds. *)
Lemma init_Ok (dataset : Type)
    (load_data : string -> string -> result (list loc * list (string * Z)))
    (cfg : GraphFewShotDataModule.config) (fs : file_system) (h : heap)
    (self : GraphFewShotDataModule.t dataset) :
  GraphFewShotDataModule.__init__ dataset load_data cfg fs h = Ok self ->
  load_data (GraphFewShotDataModule.cfg_data_dir cfg)
            (GraphFewShotDataModule.cfg_dataset_name cfg)
    = Ok (GraphFewShotDataModule.data_list self,
          GraphFewShotDataModule.class_to_label_dict self) /\
  GraphFewShotDataModule.data_list_by_label self
    = dict_of_items (groupby (fun sample => y (h sample))
                             (GraphFewShotDataModule.data_list self)) /\
  GraphFewShotDataModule.get_labels_split
    (GraphFewShotDataModule.class_to_label_dict self)
    (GraphFewShotDataModule.base_classes self)
    (GraphFewShotDataModule.novel_classes self)
    = Ok (GraphFewShotDataModule.labels_split self) /\
  getitem (GraphFewShotDataModule.labels_split self) "base"
    = Ok (GraphFewShotDataModule.base_labels self) /\
  getitem (GraphFewShotDataModule.labels_split self) "novel"
    = Ok (GraphFewShotDataModule.novel_labels self) /\
  GraphFewShotDataModule.train_dataset self = None /\
  GraphFewShotDataModule.val_datasets self = None /\
  GraphFewShotDataModule.test_datasets self = None /\
  GraphFewShotDataModule.get_classes_split
    (GraphFewShotDataModule.cfg_classes_split_path cfg) fs
    = Ok (GraphFewShotDataModule.classes_split self).
Proof.
  unfold GraphFewShotDataModule.__init__. intros H.
  apply bind_Ok in H as (cs & Hcs & H).
  apply bind_Ok in H as (bc & _ & H).
  apply bind_Ok in H as (nc & _ & H).
  apply bind_Ok in H as ([dl dict] & Hload & H). simpl in H.
  apply bind_Ok in H as (ls & Hls & H).
  apply bind_Ok in H as (bl & Hbl & H).
  apply bind_Ok in H as (nl & Hnl & H).
  injection H as <-. simpl. repeat split; assumption.
Qed.

Lemma labels_split_shape (d : list (string * Z)) (bc nc : list string)
    (ls : list (string * list Z)) (bl nl : list Z) :
  GraphFewShotDataModule.get_labels_split d bc nc = Ok ls ->
  getitem ls "base" = Ok bl -> getitem ls "novel" = Ok nl ->
  ls = [ ("base"%string, bl); ("novel"%string, nl) ] /\
  Sorted Z.le bl /\ Sorted Z.le nl.
Proof.
  unfold GraphFewShotDataModule.get_labels_split. intros H Hb Hn.
  apply bind_Ok in H as (bl' & _ & H). apply bind_Ok in H as (nl' & _ & H).
  injection H as <-. injection Hb as <-. injection Hn as <-.
  repeat split; apply sorted_increasing.
Qed.

Lemma bucket_entries (h : heap) (dl : list loc) (k : Z) (ss : list loc) (s : loc) :
  (k, ss) ∈ dict_of_items (groupby (fun sample => y (h sample)) dl) ->
  s ∈ ss -> y (h s) = k /\ s ∈ dl.
Proof.
  intros Hin Hs. apply dict_of_items_spec in Hin.
  pose proof (groupby_keys (fun sample => y (h sample)) dl) as Hkeys.
  rewrite Forall_forall in Hkeys. specialize (Hkeys _ Hin). simpl in Hkeys.
  rewrite Forall_forall in Hkeys. split; [now apply Hkeys|].
  rewrite <- (groupby_concat (fun sample => y (h sample)) dl).
  apply list_elem_of_In, in_concat. exists ss. split; [|now apply list_elem_of_In].
  apply in_map_iff. exists (k, ss). split; [reflexivity | now apply list_elem_of_In].
Qed.

(** X13: a constructed datamodule has its labels split under the keys base
    and novel, both in increasing order, no dataset yet, and buckets with
    distinct keys in which every graph carries the label of its bucket and
    comes from the loaded list; graphs that are distinct in the loaded list
    are distinct across the buckets. With distinct and disjoint base and
    novel labels this is the state [setup] relies on. *)
Theorem constructor_buckets (dataset : Type)
    (load_data : string -> string -> result (list loc * list (string * Z)))
    (cfg : GraphFewShotDataModule.config) (fs : file_system) (h : heap)
    (self : GraphFewShotDataModule.t dataset) :
  GraphFewShotDataModule.__init__ dataset load_data cfg fs h = Ok self ->
  let buckets := GraphFewShotDataModule.data_list_by_label self in
  let base_labels := GraphFewShotDataModule.base_labels self in
  let novel_labels := GraphFewShotDataModule.novel_labels self in
  GraphFewShotDataModule.labels_split self
    = [ ("base"%string, base_labels); ("novel"%string, novel_labels) ] /\
  Sorted Z.le base_labels /\ Sorted Z.le novel_labels /\
  GraphFewShotDataModule.train_dataset self = None /\
  NoDup (map fst buckets) /\
  (forall k ss s, (k, ss) ∈ buckets -> s ∈ ss ->
     y (h s) = k /\ s ∈ GraphFewShotDataModule.data_list self) /\
  (NoDup (GraphFewShotDataModule.data_list self) ->
   NoDup (concat (map snd buckets))) /\
  (NoDup (GraphFewShotDataModule.data_list self) ->
   NoDup base_labels -> NoDup novel_labels ->
   (forall label, label ∈ base_labels -> label ∉ novel_labels) ->
   pool_invariant self h).
Proof.
  intros Hinit buckets base_labels novel_labels.
  apply init_Ok in Hinit as (_ & Hbuckets & Hls & Hbl & Hnl & Htrain & _).
  destruct (labels_split_shape _ _ _ _ _ _ Hls Hbl Hnl) as (Hshape & Hsb & Hsn).
  assert (Hkeys : NoDup (map fst buckets)).
  { unfold buckets. rewrite Hbuckets. apply dict_of_items_spec. }
  assert (Hentries : forall k ss s, (k, ss) ∈ buckets -> s ∈ ss ->
            y (h s) = k /\ s ∈ GraphFewShotDataModule.data_list self).
  { unfold buckets. rewrite Hbuckets. intros k ss s. apply bucket_entries. }
  assert (Hdistinct : NoDup (GraphFewShotDataModule.data_list self) ->
            NoDup (concat (map snd buckets))).
  { intros Hnd. unfold buckets. rewrite Hbuckets.
    eapply NoDup_concat_subdict.
    - eapply NoDup_fmap_1. rewrite <- Hbuckets. exact Hkeys.
    - apply dict_of_items_spec.
    - now rewrite groupby_concat. }
  split; [exact Hshape|]. split; [exact Hsb|]. split; [exact Hsn|].
  split; [exact Htrain|]. split; [exact Hkeys|]. split; [exact Hentries|].
  split; [exact Hdistinct|].
  intros Hnd Hb Hn Hdisj. unfold pool_invariant.
  split; [exact Hshape|]. split; [exact Hb|]. split; [exact Hn|].
  split; [exact Hdisj|]. split; [now apply Hdistinct|].
  intros k ss s Hin Hs. now apply (Hentries k ss s).
Qed.

Lemma groupby_nonempty {A} (key : A -> Z) (l : list A) :
  Forall (fun kg => snd kg <> []) (groupby key l).
Proof.
  induction l as [|x l IH]; simpl; [constructor|].
  destruct (groupby key l) as [|[k g] gs]; simpl in *.
  - repeat constructor. simpl. discriminate.
  - apply Forall_cons in IH as [Hg Hgs]. case_decide.
    + constructor; [simpl; discriminate | exact Hgs].
    + repeat constructor; try assumption. simpl. discriminate.
Qed.

(** X14: the buckets of a constructed datamodule never hold a graph twice
    or a graph that was not loaded, and they hold every loaded graph
    exactly when every label occupies one run of consecutive graphs of the
    loaded list; a label that comes back after another one loses its
    earlier graphs. *)
Theorem buckets_keep_single_runs (dataset : Type)
    (load_data : string -> string -> result (list loc * list (string * Z)))
    (cfg : GraphFewShotDataModule.config) (fs : file_system) (h : heap)
    (self : GraphFewShotDataModule.t dataset) :
  GraphFewShotDataModule.__init__ dataset load_data cfg fs h = Ok self ->
  let data_list := GraphFewShotDataModule.data_list self in
  let kept := concat (map snd (GraphFewShotDataModule.data_list_by_label self)) in
  let runs := groupby (fun sample => y (h sample)) data_list in
  kept ⊆+ data_list /\
  (NoDup (map fst runs) -> kept = data_list) /\
  (kept ≡ₚ data_list <-> NoDup (map fst runs)).
Proof.
  intros Hinit data_list kept runs.
  apply init_Ok in Hinit as (_ & Hbuckets & _).
  unfold kept. rewrite Hbuckets. fold data_list runs.
  set (d := dict_of_items runs).
  destruct (dict_of_items_spec runs) as [Hkeys Hsub]. fold d in Hkeys, Hsub.
  assert (Hd : NoDup d) by (eapply NoDup_fmap_1; exact Hkeys).
  destruct (submseteq_Permutation d runs) as [k Hk]; [now apply NoDup_submseteq|].
  assert (Hp : data_list ≡ₚ concat (map snd d) ++ concat (map snd k)).
  { unfold data_list at 1.
    rewrite <- (groupby_concat (fun sample => y (h sample))
                  (GraphFewShotDataModule.data_list self)).
    fold data_list runs. rewrite <- concat_app, <- map_app.
    apply concat_Permutation, Permutation_map. exact Hk. }
  assert (Hall : NoDup (map fst runs) -> concat (map snd d) = data_list).
  { intros Hnd. unfold d. rewrite (dict_of_items_distinct runs Hnd).
    apply groupby_concat. }
  split; [|split; [exact Hall|split]].
  - rewrite Hp. apply submseteq_inserts_r. reflexivity.
  - intros Hperm.
    assert (Hk0 : k = []).
    { apply Permutation_length in Hp, Hperm.
      rewrite length_app in Hp.
      assert (Hlen : length (concat (map snd k)) = 0) by lia.
      destruct k as [|[key0 g] k]; [reflexivity|]. exfalso.
      pose proof (groupby_nonempty (fun sample => y (h sample)) data_list) as Hne.
      fold runs in Hne. rewrite Forall_forall in Hne.
      assert (Hin : (key0, g) ∈ runs).
      { rewrite Hk. apply elem_of_app. right. left. }
      specialize (Hne _ Hin). simpl in Hne, Hlen.
      rewrite length_app in Hlen. destruct g; [congruence | simpl in Hlen; lia]. }
    subst k. rewrite app_nil_r in Hk. now rewrite Hk.
  - intros Hnd. now rewrite (Hall Hnd).
Qed.

Lemma stage_pool_elem {dataset : Type} (self : GraphFewShotDataModule.t dataset)
    (stage_labels : list Z) (h : heap) (s : loc) :
  (forall k ss s, (k, ss) ∈ GraphFewShotDataModule.data_list_by_label self ->
                  s ∈ ss -> y (h s) = k) ->
  s ∈ stage_pool self stage_labels <->
  s ∈ concat (map snd (GraphFewShotDataModule.data_list_by_label self)) /\
  y (h s) ∈ stage_labels.
Proof.
  intros Hkey. split.
  - intros Hs. split; [|now apply (stage_pool_labels self stage_labels h s Hkey)].
    unfold stage_pool, flatten in Hs.
    apply list_elem_of_In, in_concat in Hs as (ss & Hss & Hs).
    apply in_map_iff in Hss as ([k ss'] & <- & Hin).
    apply list_elem_of_In, list_elem_of_filter in Hin as [_ Hin].
    apply list_elem_of_In, in_concat. exists ss'. split; [|exact Hs].
    apply in_map_iff. exists (k, ss'). split; [reflexivity | now apply list_elem_of_In].
  - intros [Hs Hl]. apply list_elem_of_In, in_concat in Hs as (ss & Hss & Hs).
    apply in_map_iff in Hss as ([k ss'] & <- & Hin). simpl in Hs.
    apply list_elem_of_In in Hin, Hs.
    unfold stage_pool, flatten. apply list_elem_of_In, in_concat.
    exists ss'. split; [|now apply list_elem_of_In].
    apply in_map_iff. exists (k, ss'). split; [reflexivity|].
    apply list_elem_of_In, list_elem_of_filter. split; [|exact Hin].
    simpl. now rewrite <- (Hkey k ss' s Hin Hs).
Qed.

(** X15: when every bucket holds graphs of its own label,
    [split_base_novel_samples] puts a graph of the buckets in the base pool
    exactly when its label is a base label and in the novel pool exactly
    when its label is a novel label: a graph with a label in neither set is
    in neither pool, and disjoint label sets give disjoint pools. *)
Theorem pools_follow_labels {dataset : Type}
    (self : GraphFewShotDataModule.t dataset) (h : heap) :
  (forall k ss s, (k, ss) ∈ GraphFewShotDataModule.data_list_by_label self ->
                  s ∈ ss -> y (h s) = k) ->
  let buckets := GraphFewShotDataModule.data_list_by_label self in
  let base_labels := GraphFewShotDataModule.base_labels self in
  let novel_labels := GraphFewShotDataModule.novel_labels self in
  exists base novel,
    getitem (GraphFewShotDataModule.split_base_novel_samples self) "base" = Ok base /\
    getitem (GraphFewShotDataModule.split_base_novel_samples self) "novel" = Ok novel /\
    (forall s, s ∈ base <->
       s ∈ concat (map snd buckets) /\ y (h s) ∈ base_labels) /\
    (forall s, s ∈ novel <->
       s ∈ concat (map snd buckets) /\ y (h s) ∈ novel_labels) /\
    (forall s, y (h s) ∉ base_labels -> y (h s) ∉ novel_labels ->
       (s ∉ base) /\ (s ∉ novel)) /\
    ((forall label, label ∈ base_labels -> label ∉ novel_labels) ->
     forall s, s ∈ base -> s ∉ novel).
Proof.
  intros Hkey buckets base_labels novel_labels.
  exists (stage_pool self base_labels), (stage_pool self novel_labels).
  split; [reflexivity|]. split; [reflexivity|].
  split; [intros s; now apply stage_pool_elem|].
  split; [intros s; now apply stage_pool_elem|]. split.
  - intros s Hb Hn. split; intros Hs;
      apply (stage_pool_elem self _ h s Hkey) in Hs as [_ ?]; contradiction.
  - intros Hdisj s Hb Hn.
    apply (stage_pool_elem self _ h s Hkey) in Hb as [_ Hb].
    apply (stage_pool_elem self _ h s Hkey) in Hn as [_ Hn].
    now apply (Hdisj _ Hb).
Qed.

(** X16: [split_train_val] cuts the list it is given, along a shuffled
    index vector, into training and validation samples that together are
    the list; the training samples are
    [math.ceil(train_val_split_ratio * len(data_list))] of them, the
    product being a float product, at most all of them, and distinct graphs
    stay distinct. When [math.ceil] raises, the split raises the same; it
    does not for a ratio from 0 to 2^900 and fewer than 2^53 samples. *)
Theorem train_val_partition {dataset : Type}
    (shuffle : list nat -> list nat)
    (self : GraphFewShotDataModule.t dataset) (data_list : list loc) :
  (forall l, shuffle l ≡ₚ l) ->
  let n := length data_list in
  let ratio := GraphFewShotDataModule.train_val_split_ratio self in
  let split := GraphTransferDataModule.split_train_val shuffle self data_list in
  (forall bound,
     ceil_ratio ratio n = Ok bound ->
     exists train val,
       split = Ok (train, val) /\
       train ++ val ≡ₚ data_list /\
       ((0 <= bound)%Z -> length train = Nat.min (Z.to_nat bound) n) /\
       (NoDup data_list -> NoDup (train ++ val))) /\
  (forall e, ceil_ratio ratio n = Raise e -> split = Raise e) /\
  (float_range ratio n ->
   exists bound train val,
     ceil_ratio ratio n = Ok bound /\ (0 <= bound)%Z /\ split = Ok (train, val)).
Proof.
  intros Hshuffle n ratio split.
  assert (Hcut : forall bound, ceil_ratio ratio n = Ok bound ->
            exists train val,
              split = Ok (train, val) /\
              train ++ val ≡ₚ data_list /\
              ((0 <= bound)%Z -> length train = Nat.min (Z.to_nat bound) n) /\
              (NoDup data_list -> NoDup (train ++ val))).
  { intros bound Hb.
    destruct (cut_along_shuffle shuffle data_list bound Hshuffle)
      as (train & val & Ht & Hv & Hperm & Hlt & _).
    exists train, val. unfold split, GraphTransferDataModule.split_train_val.
    unfold n, ratio in Hb. rewrite Hb. simpl. rewrite Ht. simpl. rewrite Hv. simpl.
    split; [reflexivity|]. split; [exact Hperm|]. split.
    - intros H0. rewrite Hlt. unfold slice_to.
      destruct (Z.ltb_spec bound 0) as [E|E]; [lia|].
      now rewrite length_take, (Permutation_length (Hshuffle _)), length_seq.
    - intros Hnd. now rewrite Hperm. }
  split; [exact Hcut|]. split.
  - intros e E. unfold split, GraphTransferDataModule.split_train_val.
    unfold n, ratio in E. now rewrite E.
  - intros Hrange.
    destruct (ceil_ratio_returns _ _ Hrange) as (bound & Hb & H0 & _).
    destruct (Hcut bound Hb) as (train & val & Hs & _).
    now exists bound, train, val.
Qed.

(** X17: with no split file, fewer than 2^53 samples and a
    [support_ratio] up to 2^900, so that the float product is finite, a
    [support_ratio] of one or more sends every sample to the supports and
    leaves no query candidate, and a [support_ratio] of zero sends every
    sample to the queries and leaves no support candidate. *)
Theorem split_query_support_extremes {dataset : Type}
    (shuffle : list nat -> list nat)
    (load_idxs : string -> result (list nat * list nat))
    (self : GraphFewShotDataModule.t dataset) (data_list : list loc) :
  (forall l, shuffle l ≡ₚ l) ->
  GraphFewShotDataModule.query_support_split_path self = None ->
  float_range (GraphFewShotDataModule.support_ratio self) (length data_list) ->
  ((1 <= GraphFewShotDataModule.support_ratio self)%Q ->
   exists supports,
     GraphFewShotDataModule.split_query_support shuffle load_idxs self data_list
       = Ok (SplitSamples supports []) /\
     supports ≡ₚ data_list) /\
  ((GraphFewShotDataModule.support_ratio self == 0)%Q ->
   exists queries,
     GraphFewShotDataModule.split_query_support shuffle load_idxs self data_list
       = Ok (SplitSamples [] queries) /\
     queries ≡ₚ data_list).
Proof.
  intros Hshuffle Hpath Hrange.
  destruct (ceil_ratio_returns _ _ Hrange) as (u & Hu & Hu0 & Hge & Hzero).
  destruct (cut_along_shuffle shuffle data_list u Hshuffle)
    as (xs & ys & Hx & Hy & Hperm & Hlx & Hly).
  assert (Hidx : length (shuffle (seq 0 (length data_list))) = length data_list).
  { now rewrite (Permutation_length (Hshuffle _)), length_seq. }
  unfold GraphFewShotDataModule.split_query_support. rewrite Hpath, Hu. simpl.
  rewrite Hx. simpl. rewrite Hy. simpl. split.
  - intros Hr. specialize (Hge Hr).
    assert (Hys : ys = []).
    { apply length_zero_iff_nil. rewrite Hly. unfold slice_from.
      destruct (Z.ltb_spec u 0); [lia|]. rewrite length_drop. lia. }
    subst ys. exists xs. split; [reflexivity|]. now rewrite app_nil_r in Hperm.
  - intros Hr. specialize (Hzero Hr).
    assert (Hxs : xs = []).
    { apply length_zero_iff_nil. rewrite Hlx, Hzero. reflexivity. }
    subst xs. exists ys. split; [reflexivity | exact Hperm].
Qed.

Lemma StronglySorted_lookup_le (l : list Z) (i j : nat) (x x' : Z) :
  StronglySorted Z.le l -> i < j -> l !! i = Some x -> l !! j = Some x' ->
  (x <= x')%Z.
Proof.
  intros Hs. revert i j. induction Hs as [|a l _ IH Ha]; intros i j Hij Hi Hj.
  - discriminate.
  - destruct j as [|j]; [lia|]. simpl in Hj. destruct i as [|i]; simpl in Hi.
    + injection Hi as <-. rewrite Forall_forall in Ha.
      apply Ha, list_elem_of_lookup. eauto.
    + apply (IH i j); [lia | assumption | assumption].
Qed.

Lemma sorted_strongly (l : list Z) : StronglySorted Z.le (sorted l).
Proof.
  apply StronglySorted_merge_sort.
  - intros a b c. lia.
  - intros a b. lia.
Qed.

(** X18: for distinct stage labels the mapping to local labels is defined
    exactly on the stage labels, keeps their order, so that it is one to
    one, and reaches every index below the number of labels. *)
Theorem local_labels_keep_order (stage_labels : list Z) :
  NoDup stage_labels ->
  let m := GraphTransferDataModule.global_to_local stage_labels in
  (forall label, is_Some (m !! label) <-> label ∈ stage_labels) /\
  (forall l1 l2 i1 i2, m !! l1 = Some i1 -> m !! l2 = Some i2 ->
     ((l1 < l2)%Z <-> i1 < i2)) /\
  (forall l1 l2 i, m !! l1 = Some i -> m !! l2 = Some i -> l1 = l2) /\
  (forall i, i < length stage_labels -> exists label, m !! label = Some i).
Proof.
  intros Hnd m.
  assert (Hnd' : NoDup (sorted stage_labels)) by now rewrite sorted_Permutation.
  assert (Hstrict : forall l1 l2 i1 i2, m !! l1 = Some i1 -> m !! l2 = Some i2 ->
            i1 < i2 -> (l1 < l2)%Z).
  { intros l1 l2 i1 i2 H1 H2 Hlt.
    apply global_to_local_sorted in H1, H2; try assumption.
    pose proof (StronglySorted_lookup_le _ _ _ _ _ (sorted_strongly stage_labels)
                  Hlt H1 H2) as Hle.
    assert (l1 <> l2); [|lia].
    intros ->. pose proof (NoDup_lookup _ _ _ _ Hnd' H1 H2). lia. }
  split; [|split; [|split]].
  - intros label. rewrite <- (sorted_Permutation stage_labels). split.
    + intros [i Hi]. apply global_to_local_sorted in Hi; [|assumption].
      apply list_elem_of_lookup. eauto.
    + intros Hin. apply list_elem_of_lookup in Hin as [i Hi].
      exists i. now apply global_to_local_sorted.
  - intros l1 l2 i1 i2 H1 H2. split.
    + intros Hlt. destruct (Nat.lt_trichotomy i1 i2) as [?|[->|Hgt]]; [assumption| |].
      * apply global_to_local_sorted in H1, H2; try assumption. 
        rewrite H1 in H2. injection H2 as ->. lia.
      * pose proof (Hstrict l2 l1 i2 i1 H2 H1 Hgt). lia.
    + now apply Hstrict.
  - intros l1 l2 i H1 H2.
    apply global_to_local_sorted in H1, H2; try assumption. congruence.
  - intros i Hi.
    destruct (lookup_lt_is_Some_2 (sorted stage_labels) i) as [label Hl].
    { now rewrite (Permutation_length (sorted_Permutation stage_labels)). }
    exists label. now apply global_to_local_sorted.
Qed.

Lemma global_to_local_None (stage_labels : list Z) (label : Z) :
  label ∉ stage_labels ->
  GraphTransferDataModule.global_to_local stage_labels !! label = None.
Proof.
  intros Hout. unfold GraphTransferDataModule.global_to_local, enumerate.
  rewrite fold_enumerate_notin; [apply lookup_empty|].
  now rewrite sorted_Permutation.
Qed.

Lemma relabel_raises (m : gmap Z nat) (samples : list loc) (h : heap) :
  NoDup samples ->
  Exists (fun s => m !! y (h s) = None) samples ->
  for_each (apply_ (local_label m)) samples h = Raise KeyError.
Proof.
  intros Hnd. revert h. induction Hnd as [|x samples Hx _ IH]; intros h Hex.
  - inversion Hex.
  - change (for_each (apply_ (local_label m)) (x :: samples) h)
      with (apply_ (local_label m) x h ≫= for_each (apply_ (local_label m)) samples).
    destruct (m !! y (h x)) as [ind|] eqn:Hm.
    + rewrite (apply_local_label m x h ind Hm). simpl. apply IH.
      apply Exists_cons in Hex as [Hex|Hex]; [congruence|].
      apply Exists_exists in Hex as (s & Hs & Hnone).
      apply Exists_exists. exists s. split; [exact Hs|].
      rewrite fn_lookup_insert_ne; [exact Hnone|]. intros ->. contradiction.
    + unfold apply_, local_label. now rewrite Hm.
Qed.

(** X19: [convert_to_local_labels] raises KeyError for a stage name that
    is not a key of the labels split, and for a list of distinct samples
    one of which has a label that is not a label of the stage. *)
Theorem convert_rejects_foreign_labels {dataset : Type}
    (self : GraphFewShotDataModule.t dataset) (samples : list loc)
    (stage : string) (h : heap) :
  (dict_get stage (GraphFewShotDataModule.labels_split self) = None ->
   GraphTransferDataModule.convert_to_local_labels self samples stage h
     = Raise KeyError) /\
  (forall stage_labels s,
     dict_get stage (GraphFewShotDataModule.labels_split self) = Some stage_labels ->
     NoDup samples -> s ∈ samples -> y (h s) ∉ stage_labels ->
     GraphTransferDataModule.convert_to_local_labels self samples stage h
       = Raise KeyError).
Proof.
  unfold GraphTransferDataModule.convert_to_local_labels, getitem. split.
  - intros ->. reflexivity.
  - intros stage_labels s -> Hnd Hs Hout. simpl.
    fold (local_label (GraphTransferDataModule.global_to_local stage_labels)).
    rewrite relabel_raises; [reflexivity | exact Hnd|].
    apply Exists_exists. exists s. split; [exact Hs|].
    now apply global_to_local_None.
Qed.

Lemma bind_Ok_l {A B} (a : A) (k : A -> result B) : Ok a ≫= k = k a.
Proof. reflexivity. Qed.

Lemma convert_raises {dataset : Type}
    (self : GraphFewShotDataModule.t dataset) (samples : list loc)
    (stage : string) (stage_labels : list Z) (h : heap) (s : loc) :
  getitem (GraphFewShotDataModule.labels_split self) stage = Ok stage_labels ->
  NoDup samples -> s ∈ samples -> y (h s) ∉ stage_labels ->
  GraphTransferDataModule.convert_to_local_labels self samples stage h
    = Raise KeyError.
Proof.
  intros Hstage Hnd Hs Hout.
  unfold GraphTransferDataModule.convert_to_local_labels. rewrite Hstage. simpl.
  fold (local_label (GraphTransferDataModule.global_to_local stage_labels)).
  rewrite relabel_raises; [reflexivity | exact Hnd|].
  apply Exists_exists. exists s. split; [exact Hs|].
  now apply global_to_local_None.
Qed.

Lemma setters_keep_pools {dataset : Type}
    (self : GraphFewShotDataModule.t dataset) (d1 : option dataset)
    (d2 d3 : option (list dataset)) :
  let self' := set_test_datasets d3 (set_val_datasets d2 (set_train_dataset d1 self)) in
  GraphFewShotDataModule.labels_split self'
    = GraphFewShotDataModule.labels_split self /\
  GraphFewShotDataModule.base_labels self'
    = GraphFewShotDataModule.base_labels self /\
  GraphFewShotDataModule.novel_labels self'
    = GraphFewShotDataModule.novel_labels self /\
  GraphFewShotDataModule.data_list_by_label self'
    = GraphFewShotDataModule.data_list_by_label self.
Proof. destruct self. simpl. repeat split; reflexivity. Qed.

Lemma setup_keeps_pools {dataset : Type}
    (shuffle : list nat -> list nat)
    (TransferSourceDataset : list loc -> heap -> result dataset)
    (MapEpisodicDataset :
       list loc -> Z -> list Z -> list (string * Z) -> EpisodeHParams ->
       bool -> heap -> result dataset)
    (self self' : GraphFewShotDataModule.t dataset) (stage : option string)
    (h h' : heap) :
  GraphTransferDataModule.setup shuffle TransferSourceDataset MapEpisodicDataset
    self stage h = Ok (self', h') ->
  GraphFewShotDataModule.labels_split self'
    = GraphFewShotDataModule.labels_split self /\
  GraphFewShotDataModule.base_labels self'
    = GraphFewShotDataModule.base_labels self /\
  GraphFewShotDataModule.novel_labels self'
    = GraphFewShotDataModule.novel_labels self /\
  GraphFewShotDataModule.data_list_by_label self'
    = GraphFewShotDataModule.data_list_by_label self.
Proof.
  unfold GraphTransferDataModule.setup. destruct (fit_stage stage).
  - intros Hrun.
    apply bind_Ok in Hrun as (bs & _ & Hrun).
    apply bind_Ok in Hrun as (ns & _ & Hrun).
    apply bind_Ok in Hrun as (c1 & _ & Hrun).
    apply bind_Ok in Hrun as (tv & _ & Hrun).
    apply bind_Ok in Hrun as (d1 & _ & Hrun).
    apply bind_Ok in Hrun as (d2 & _ & Hrun).
    apply bind_Ok in Hrun as (c2 & _ & Hrun).
    apply bind_Ok in Hrun as (d3 & _ & Hrun).
    injection Hrun as <- _. apply setters_keep_pools.
  - intros [= <- _]. repeat split; reflexivity.
Qed.

(** X20: [setup] of the transfer datamodule cannot be run twice: after a
    first run, when some base graph had a label whose local index is not
    itself a base label, a second run on the same datamodule raises
    KeyError, because the graphs already carry local labels. *)
Theorem setup_is_not_repeatable {dataset : Type}
    (shuffle shuffle' : list nat -> list nat)
    (TransferSourceDataset TransferSourceDataset' : list loc -> heap -> result dataset)
    (MapEpisodicDataset MapEpisodicDataset' :
       list loc -> Z -> list Z -> list (string * Z) -> EpisodeHParams ->
       bool -> heap -> result dataset)
    (self self' : GraphFewShotDataModule.t dataset) (stage : option string)
    (h h' : heap) (s : loc) (i : nat) :
  fit_stage stage = true ->
  pool_invariant self h ->
  GraphTransferDataModule.setup shuffle TransferSourceDataset MapEpisodicDataset
    self stage h = Ok (self', h') ->
  s ∈ stage_pool self (GraphFewShotDataModule.base_labels self) ->
  sorted (GraphFewShotDataModule.base_labels self) !! i = Some (y (h s)) ->
  Z.of_nat i ∉ GraphFewShotDataModule.base_labels self ->
  y (h' s) = Z.of_nat i /\
  GraphTransferDataModule.setup shuffle' TransferSourceDataset' MapEpisodicDataset'
    self' stage h' = Raise KeyError.
Proof.
  intros Hfit Hinv Hrun Hs Hi Hout.
  pose proof (setup_relabels_before_sampling shuffle TransferSourceDataset
                MapEpisodicDataset self self' stage h h' Hfit Hinv Hrun)
    as (m_base & h1 & m_novel & td & _ & Rb & _ & _ & _ & Hkeep & _).
  destruct (setup_keeps_pools _ _ _ _ _ _ _ _ Hrun) as (Els & Ebl & Enl & Ebk).
  destruct Hinv as (Hsplit & _ & _ & _ & Hnd & _).
  assert (Hlabel : y (h' s) = Z.of_nat i).
  { destruct Rb as (Hiff & _ & Hmap & _).
    destruct (Hmap s Hs) as (ind & Hind & Hy & _).
    rewrite (Hkeep s Hs), Hy. apply Hiff in Hi. congruence. }
  split; [exact Hlabel|].
  unfold GraphTransferDataModule.setup. rewrite Hfit.
  assert (Hpools : GraphFewShotDataModule.split_base_novel_samples self'
                   = GraphFewShotDataModule.split_base_novel_samples self).
  { unfold GraphFewShotDataModule.split_base_novel_samples. now rewrite Ebl, Enl, Ebk. }
  rewrite Hpools.
  set (base := stage_pool self (GraphFewShotDataModule.base_labels self)).
  set (novel := stage_pool self (GraphFewShotDataModule.novel_labels self)).
  assert (Hgb : getitem (GraphFewShotDataModule.split_base_novel_samples self) "base"
                = Ok base) by reflexivity.
  assert (Hgn : getitem (GraphFewShotDataModule.split_base_novel_samples self) "novel"
                = Ok novel) by reflexivity.
  rewrite Hgb, bind_Ok_l, Hgn, bind_Ok_l.
  rewrite (convert_raises self' base "base"
             (GraphFewShotDataModule.base_labels self) h' s); [reflexivity| | | |].
  - now rewrite Els, Hsplit.
  - now apply stage_pool_NoDup.
  - exact Hs.
  - now rewrite Hlabel.
Qed.

(** ** Steps of the model and metadata files *)

(** X21: [validation_step] and [test_step] read [batch.global_labels], an
    attribute the class [EpisodeBatch] gives to no batch: neither ever
    returns, and once the network, the loss and the logging of the loss
    have returned and the scores reshape to rows of width N, both raise
    AttributeError; [training_step], which does not read it, returns what
    the network and the loss return, once the loss is logged. *)
Theorem evaluation_steps_raise {score loss : Type}
    (model : EpisodeBatch.t -> result (list score))
    (loss_func : list score -> Tensor (list Z) -> result loss)
    (argmax_scores : list score -> Z)
    (log_dict : string -> loss -> result unit)
    (update_metrics : string -> list Z -> list Z -> result unit)
    (log_metrics : string -> result unit)
    (batch : EpisodeBatch.t) :
  let validation_step :=
    DMLBaseline.validation_step model loss_func argmax_scores log_dict
      update_metrics log_metrics batch in
  let test_step :=
    DMLBaseline.test_step model loss_func argmax_scores log_dict
      update_metrics log_metrics batch in
  ~ succeeds validation_step /\
  ~ succeeds test_step /\
  (forall similarities l rws,
     model batch = Ok similarities ->
     loss_func similarities (EpisodeBatch.cosine_targets batch) = Ok l ->
     reshape_scores similarities
       (num_classes_per_episode (EpisodeBatch.episode_hparams batch)) = Ok rws ->
     (log_dict "loss/val" l = Ok tt -> validation_step = Raise AttributeError) /\
     (log_dict "loss/test" l = Ok tt -> test_step = Raise AttributeError) /\
     (log_dict "loss/train" l = Ok tt ->
      DMLBaseline.training_step model loss_func log_dict batch
        = Ok (similarities, l))).
Proof.
  intros validation_step test_step.
  unfold validation_step, test_step, DMLBaseline.validation_step,
    DMLBaseline.test_step, DMLBaseline.training_step, DMLBaseline.step,
    DMLBaseline.forward.
  split; [|split].
  - intros [out H]. destruct (model batch) as [sims|]; simpl in H; [|discriminate].
    destruct (loss_func sims _) as [l|]; simpl in H; [|discriminate].
    destruct (log_dict _ l) as [[]|]; simpl in H; [|discriminate].
    destruct (reshape_scores sims _) as [rws|]; simpl in H; discriminate.
  - intros [out H]. destruct (model batch) as [sims|]; simpl in H; [|discriminate].
    destruct (loss_func sims _) as [l|]; simpl in H; [|discriminate].
    destruct (log_dict _ l) as [[]|]; simpl in H; [|discriminate].
    destruct (reshape_scores sims _) as [rws|]; simpl in H; discriminate.
  - intros sims l rws Hm Hl Hr. rewrite Hm. simpl. rewrite Hl. simpl.
    split; [|split]; intros Hlog.
    + change ("loss/" +:+ "val")%string with "loss/val"%string.
      rewrite Hlog. simpl. rewrite Hr. reflexivity.
    + change ("loss/" +:+ "test")%string with "loss/test"%string.
      rewrite Hlog. simpl. rewrite Hr. reflexivity.
    + change ("loss/" +:+ "train")%string with "loss/train"%string.
      rewrite Hlog. reflexivity.
Qed.

(** X24: the constructor of [DMLBaseline] reads
    [metadata.num_classes_per_episode], an attribute that [MetaData] gives
    to no object: for a [MetaData], and for the default [None], it never
    returns, whatever Lightning and hydra do, and it raises AttributeError
    once the calls before the reading have returned. *)
Theorem baseline_constructor_raises {hparams cfg network metric : Type}
    (super___init__ : result unit) (save_hyperparameters : result hparams)
    (hparams_model : hparams -> result cfg)
    (instantiate :
       cfg -> cfg -> metadata_attribute -> metadata_attribute ->
       metadata_attribute -> result network)
    (Metric : string -> metadata_attribute -> string -> result metric)
    (metadata : option MetaData.t) :
  let init :=
    DMLBaseline.__init__ super___init__ save_hyperparameters hparams_model
      instantiate Metric metadata in
  ~ succeeds init /\
  (forall hp, metadata = None -> super___init__ = Ok tt ->
     save_hyperparameters = Ok hp -> init = Raise AttributeError) /\
  (forall md fields hp c,
     metadata = Some md ->
     MetaData.classes_to_label_dict md = JObj fields ->
     super___init__ = Ok tt -> save_hyperparameters = Ok hp ->
     hparams_model hp = Ok c ->
     init = Raise AttributeError).
Proof.
  intros init. unfold init, DMLBaseline.__init__. split; [|split].
  - intros [out H].
    apply bind_Ok in H as (u & _ & H).
    apply bind_Ok in H as (hp & _ & H).
    apply bind_Ok in H as (d & _ & H).
    apply bind_Ok in H as (ks & _ & H).
    apply bind_Ok in H as (c1 & _ & H).
    apply bind_Ok in H as (c2 & _ & H).
    apply bind_Ok in H as (fd & _ & H).
    apply bind_Ok in H as (nc & _ & H).
    apply bind_Ok in H as (ne & Hne & H).
    destruct metadata as [md|]; simpl in Hne; discriminate.
  - intros hp -> -> ->. reflexivity.
  - intros md fields hp c -> Hd -> -> Hc. simpl. rewrite Hd. simpl.
    rewrite Hc. reflexivity.
Qed.

(** X22: [MetaData.load] raises FileNotFoundError when there is no
    data.json under the path and KeyError when the document lacks the
    class to label dictionary; from a document with the four keys and the
    three episode hyperparameters it returns these fields, with the number
    of entries of the dictionary as the number of classes. *)
Theorem load_reads_the_document (src_path : string) (fs : file_system) :
  (fs !! path_join src_path "data.json" = None ->
   MetaData.load src_path fs = Raise FileNotFoundError) /\
  (forall fields,
     fs !! path_join src_path "data.json" = Some (JObj fields) ->
     dict_get "classes_to_label_dict"%string fields = None ->
     MetaData.load src_path fs = Raise KeyError) /\
  (forall fields dict feature_dim classes_split n k q,
     fs !! path_join src_path "data.json" = Some (JObj fields) ->
     dict_get "classes_to_label_dict"%string fields = Some (JObj dict) ->
     dict_get "feature_dim"%string fields = Some feature_dim ->
     dict_get "episode_hparams"%string fields
       = Some (JObj [ ("num_classes_per_episode"%string, JInt (Z.of_nat n));
                      ("num_supports_per_class"%string, JInt (Z.of_nat k));
                      ("num_queries_per_class"%string, JInt (Z.of_nat q)) ]) ->
     dict_get "classes_split"%string fields = Some classes_split ->
     MetaData.load src_path fs
       = Ok (MetaData.mk (JObj dict) feature_dim (length dict)
               (mkEpisodeHParams n k q) classes_split)).
Proof.
  unfold MetaData.load, read_json. split; [|split].
  - intros ->. reflexivity.
  - intros fields -> Hnone. simpl. unfold getitem. now rewrite Hnone.
  - intros fields dict fd cs n k q -> Hd Hf Hh Hs. simpl.
    unfold getitem. rewrite Hd, Hf, Hh, Hs. simpl.
    unfold json_count.
    rewrite !(proj2 (Z.leb_le 0 _)) by lia. simpl.
    now rewrite !Nat2Z.id.
Qed.

(** ** [setup] of the meta-learning datamodule *)

(** X23: [setup] of the meta-learning datamodule leaves the datamodule as
    it is for a stage other than fit; for fit it sets the training dataset
    and one test dataset, built on the whole novel pool, never separated
    into queries and supports, with [num_train_episodes] episodes. It sets
    no validation dataset and relabels nothing, and it reads nothing that
    it sets: on its result a second run does what a first run does. *)
Theorem meta_setup_datasets {dataset random_state : Type}
    (shuffle : list nat -> list nat)
    (load_query_support_idxs : string -> result (list nat * list nat))
    (IterableEpisodicDataset :
       list loc + query_support_split -> Z -> list (string * Z) -> list Z ->
       EpisodeHParams -> bool -> heap -> random_state ->
       result (dataset * random_state))
    (MapEpisodicDataset :
       list loc -> Z -> list Z -> list (string * Z) -> EpisodeHParams ->
       bool -> heap -> random_state -> result (dataset * random_state))
    (self self' : GraphFewShotDataModule.t dataset) (stage : option string)
    (h : heap) (g g' : random_state) :
  let setup :=
    GraphMetaDataModule.setup shuffle load_query_support_idxs
      IterableEpisodicDataset MapEpisodicDataset in
  setup self stage h g = Ok (self', g') ->
  (fit_stage stage = false -> self' = self /\ g' = g) /\
  (fit_stage stage = true ->
   exists train test g1,
     self' = set_test_datasets (Some [test]) (set_train_dataset (Some train) self) /\
     MapEpisodicDataset
       (stage_pool self (GraphFewShotDataModule.novel_labels self))
       (GraphFewShotDataModule.num_train_episodes self)
       (GraphFewShotDataModule.novel_labels self)
       (GraphFewShotDataModule.class_to_label_dict self)
       (GraphFewShotDataModule.episode_hparams self) false h g1
       = Ok (test, g') /\
     (GraphFewShotDataModule.separated_query_support self = false ->
      IterableEpisodicDataset
        (inl (stage_pool self (GraphFewShotDataModule.base_labels self)))
        (GraphFewShotDataModule.num_train_episodes self)
        (GraphFewShotDataModule.class_to_label_dict self)
        (GraphFewShotDataModule.base_labels self)
        (GraphFewShotDataModule.episode_hparams self) false h g
        = Ok (train, g1))) /\
  GraphFewShotDataModule.val_datasets self'
    = GraphFewShotDataModule.val_datasets self /\
  GraphFewShotDataModule.data_list_by_label self'
    = GraphFewShotDataModule.data_list_by_label self /\
  (forall g2, setup self' stage h g2 = setup self stage h g2).
Proof.
  intros setup. unfold setup, GraphMetaDataModule.setup.
  destruct (fit_stage stage) eqn:Hstage.
  - intros H.
    assert (Hgb : getitem (GraphFewShotDataModule.split_base_novel_samples self) "base"
                  = Ok (stage_pool self (GraphFewShotDataModule.base_labels self)))
      by reflexivity.
    assert (Hgn : getitem (GraphFewShotDataModule.split_base_novel_samples self) "novel"
                  = Ok (stage_pool self (GraphFewShotDataModule.novel_labels self)))
      by reflexivity.
    cbv zeta in H. rewrite Hgb, bind_Ok_l in H.
    apply bind_Ok in H as (base_samples & Hbase & H).
    apply bind_Ok in H as ([train g1] & Htrain & H).
    rewrite Hgn, bind_Ok_l in H.
    apply bind_Ok in H as ([test g2] & Htest & H).
    simpl in H. injection H as <- <-.
    assert (Htest' : MapEpisodicDataset
       (stage_pool self (GraphFewShotDataModule.novel_labels self))
       (GraphFewShotDataModule.num_train_episodes self)
       (GraphFewShotDataModule.novel_labels self)
       (GraphFewShotDataModule.class_to_label_dict self)
       (GraphFewShotDataModule.episode_hparams self) false h g1 = Ok (test, g2))
      by (destruct self; exact Htest).
    split; [discriminate|]. split; [|split; [|split]].
    + intros _. exists train, test, g1. split; [reflexivity|].
      split; [exact Htest'|].
      intros Hsep. rewrite Hsep in Hbase, Htrain. injection Hbase as <-.
      exact Htrain.
    + destruct self; reflexivity.
    + destruct self; reflexivity.
    + intros g3. destruct self; reflexivity.
  - intros [= <- <-]. split; [split; reflexivity|]. split; [discriminate|].
    split; [reflexivity|]. split; reflexivity.
Qed.

(** ** The properties at the example inputs *)

Lemma label_targets_are_positions_witness :
  exists b,
    EpisodeBatch.from_episode_list num_graphs [episode_a; episode_b]
      two_way_one_shot = Ok b /\
    length (values (EpisodeBatch.label_targets b)) = 2 * 2 * 1 /\
    values (EpisodeBatch.label_targets b) !! (1 * (2 * 1) + 1) = Some 1%Z.
Proof.
  eexists. split; [reflexivity|].
  destruct (label_targets_are_positions num_graphs [episode_a; episode_b]
              two_way_one_shot _ ltac:(repeat constructor) eq_refl)
    as (Hlen & Hpos & _).
  split; [exact Hlen|].
  exact (proj1 (Hpos 1 1 1 episode_b (graph 2) eq_refl eq_refl eq_refl)).
Defined.

Lemma foreign_query_gets_target_zero_witness :
  exists b,
    EpisodeBatch.from_episode_list num_graphs [foreign_episode]
      two_way_one_shot = Ok b /\
    values (EpisodeBatch.label_targets b) !! (0 * (2 * 1) + 0) = Some 0%Z /\
    (forall c, c < 2 ->
       values (EpisodeBatch.cosine_targets b) !! (0 * (2 * 1 * 2) + 0 * 2 + c)
         = Some (-1)%Z).
Proof.
  eexists. split; [reflexivity|].
  apply (foreign_query_gets_target_zero num_graphs [foreign_episode]
           two_way_one_shot _ 0 0 foreign_episode (graph 9)).
  - repeat constructor.
  - reflexivity.
  - reflexivity.
  - reflexivity.
  - list_member.
Defined.

Lemma batch_labels_layout_witness :
  exists b,
    EpisodeBatch.from_episode_list num_graphs [episode_a; episode_b]
      two_way_one_shot = Ok b /\
    length (values (EpisodeBatch.labels b)) = 2 * 2 /\
    values (EpisodeBatch.labels b) !! (1 * 2 + 1) = Some 2%Z /\
    EpisodeBatch.num_episodes b = 2.
Proof.
  eexists. split; [reflexivity|].
  destruct (batch_labels_layout num_graphs [episode_a; episode_b]
              two_way_one_shot _ ltac:(repeat constructor) eq_refl)
    as (Hlen & Hat & Hnum & _).
  split; [exact Hlen|]. split; [|exact Hnum].
  exact (Hat 1 1 episode_b 2%Z eq_refl eq_refl).
Defined.

Lemma lens_count_the_nodes_witness :
  exists b,
    EpisodeBatch.from_episode_list num_graphs [episode_a; episode_b]
      two_way_one_shot = Ok b /\
    values (EpisodeBatch.supports_len b) !! 1 = Some 6%Z /\
    sum_Z (values (EpisodeBatch.queries_len b))
      = sum_num_nodes (data_list (EpisodeBatch.queries b)).
Proof.
  eexists. split; [reflexivity|].
  destruct (lens_count_the_nodes num_graphs [episode_a; episode_b]
              two_way_one_shot _ eq_refl)
    as (_ & _ & Hat & _ & Hsum).
  split; [|exact Hsum].
  exact (proj1 (Hat 1 episode_b eq_refl)).
Defined.

Lemma collation_returns_iff_witness :
  succeeds (EpisodeBatch.from_episode_list num_graphs [long_episode; episode_b]
              two_way_one_shot).
Proof.
  apply (proj2 (collation_returns_iff num_graphs [long_episode; episode_b]
                  two_way_one_shot)).
  split; [discriminate|]. split; [simpl; lia|]. split; [simpl; lia|].
  split; [simpl; lia|]. reflexivity.
Defined.

Lemma collation_failures_witness :
  EpisodeBatch.from_episode_list num_graphs [] two_way_one_shot
    = Raise IndexError /\
  EpisodeBatch.from_episode_list num_graphs [episode_a] (mkEpisodeHParams 3 1 1)
    = Raise RuntimeError /\
  EpisodeBatch.from_episode_list num_graphs [episode_a] (mkEpisodeHParams 2 0 1)
    = Raise ZeroDivisionError.
Proof.
  split; [|split].
  - apply (proj1 (collation_failures num_graphs [] two_way_one_shot)).
    left; reflexivity.
  - apply (proj1 (proj2 (collation_failures num_graphs [episode_a]
                           (mkEpisodeHParams 3 1 1)))).
    + discriminate.
    + discriminate.
    + right; right. simpl. lia.
  - apply (proj2 (proj2 (collation_failures num_graphs [episode_a]
                           (mkEpisodeHParams 2 0 1)))).
    + discriminate.
    + simpl; lia.
    + simpl; lia.
    + reflexivity.
    + reflexivity.
Defined.

Lemma predictions_read_episode_labels_witness :
  exists out,
    DMLBaseline.map_pred_labels_to_global [1; 0; 0; 1]%Z [5; 7; 1; 2]%Z 2
      = Ok out /\
    length out = 2 * 2 /\
    (forall e q p, e < 2 -> q < 2 ->
       [1; 0; 0; 1]%Z !! (e * 2 + q) = Some p ->
       out !! (e * 2 + q) = [5; 7; 1; 2]%Z !! (e * 2 + Z.to_nat p) /\
       is_Some (out !! (e * 2 + q))).
Proof.
  apply (predictions_read_episode_labels [1; 0; 0; 1]%Z [5; 7; 1; 2]%Z 2 2 2).
  - lia.
  - reflexivity.
  - reflexivity.
  - repeat constructor; simpl; lia.
Defined.

Lemma label_targets_map_back_witness :
  exists b,
    EpisodeBatch.from_episode_list num_graphs [episode_a; episode_b]
      two_way_one_shot = Ok b /\
    DMLBaseline.map_pred_labels_to_global
      (values (EpisodeBatch.label_targets b)) (values (EpisodeBatch.labels b))
      (EpisodeBatch.num_episodes b)
    = Ok (map y (data_list (EpisodeBatch.queries b))).
Proof.
  eexists. split; [reflexivity|].
  apply (label_targets_map_back num_graphs [episode_a; episode_b]
           two_way_one_shot).
  - repeat constructor.
  - repeat constructor; list_member.
  - reflexivity.
Defined.

Lemma predictions_out_of_range_witness :
  DMLBaseline.map_pred_labels_to_global [1; 0; 0]%Z [5; 7; 1; 2]%Z 2
    = Raise RuntimeError /\
  DMLBaseline.map_pred_labels_to_global [1; 0; 2; 1]%Z [5; 7; 1; 2]%Z 2
    = Raise IndexError.
Proof.
  split.
  - apply (proj1 (proj2 (predictions_out_of_range [1; 0; 0]%Z [5; 7; 1; 2]%Z
                           2 2 2))).
    + lia.
    + right. simpl. lia.
  - apply (proj2 (proj2 (predictions_out_of_range [1; 0; 2; 1]%Z
                           [5; 7; 1; 2]%Z 2 2 2))).
    + lia.
    + reflexivity.
    + reflexivity.
    + apply Exists_cons_tl, Exists_cons_tl, Exists_cons_hd. simpl. lia.
Defined.

Lemma labels_split_is_sorted_witness :
  exists base_labels novel_labels,
    [ ("base"%string, [2; 10]%Z); ("novel"%string, [3; 7]%Z) ]
      = [ ("base"%string, base_labels); ("novel"%string, novel_labels) ] /\
    Sorted Z.le base_labels /\ Sorted Z.le novel_labels /\
    base_labels
      ≡ₚ labels_of [ ("a", 2); ("b", 5); ("c", 10); ("d", 3); ("e", 7) ]%string%Z
           ["c"; "a"]%string /\
    novel_labels
      ≡ₚ labels_of [ ("a", 2); ("b", 5); ("c", 10); ("d", 3); ("e", 7) ]%string%Z
           ["e"; "d"]%string /\
    length base_labels = 2 /\
    length novel_labels = 2.
Proof.
  apply (labels_split_is_sorted
           [ ("a", 2); ("b", 5); ("c", 10); ("d", 3); ("e", 7) ]%string%Z
           ["c"; "a"]%string ["e"; "d"]%string).
  reflexivity.
Defined.

Lemma labels_split_unknown_class_witness :
  GraphFewShotDataModule.get_labels_split
    [ ("a", 2); ("b", 5) ]%string%Z ["a"; "z"]%string ["b"]%string
    = Raise KeyError.
Proof.
  apply (labels_split_unknown_class [ ("a", 2); ("b", 5) ]%string%Z
           ["a"; "z"]%string ["b"]%string "z"%string).
  - apply list_elem_of_In. simpl. auto.
  - reflexivity.
Defined.

Lemma constructor_buckets_witness :
  GraphFewShotDataModule.__init__ unit example_load_data example_split_config
    example_files example_heap = Ok (example_datamodule unit) /\
  Sorted Z.le [2; 5; 10]%Z /\
  pool_invariant (example_datamodule unit) example_heap.
Proof.
  split; [reflexivity|].
  destruct (constructor_buckets unit example_load_data example_split_config
              example_files example_heap (example_datamodule unit) eq_refl)
    as (_ & Hsorted & _ & _ & _ & _ & _ & Hinv).
  split; [exact Hsorted|].
  apply Hinv.
  - repeat constructor; list_member.
  - repeat constructor; list_member.
  - repeat constructor; list_member.
  - intros label Hb Hn. apply list_elem_of_In in Hb, Hn. simpl in *. lia.
Defined.

Lemma buckets_keep_single_runs_witness :
  GraphFewShotDataModule.__init__ unit example_load_data example_split_config
    example_files example_heap = Ok (example_datamodule unit) /\
  concat (map snd (GraphFewShotDataModule.data_list_by_label
                     (example_datamodule unit)))
    = [0; 1; 2; 3; 4; 5; 6].
Proof.
  split; [reflexivity|].
  apply (proj1 (proj2 (buckets_keep_single_runs unit example_load_data
                         example_split_config example_files example_heap
                         (example_datamodule unit) eq_refl))).
  simpl. repeat constructor; list_member.
Defined.

Lemma pools_follow_labels_witness :
  exists base novel,
    getitem (GraphFewShotDataModule.split_base_novel_samples
               (example_datamodule unit)) "base" = Ok base /\
    getitem (GraphFewShotDataModule.split_base_novel_samples
               (example_datamodule unit)) "novel" = Ok novel /\
    (forall s, s ∈ base -> s ∉ novel).
Proof.
  destruct (pools_follow_labels (example_datamodule unit) example_heap)
    as (base & novel & Hb & Hn & _ & _ & _ & Hdisjoint).
  - intros k ss s Hin Hs. apply list_elem_of_In in Hin, Hs. simpl in Hin.
    repeat (destruct Hin as [Hin|Hin];
            [injection Hin as <- <-; simpl in Hs;
             intuition (subst; reflexivity)|]).
    destruct Hin.
  - exists base, novel. split; [exact Hb|]. split; [exact Hn|].
    apply Hdisjoint.
    intros label Hlb Hln. apply list_elem_of_In in Hlb, Hln. simpl in *. lia.
Defined.

Lemma train_val_partition_witness :
  exists train val,
    GraphTransferDataModule.split_train_val (fun idxs => idxs)
      (example_datamodule unit) [0; 1; 2; 3] = Ok (train, val) /\
    train ++ val ≡ₚ [0; 1; 2; 3] /\
    length train = 2.
Proof.
  assert (Hbound : ceil_ratio (1 # 2) 4 = Ok 2%Z) by (vm_compute; reflexivity).
  destruct (proj1 (train_val_partition (fun idxs => idxs)
                     (example_datamodule unit) [0; 1; 2; 3]
                     (fun l => reflexivity l)) 2%Z Hbound)
    as (train & val & Hs & Hp & Hl & _).
  exists train, val. split; [exact Hs|]. split; [exact Hp|].
  exact (Hl ltac:(lia)).
Defined.

Lemma split_query_support_extremes_witness :
  (exists supports,
     GraphFewShotDataModule.split_query_support (fun idxs => idxs)
       (fun _ => Raise FileNotFoundError)
       (example_datamodule_with_ratio unit 1) [0; 1; 2; 3]
       = Ok (SplitSamples supports []) /\
     supports ≡ₚ [0; 1; 2; 3]) /\
  (exists queries,
     GraphFewShotDataModule.split_query_support (fun idxs => idxs)
       (fun _ => Raise FileNotFoundError)
       (example_datamodule_with_ratio unit 0) [0; 1; 2; 3]
       = Ok (SplitSamples [] queries) /\
     queries ≡ₚ [0; 1; 2; 3]).
Proof.
  split.
  - apply (proj1 (split_query_support_extremes (fun idxs => idxs)
                    (fun _ => Raise FileNotFoundError)
                    (example_datamodule_with_ratio unit 1) [0; 1; 2; 3]
                    (fun l => reflexivity l) eq_refl
                    ltac:(repeat split; vm_compute; discriminate))).
    simpl. apply Qle_refl.
  - apply (proj2 (split_query_support_extremes (fun idxs => idxs)
                    (fun _ => Raise FileNotFoundError)
                    (example_datamodule_with_ratio unit 0) [0; 1; 2; 3]
                    (fun l => reflexivity l) eq_refl
                    ltac:(repeat split; vm_compute; discriminate))).
    simpl. reflexivity.
Defined.

Lemma local_labels_keep_order_witness :
  let m := GraphTransferDataModule.global_to_local [10; 2; 5]%Z in
  (forall label, is_Some (m !! label) <-> label ∈ [10; 2; 5]%Z) /\
  (forall l1 l2 i1 i2, m !! l1 = Some i1 -> m !! l2 = Some i2 ->
     ((l1 < l2)%Z <-> i1 < i2)) /\
  (forall l1 l2 i, m !! l1 = Some i -> m !! l2 = Some i -> l1 = l2) /\
  (forall i, i < 3 -> exists label, m !! label = Some i).
Proof.
  apply (local_labels_keep_order [10; 2; 5]%Z).
  repeat constructor; list_member.
Defined.

Lemma convert_rejects_foreign_labels_witness :
  GraphTransferDataModule.convert_to_local_labels (example_datamodule unit)
    [0; 1] "other" example_heap = Raise KeyError /\
  GraphTransferDataModule.convert_to_local_labels (example_datamodule unit)
    [0; 4] "base" example_heap = Raise KeyError.
Proof.
  split.
  - apply (proj1 (convert_rejects_foreign_labels (example_datamodule unit)
                    [0; 1] "other" example_heap)).
    reflexivity.
  - apply (proj2 (convert_rejects_foreign_labels (example_datamodule unit)
                    [0; 4] "base" example_heap) [2; 5; 10]%Z 4).
    + reflexivity.
    + repeat constructor; list_member.
    + list_member.
    + list_member.
Defined.

Lemma setup_is_not_repeatable_witness :
  exists self' h',
    GraphTransferDataModule.setup (fun idxs => idxs) labels_at_construction
      example_MapEpisodicDataset (example_datamodule (list Z))
      (Some "fit"%string) example_heap = Ok (self', h') /\
    y (h' 0) = Z.of_nat 0 /\
    GraphTransferDataModule.setup (fun idxs => idxs) labels_at_construction
      example_MapEpisodicDataset self' (Some "fit"%string) h' = Raise KeyError.
Proof.
  eexists _, _. split; [vm_compute; reflexivity|].
  apply (setup_is_not_repeatable (fun idxs => idxs) (fun idxs => idxs)
           labels_at_construction labels_at_construction
           example_MapEpisodicDataset example_MapEpisodicDataset
           (example_datamodule (list Z)) _ (Some "fit"%string) example_heap _
           0 0).
  - reflexivity.
  - exact example_pool_invariant.
  - vm_compute; reflexivity.
  - list_member.
  - reflexivity.
  - list_member.
Defined.

Lemma evaluation_steps_raise_witness :
  exists b,
    EpisodeBatch.from_episode_list num_graphs [episode_a; episode_b]
      two_way_one_shot = Ok b /\
    DMLBaseline.validation_step
      (fun batch => Ok (values (EpisodeBatch.cosine_targets batch)))
      (fun _ _ => Ok tt) (fun row => Z.of_nat (argmax row)) (fun _ _ => Ok tt)
      (fun _ _ _ => Ok tt) (fun _ => Ok tt) b = Raise AttributeError /\
    DMLBaseline.test_step
      (fun batch => Ok (values (EpisodeBatch.cosine_targets batch)))
      (fun _ _ => Ok tt) (fun row => Z.of_nat (argmax row)) (fun _ _ => Ok tt)
      (fun _ _ _ => Ok tt) (fun _ => Ok tt) b = Raise AttributeError /\
    DMLBaseline.training_step
      (fun batch => Ok (values (EpisodeBatch.cosine_targets batch)))
      (fun _ _ => Ok tt) (fun _ _ => Ok tt) b
      = Ok (values (EpisodeBatch.cosine_targets b), tt).
Proof.
  eexists. split; [reflexivity|].
  lazymatch goal with
  | |- context [DMLBaseline.training_step _ _ _ ?b] =>
      destruct (proj2 (proj2 (evaluation_steps_raise
                  (fun batch => Ok (values (EpisodeBatch.cosine_targets batch)))
                  (fun _ _ => Ok tt) (fun row => Z.of_nat (argmax row))
                  (fun _ _ => Ok tt) (fun _ _ _ => Ok tt) (fun _ => Ok tt) b))
                _ tt _ eq_refl eq_refl eq_refl)
        as (Hval & Htest & Htrain)
  end.
  split; [exact (Hval eq_refl)|]. split; [exact (Htest eq_refl)|].
  exact (Htrain eq_refl).
Defined.

Lemma baseline_constructor_raises_witness :
  DMLBaseline.__init__ (Ok tt) (Ok tt) (fun _ : unit => Ok tt)
    (fun _ _ _ _ _ => Ok tt) (fun _ _ _ => Ok tt) (Some example_metadata)
    = Raise AttributeError.
Proof.
  apply (proj2 (proj2 (baseline_constructor_raises (Ok tt) (Ok tt)
                         (fun _ : unit => Ok tt) (fun _ _ _ _ _ => Ok tt)
                         (fun _ _ _ => Ok tt) (Some example_metadata)))
           example_metadata
           [ ("a"%string, JInt 0); ("b"%string, JInt 1) ] tt tt).
  - reflexivity.
  - reflexivity.
  - reflexivity.
  - reflexivity.
  - reflexivity.
Defined.

Lemma load_reads_the_document_witness :
  MetaData.load "none" example_metadata_files = Raise FileNotFoundError /\
  MetaData.load "meta" (<["meta/data.json"%string := JObj []]> example_metadata_files)
    = Raise KeyError /\
  MetaData.load "meta" example_metadata_files
    = Ok (MetaData.mk (JObj [ ("a"%string, JInt 0); ("b"%string, JInt 1) ])
            (JInt 3) 2 two_way_one_shot
            (JObj [ ("base"%string, JList [JStr "a"]);
                    ("novel"%string, JList [JStr "b"]) ])).
Proof.
  split; [|split].
  - apply (proj1 (load_reads_the_document "none" example_metadata_files)).
    reflexivity.
  - apply (proj1 (proj2 (load_reads_the_document "meta"
                           (<["meta/data.json"%string := JObj []]>
                              example_metadata_files))) []).
    + reflexivity.
    + reflexivity.
  - eapply (proj2 (proj2 (load_reads_the_document "meta" example_metadata_files))
              _ [ ("a"%string, JInt 0); ("b"%string, JInt 1) ] (JInt 3) _ 2 1 1).
    + reflexivity.
    + reflexivity.
    + reflexivity.
    + reflexivity.
    + reflexivity.
Defined.

Lemma meta_setup_datasets_witness :
  exists self' g',
    GraphMetaDataModule.setup (fun idxs => idxs)
      (fun _ => Raise FileNotFoundError)
      (fun samples _ _ _ _ _ _ g => Ok (samples, S g))
      (fun samples _ _ _ _ _ _ g => Ok (inl samples, S g))
      (example_datamodule (list loc + query_support_split))
      (Some "fit"%string) example_heap 0 = Ok (self', g') /\
    GraphFewShotDataModule.train_dataset self'
      = Some (inr (SplitSamples [0; 1] [2; 3])) /\
    GraphFewShotDataModule.test_datasets self' = Some [inl [4; 5; 6]] /\
    GraphFewShotDataModule.val_datasets self' = None.
Proof.
  eexists _, _. split; [vm_compute; reflexivity|].
  split; [reflexivity|]. split; [reflexivity|].
  lazymatch goal with
  | |- GraphFewShotDataModule.val_datasets ?self' = _ =>
      exact (proj1 (proj2 (proj2
               (meta_setup_datasets (fun idxs => idxs)
                  (fun _ => Raise FileNotFoundError)
                  (fun samples _ _ _ _ _ _ g => Ok (samples, S g))
                  (fun samples _ _ _ _ _ _ g => Ok (inl samples, S g))
                  (example_datamodule (list loc + query_support_split)) self'
                  (Some "fit"%string) example_heap 0 2
                  ltac:(vm_compute; reflexivity)))))
  end.
Defined.
